(** * The real-time trace accumulator of obspy.realtime (rttrace.py)

    A shallow embedding of [RtTrace.append], [RtTrace.registerRtProcess] and
    [_splitTrace] from [obspy/realtime/rttrace.py], with the properties of
    the accumulator stated over it.

    Conventions of the embedding.
    - Python floats and [UTCDateTime] timestamps are exact rationals ([Q]);
      rounding error of binary floating point is not modelled, so equalities
      between computed times are stated with [==] ([Qeq]).  The literal [0.1]
      is [1 # 10].
    - Python objects that are mutated through references live in stores
      addressed by index: the packets ([Trace] objects handed to [append]) and
      the [RtMemory] objects owned by registered processes.
    - A method is a computation in a state-and-exception monad over these
      stores, the accumulator object and standard output. *)

From Stdlib Require Import ZArith QArith Qround Qfield Lia List String Ascii Bool.
From stdpp Require Import base list strings.

Local Open Scope Q_scope.

(** ** Python numbers *)

Module Py.

(** [a < b] on floats. *)
Definition lt (a b : Q) : bool := negb (Qle_bool b a).

(** [a > b] on floats. *)
Definition gt (a b : Q) : bool := lt b a.

(** [a != b] on floats. *)
Definition ne (a b : Q) : bool := negb (Qeq_bool a b).

(** [int(x)]: truncation toward zero. *)
Definition int (x : Q) : Z := Z.quot (Qnum x) (Zpos (Qden x)).

(** [round(x)]: nearest integer, halves away from zero. *)
Definition round (x : Q) : Z :=
  if Qle_bool 0 x then Qfloor (x + (1 # 2))
  else (- Qfloor (- x + (1 # 2)))%Z.

(** [c.lower()] on one ASCII character. *)
Definition lower_ascii (c : ascii) : ascii :=
  let n := nat_of_ascii c in
  if ((65 <=? n) && (n <=? 90))%nat then ascii_of_nat (n + 32) else c.

(** [s.lower()]. *)
Fixpoint lower (s : string) : string :=
  match s with
  | EmptyString => EmptyString
  | String c s' => String (lower_ascii c) (lower s')
  end.

(** [key.startswith(p)]. *)
Definition startswith (key p : string) : bool := String.prefix p key.

End Py.

(** ** numpy arrays *)

Inductive byteorder := BigEndian | LittleEndian.

(** The dtypes seismic data comes in: ['>f4'], ['<f4'], ['>f8'], ['<i4'], ... *)
Inductive dtype :=
| dtype_f4 (o : byteorder)
| dtype_f8 (o : byteorder)
| dtype_i4 (o : byteorder)
| dtype_i8 (o : byteorder).

#[global] Instance byteorder_eq_dec : EqDecision byteorder.
Proof. solve_decision. Defined.

#[global] Instance dtype_eq_dec : EqDecision dtype.
Proof. solve_decision. Defined.

(** Byte order of the host; [np.float32] and [np.float64] are native. *)
Definition native : byteorder := LittleEndian.

Record ndarray := mk_ndarray {
  arr_dtype : dtype;
  arr_values : list Q
}.

Module np.

Definition float32 : dtype := dtype_f4 native.
Definition float64 : dtype := dtype_f8 native.

(** [np.array(a)]: a copy. *)
Definition array (a : ndarray) : ndarray :=
  mk_ndarray (arr_dtype a) (arr_values a).

(** [np.array(a, dtype=d)]: a copy converted to [d].  It is only applied
    to single-precision data with [d = float32], which keeps every value. *)
Definition array_as (a : ndarray) (d : dtype) : ndarray :=
  mk_ndarray d (arr_values a).

(** [np.array([])]. *)
Definition empty : ndarray := mk_ndarray float64 [].

(** [np.size(a)]. *)
Definition size (a : ndarray) : Z := Z.of_nat (length (arr_values a)).

(** [np.concatenate([a, b])] of arrays of one dtype. *)
Definition concatenate (a b : ndarray) : ndarray :=
  mk_ndarray (arr_dtype a) (arr_values a ++ arr_values b).

(** [a[k:]] for [k >= 0]. *)
Definition from (a : ndarray) (k : Z) : ndarray :=
  mk_ndarray (arr_dtype a) (drop (Z.to_nat k) (arr_values a)).

(** [a[:k]] for [k >= 0]. *)
Definition upto (a : ndarray) (k : Z) : ndarray :=
  mk_ndarray (arr_dtype a) (take (Z.to_nat k) (arr_values a)).

End np.

(** [d == '>f4' or d == '<f4']. *)
Definition is_f4 (d : dtype) : bool :=
  match d with dtype_f4 _ => true | _ => false end.

(** ** Exceptions and standard output *)

(** Keyword arguments of a processing function. *)
Definition options := list (string * Q).

(** The figures of a gap or overlap message:
    [(%g) samples in data: (%s) (%s) diff=%gs  dt=%gs]. *)
Record gap_report := mk_gap_report {
  rep_samples : Q;
  rep_endtime : Q;
  rep_starttime : Q;
  rep_diff : Q;
  rep_dt : Q
}.

Inductive message :=
| Msg_overlap (r : gap_report)
| Msg_gap (r : gap_report).

Inductive exn :=
| TypeError_id (mine theirs : string * string * string * string)
| TypeError_sampling_rate (mine theirs : Q)
| TypeError_calib (mine theirs : Q)
| TypeError_dtype (mine theirs : dtype)
| TypeError_continuity (msg : message)
| ValueError_max_length (given : Q)
| NotImplementedError_register (process : string)
| KeyError (key : string)
| ZeroDivisionError
| ReferenceError (address : nat)
| ProcessError (what : string).

Inductive line :=
| Line_check (delta endtime starttime diff dt : Q)
| Line_warning (msg : message)
| Line_reinit
| Line_adjusted (by_seconds : Q).

Definition Result (A : Type) : Type := exn + A.

(** ** The series container of obspy.core

    [Trace], [Stats] and [UTCDateTime] belong to obspy.core; the accumulator
    subclasses [Trace] and calls into it. *)

(** Modelled from the spec: the header of a series ([obspy.core.Stats],
    section 3 "ContinuousSeries"): identity (network/station/location/channel),
    sample rate, calibration factor, sample count, start time, and the
    processing history that [_addProcessingInfo] extends. *)
Record Stats := mk_Stats {
  network : string;
  station : string;
  location : string;
  channel : string;
  sampling_rate : Q;
  calib : Q;
  npts : Z;
  starttime : Q;
  processing_info : list (string * options)
}.

(** Modelled from the spec: the header of a series built with [header=None]
    (section 3: identity and start time unset, no samples). *)
Definition Stats_default : Stats :=
  mk_Stats "" "" "" "" 1 1 0 0 [].

(** Modelled from the spec: [stats.delta], the sample spacing [1/sampling_rate]. *)
Definition delta (s : Stats) : Q := 1 / sampling_rate s.

(** Modelled from the spec: [stats.endtime], section 3:
    [end_time = start_time + (len(samples)-1)/sample_rate]. *)
Definition endtime (s : Stats) : Q :=
  starttime s + inject_Z (npts s - 1) / sampling_rate s.

Definition set_npts (s : Stats) (n : Z) : Stats :=
  mk_Stats (network s) (station s) (location s) (channel s)
           (sampling_rate s) (calib s) n (starttime s) (processing_info s).

Definition set_starttime (s : Stats) (t : Q) : Stats :=
  mk_Stats (network s) (station s) (location s) (channel s)
           (sampling_rate s) (calib s) (npts s) t (processing_info s).

Definition add_processing_info (s : Stats) (info : string * options) : Stats :=
  mk_Stats (network s) (station s) (location s) (channel s)
           (sampling_rate s) (calib s) (npts s) (starttime s)
           (processing_info s ++ [info]).

(** Modelled from the spec: a series, samples plus header ([obspy.core.Trace]). *)
Record Trace := mk_Trace {
  data : ndarray;
  stats : Stats
}.

Definition set_data (t : Trace) (a : ndarray) : Trace := mk_Trace a (stats t).
Definition set_stats (t : Trace) (s : Stats) : Trace := mk_Trace (data t) s.

(** Modelled from the spec: [Trace.getId()], the identity of the channel. *)
Definition getId (t : Trace) : string * string * string * string :=
  (network (stats t), station (stats t), location (stats t), channel (stats t)).

(** Modelled from the spec: [Trace._ltrim(starttime, pad=False,
    nearest_sample=True)], section 4.2 "Bounded retention": cut the samples
    before the sample nearest to the given time, recompute the start time
    from the number of samples cut, never pad. *)
Definition _ltrim (t : Trace) (start : Q) : Trace :=
  let cut := Py.round ((start - starttime (stats t)) * sampling_rate (stats t)) in
  if (0 <? cut)%Z then
    let kept := np.from (data t) cut in
    mk_Trace kept
      (set_npts
         (set_starttime (stats t)
            (starttime (stats t) + inject_Z cut * delta (stats t)))
         (np.size kept))
  else t.

(** Modelled from the spec: [Trace._rtrim(endtime, pad=False,
    nearest_sample=True)], the mirror image of [_ltrim]: cut the samples after
    the sample nearest to the given time; a time before the first sample
    leaves no sample. *)
Definition _rtrim (t : Trace) (stop : Q) : Trace :=
  let cut := Py.round ((endtime (stats t) - stop) * sampling_rate (stats t)) in
  if (0 <? cut)%Z then
    let kept := np.upto (data t) (Z.max 0 (npts (stats t) - cut)) in
    mk_Trace kept (set_npts (stats t) (np.size kept))
  else t.

(** Modelled from the spec: [Trace.slice(starttime, endtime)], section 6
    "slice-by-time": an independent copy holding the samples between the two
    times, both ends included. *)
Definition slice (t : Trace) (start stop : Q) : Trace :=
  _rtrim (_ltrim (mk_Trace (np.array (data t)) (stats t)) start) stop.

(** Modelled from the spec: [Trace.__add__(self, trace, method=0,
    interpolation_samples=0, fill_value='latest', sanity_checks=True)],
    sections 4.2 "Merge" and 6: after the sanity checks the packet is
    concatenated onto the series without interpolation or fill, and the
    sample count of the sum is that of the concatenation. *)
Definition Trace___add__ (self trace : Trace) : Result Trace :=
  if decide (getId self = getId trace) then
    if Py.ne (sampling_rate (stats self)) (sampling_rate (stats trace)) then
      inl (TypeError_sampling_rate (sampling_rate (stats self))
                                   (sampling_rate (stats trace)))
    else if Py.ne (calib (stats self)) (calib (stats trace)) then
      inl (TypeError_calib (calib (stats self)) (calib (stats trace)))
    else if decide (arr_dtype (data self) = arr_dtype (data trace)) then
      let joined := np.concatenate (data self) (data trace) in
      inr (mk_Trace joined (set_npts (stats self) (np.size joined)))
    else inl (TypeError_dtype (arr_dtype (data self)) (arr_dtype (data trace)))
  else inl (TypeError_id (getId self) (getId trace)).

(** Modelled from the spec: the carry-over state of one stateful transform
    ([obspy.realtime.rtmemory.RtMemory], section 2 "Stateful Transform
    Memory"); a new instance is not initialized and holds no history. *)
Record RtMemory := mk_RtMemory {
  initialized : bool;
  history : list Q
}.

(** Modelled from the spec: [RtMemory()], a freshly-initialized (empty)
    memory instance. *)
Definition RtMemory_new : RtMemory := mk_RtMemory false [].

(** ** Processing functions and the accumulator object *)

(** A predefined processing function of [obspy.realtime.signal], called as
    [func(trace, rtmemory_list, **options)]: it reads the packet, may update
    the [RtMemory] objects in the store, and returns the processed array or
    raises. *)
Definition signal_function : Type :=
  Trace -> option (list nat) -> options -> list RtMemory ->
  (string + ndarray) * list RtMemory.

(** The module [obspy.realtime.signal], a collaborator of the accumulator. *)
Record signal_module := mk_signal_module {
  signal_scale : signal_function;
  signal_integrate : signal_function;
  signal_differentiate : signal_function;
  signal_boxcar : signal_function;
  signal_tauc : signal_function;
  signal_mwpIntegral : signal_function
}.

(** The [process] argument of [registerRtProcess]: a function taking a single
    array ([name] is what ["%s" % process] prints) or the name of a predefined
    function. *)
Inductive process :=
| Function (name : string) (call : ndarray -> options -> string + ndarray)
| Name (name : string).

(** An entry of [self.processing]: [(process_name, options, rtmemory_list)];
    the list holds references to [RtMemory] objects, [None] when there is no
    memory. *)
Definition entry : Type := process * options * option (list nat).

Record RtTrace := mk_RtTrace {
  max_length : option Q;
  have_appended_data : bool;
  processing : list entry;
  base : Trace   (* the inherited [Trace]: [self.data], [self.stats] *)
}.

(** What a method hands back to its caller. *)
Inductive value :=
| Ref_Trace (address : nat)
| Array (a : ndarray)
| Int (n : Z).

(** One invocation of a processing function, as the interpreter performs it:
    which entry, the memory references and the memory store it is given, the
    array it receives and what it returns.  The record of invocations is not
    program state; it lets a property speak about the moment of a call. *)
Record invocation := mk_invocation {
  inv_entry : nat;
  inv_memory : option (list nat);
  inv_store : list RtMemory;
  inv_input : ndarray;
  inv_output : string + ndarray
}.

Record State := mk_State {
  self : RtTrace;
  traces : list Trace;
  memories : list RtMemory;
  stdout : list line;
  invocations : list invocation
}.

(** ** The state-and-exception monad *)

Definition M (A : Type) : Type := State -> Result A * State.

Definition ret {A} (a : A) : M A := fun s => (inr a, s).

Definition raise {A} (e : exn) : M A := fun s => (inl e, s).

Definition bind {A B} (c : M A) (k : A -> M B) : M B :=
  fun s => match c s with
           | (inl e, s') => (inl e, s')
           | (inr a, s') => k a s'
           end.

Notation "x <- c ;; k" := (bind c (fun x => k))
  (at level 20, c at level 99, k at level 200, only parsing).
Notation "c ;; k" := (bind c (fun _ => k))
  (at level 100, k at level 200, only parsing).

Definition lift {A} (r : Result A) : M A :=
  match r with inl e => raise e | inr a => ret a end.

Definition get_self : M RtTrace := fun s => (inr (self s), s).

Definition put_self (rt : RtTrace) : M unit :=
  fun s => (inr tt, mk_State rt (traces s) (memories s) (stdout s) (invocations s)).

Definition print (l : line) : M unit :=
  fun s => (inr tt, mk_State (self s) (traces s) (memories s) (stdout s ++ [l])
                             (invocations s)).

Definition record (i : invocation) : M unit :=
  fun s => (inr tt, mk_State (self s) (traces s) (memories s) (stdout s)
                             (invocations s ++ [i])).

(** Dereference a packet. *)
Definition read_trace (p : nat) : M Trace :=
  fun s => match traces s !! p with
           | Some t => (inr t, s)
           | None => (inl (ReferenceError p), s)
           end.

(** [trace.data = a] on the packet object. *)
Definition assign_data (p : nat) (a : ndarray) : M unit :=
  t <- read_trace p ;;
  fun s => (inr tt, mk_State (self s) (<[p := set_data t a]> (traces s))
                             (memories s) (stdout s) (invocations s)).

(** [RtMemory()]: a new object in the store. *)
Definition new_RtMemory : M nat :=
  fun s => (inr (length (memories s)),
            mk_State (self s) (traces s) (memories s ++ [RtMemory_new])
                     (stdout s) (invocations s)).

Definition get_memories : M (list RtMemory) := fun s => (inr (memories s), s).

Definition put_memories (m : list RtMemory) : M unit :=
  fun s => (inr tt, mk_State (self s) (traces s) m (stdout s) (invocations s)).

(** [a / b] on floats. *)
Definition truediv (a b : Q) : M Q :=
  if Qeq_bool b 0 then raise ZeroDivisionError else ret (a / b).

Definition set_base (rt : RtTrace) (t : Trace) : RtTrace :=
  mk_RtTrace (max_length rt) (have_appended_data rt) (processing rt) t.

Definition set_processing (rt : RtTrace) (l : list entry) : RtTrace :=
  mk_RtTrace (max_length rt) (have_appended_data rt) l (base rt).

Definition set_have_appended_data (rt : RtTrace) (b : bool) : RtTrace :=
  mk_RtTrace (max_length rt) b (processing rt) (base rt).

(** [RtTrace.__init__(self, max_length=None)]. *)
Definition RtTrace___init__ (max_length : option Q) : Result RtTrace :=
  let fresh := mk_RtTrace max_length false [] (mk_Trace np.empty Stats_default) in
  match max_length with
  | Some m => if Qle_bool m 0 then inl (ValueError_max_length m) else inr fresh
  | None => inr fresh
  end.

(** ** rttrace.py *)

Section RtTrace.

Variable signal : signal_module.

(** The dictionary mapping type-strings to processing functions: keys are
    lower case, values are [(function, number of RtMemory objects)].
    Iteration over the dictionary follows the order of the entries here. *)
Definition REALTIME_PROCESS_FUNCTIONS : list (string * (signal_function * nat)) :=
  [ ("scale", (signal_scale signal, 0%nat));
    ("integrate", (signal_integrate signal, 1%nat));
    ("differentiate", (signal_differentiate signal, 1%nat));
    ("boxcar", (signal_boxcar signal, 1%nat));
    ("tauc", (signal_tauc signal, 2%nat));
    ("mwpintegral", (signal_mwpIntegral signal, 1%nat)) ].

(** [REALTIME_PROCESS_FUNCTIONS[key]], [None] for a missing key. *)
Definition lookup_function (key : string) : option (signal_function * nat) :=
  snd <$> List.find (fun kv => String.eqb (fst kv) key) REALTIME_PROCESS_FUNCTIONS.

(** ["%s" % process]. *)
Definition str (p : process) : string :=
  match p with
  | Function name _ => name
  | Name name => name
  end.

(** [[RtMemory()] * num]: one new object, referenced [num] times. *)
Definition new_rtmemory_list (num : nat) : M (option (list nat)) :=
  if (num =? 0)%nat then ret None
  else (a <- new_RtMemory ;; ret (Some (replicate num a))).

(** [RtTrace.registerRtProcess(self, process, **options)]. *)
Definition registerRtProcess (process : process) (options : options) : M value :=
  (* create process_name either from string or function name *)
  let process_name := Py.lower (str process) in
  (* set processing entry for this process *)
  found <-
    match process with
    | Function _ _ =>
        (* direct function call *)
        ret (Some (process, options, None), process_name)
    | Name _ =>
        match lookup_function process_name with
        | Some (_, num) =>
            (* predefined function *)
            rtmemory_list <- new_rtmemory_list num ;;
            ret (Some (Name process_name, options, rtmemory_list), process_name)
        | None =>
            (* check if process name is contained within a predefined
               function, e.g. 'int' for 'integrate' *)
            match List.find (fun kv => Py.startswith (fst kv) process_name)
                            REALTIME_PROCESS_FUNCTIONS with
            | Some (key, (_, num)) =>
                rtmemory_list <- new_rtmemory_list num ;;
                ret (Some (Name key, options, rtmemory_list), key)
            | None => ret (None, process_name)
            end
        end
    end ;;
  match found with
  | (None, _) => raise (NotImplementedError_register (str process))
  | (Some entry, process_name) =>
      (* add process entry *)
      rt <- get_self ;;
      put_self (set_processing rt (processing rt ++ [entry])) ;;
      (* add processing information to the stats dictionary *)
      rt <- get_self ;;
      put_self (set_base rt
                  (set_stats (base rt)
                     (add_processing_info (stats (base rt))
                                          (process_name, options)))) ;;
      rt <- get_self ;;
      ret (Int (Z.of_nat (length (processing rt))))
  end.

(** Lines 186-189 of [append]: convert f4 data to float32. *)
Definition append_convert (trace : nat) : M unit :=
  t <- read_trace trace ;;
  if is_f4 (arr_dtype (data t))
  then assign_data trace (np.array_as (data t) np.float32)
  else ret tt.

(** Lines 191-211 of [append]: sanity checks.  The packet is a [Trace] by
    its type, so [isinstance(trace, Trace)] holds. *)
Definition append_sanity_checks (trace : nat) : M unit :=
  rt <- get_self ;;
  if have_appended_data rt then
    t <- read_trace trace ;;
    (* check id *)
    (if decide (getId (base rt) = getId t) then ret tt
     else raise (TypeError_id (getId (base rt)) (getId t))) ;;
    (* check sample rate *)
    (if Py.ne (sampling_rate (stats (base rt))) (sampling_rate (stats t))
     then raise (TypeError_sampling_rate (sampling_rate (stats (base rt)))
                                         (sampling_rate (stats t)))
     else ret tt) ;;
    (* check calibration factor *)
    (if Py.ne (calib (stats (base rt))) (calib (stats t))
     then raise (TypeError_calib (calib (stats (base rt))) (calib (stats t)))
     else ret tt) ;;
    (* check data type *)
    (if decide (arr_dtype (data (base rt)) = arr_dtype (data t)) then ret tt
     else raise (TypeError_dtype (arr_dtype (data (base rt)))
                                 (arr_dtype (data t))))
  else ret tt.

(** Lines 214-261 of [append]: check times.  The result is the local
    [gap_or_overlap] together with [msg]: [None] when no gap or overlap was
    found, the message of the last one found otherwise. *)
Definition append_check_times (trace : nat) (gap_overlap_check verbose : bool)
  : M (option message) :=
  rt <- get_self ;;
  if have_appended_data rt then
    t <- read_trace trace ;;
    let sr := sampling_rate (stats (base rt)) in
    let diff := starttime (stats t) - endtime (stats (base rt)) in
    let delta := diff * sr - 1 in
    (if verbose then
       dt <- truediv 1 sr ;;
       print (Line_check delta (endtime (stats (base rt))) (starttime (stats t))
                         diff dt)
     else ret tt) ;;
    gap_or_overlap <-
      (if Py.lt delta (- (1 # 10)) then
         dt <- truediv 1 sr ;;
         let msg := Msg_overlap
                      (mk_gap_report (- delta) (endtime (stats (base rt)))
                                     (starttime (stats t)) diff dt) in
         if gap_overlap_check then raise (TypeError_continuity msg)
         else ret (Some msg)
       else ret None) ;;
    gap_or_overlap <-
      (if Py.gt delta (1 # 10) then
         dt <- truediv 1 sr ;;
         let msg := Msg_gap
                      (mk_gap_report delta (endtime (stats (base rt)))
                                     (starttime (stats t)) diff dt) in
         if gap_overlap_check then raise (TypeError_continuity msg)
         else ret (Some msg)
       else ret gap_or_overlap) ;;
    match gap_or_overlap with
    | Some msg =>
        print (Line_warning msg) ;;
        print Line_reinit ;;
        ret gap_or_overlap
    | None =>
        (* correct start time to pin absolute trace timing to start of
           appended trace *)
        dt <- truediv 1 sr ;;
        put_self (set_base rt
                    (set_stats (base rt)
                       (set_starttime (stats (base rt))
                          (starttime (stats (base rt)) + diff - dt)))) ;;
        (if verbose then
           dt <- truediv 1 sr ;;
           print (Line_adjusted (diff - dt))
         else ret tt) ;;
        ret None
    end
  else ret None.

(** [for n in range(len(rtmemory_list)): rtmemory_list[n] = RtMemory()],
    with [ns] the indices still to visit. *)
Fixpoint clear_memory (ns : list nat) (rtmemory_list : list nat) : M (list nat) :=
  match ns with
  | [] => ret rtmemory_list
  | n :: ns' =>
      a <- new_RtMemory ;;
      clear_memory ns' (<[n := a]> rtmemory_list)
  end.

(** Lines 267-270 of [append], for the entry at index [i] of
    [self.processing]: if gap or overlap, clear memory.  The result is the
    entry's [rtmemory_list] afterwards. *)
Definition append_clear (gap_or_overlap : bool) (i : nat) (proc : entry)
  : M (option (list nat)) :=
  let '(process_name, options, rtmemory_list) := proc in
  match rtmemory_list with
  | Some l =>
      if gap_or_overlap then
        l' <- clear_memory (seq 0 (length l)) l ;;
        rt <- get_self ;;
        put_self (set_processing rt
                    (<[i := (process_name, options, Some l')]> (processing rt))) ;;
        ret (Some l')
      else ret (Some l)
  | None => ret None
  end.

(** Lines 272-279 of [append], for the entry at index [i]: apply processing. *)
Definition append_call (trace : nat) (i : nat) (process_name : process)
           (options : options) (rtmemory_list : option (list nat)) : M unit :=
  t <- read_trace trace ;;
  store <- get_memories ;;
  match process_name with
  | Function _ call =>
      (* check if direct function call *)
      let out := call (data t) options in
      record (mk_invocation i None store (data t) out) ;;
      match out with
      | inl e => raise (ProcessError e)
      | inr a => assign_data trace a
      end
  | Name name =>
      (* got predefined function *)
      match lookup_function (Py.lower name) with
      | None => raise (KeyError (Py.lower name))
      | Some (func, _) =>
          let '(out, store') := func t rtmemory_list options store in
          record (mk_invocation i rtmemory_list store (data t) out) ;;
          put_memories store' ;;
          match out with
          | inl e => raise (ProcessError e)
          | inr a => assign_data trace a
          end
      end
  end.

(** The body of the loop at lines 264-279 for the entry at index [i]. *)
Definition append_apply (trace : nat) (gap_or_overlap : bool) (i : nat)
           (proc : entry) : M unit :=
  rtmemory_list <- append_clear gap_or_overlap i proc ;;
  append_call trace i (fst (fst proc)) (snd (fst proc)) rtmemory_list.

(** Lines 263-279 of [append]: [for proc in self.processing], from index [i]. *)
Fixpoint append_process (trace : nat) (gap_or_overlap : bool) (i : nat)
         (procs : list entry) : M unit :=
  match procs with
  | [] => ret tt
  | proc :: rest =>
      append_apply trace gap_or_overlap i proc ;;
      append_process trace gap_or_overlap (S i) rest
  end.

(** Lines 303-317 of [append]: left trim if data length exceeds max_length. *)
Definition append_left_trim : M unit :=
  rt <- get_self ;;
  match max_length rt with
  | Some max_length =>
      let max_samples :=
        Py.int (max_length * sampling_rate (stats (base rt)) + (1 # 2)) in
      if (max_samples <? np.size (data (base rt)))%Z then
        offset <- truediv (inject_Z (np.size (data (base rt)) - max_samples))
                          (sampling_rate (stats (base rt))) ;;
        let starttime := starttime (stats (base rt)) + offset in
        put_self (set_base rt (_ltrim (base rt) starttime))
      else ret tt
  | None => ret tt
  end.

(** Lines 281-317 of [append]: set stats on first data, otherwise add the
    packet to this trace and trim. *)
Definition append_merge (trace : nat) : M unit :=
  rt <- get_self ;;
  t <- read_trace trace ;;
  if negb (have_appended_data rt) then
    (* if first data, set stats *)
    put_self (set_base rt (mk_Trace (np.array (data t)) (stats t)))
  else
    sum_trace <- lift (Trace___add__ (base rt) t) ;;
    (* Trace.__add__ returns new Trace, so update to this RtTrace *)
    put_self (set_base rt
                (mk_Trace (data sum_trace)
                          (set_npts (stats (base rt)) (npts (stats sum_trace))))) ;;
    append_left_trim.

(** [RtTrace.append(self, trace, gap_overlap_check=False, verbose=False)]. *)
Definition append (trace : nat) (gap_overlap_check verbose : bool) : M value :=
  append_convert trace ;;
  append_sanity_checks trace ;;
  gap_or_overlap <- append_check_times trace gap_overlap_check verbose ;;
  (* first apply all registered processing to Trace *)
  rt <- get_self ;;
  append_process trace (bool_decide (gap_or_overlap ≠ None)) 0 (processing rt) ;;
  append_merge trace ;;
  rt <- get_self ;;
  put_self (set_have_appended_data rt true) ;;
  ret (Ref_Trace trace).

End RtTrace.

(** [_splitTrace]: the loop [for _i in range(num)], [count] rounds to go. *)
Fixpoint _splitTrace_loop (trace : Trace) (packet_length : Z) (count : nat)
         (tstart tend : Q) : list Trace :=
  match count with
  | O => []
  | S count' =>
      let tstart' := tend + delta (stats trace) in
      let tend' := tstart' + delta (stats trace) * inject_Z packet_length in
      slice trace tstart tend
        :: _splitTrace_loop trace packet_length count' tstart' tend'
  end.

(** [_splitTrace(trace, num=3)]. *)
Definition _splitTrace (trace : Trace) (num : Z) : Result (list Trace) :=
  let total_length := np.size (data trace) in
  if (num =? 0)%Z then inl ZeroDivisionError
  else
    let rest_length := (total_length mod num)%Z in
    let packet_length :=
      if (rest_length =? 0)%Z then (total_length / num - 1)%Z
      else (total_length / num)%Z in
    let tstart := starttime (stats trace) in
    let tend := tstart + delta (stats trace) * inject_Z packet_length in
    inr (_splitTrace_loop trace packet_length (Z.to_nat num) tstart tend).

(** ** Stand-ins for the collaborators, for running the model

    Simple processing functions with the call contract of section 6, used
    only to evaluate the accumulator on concrete packets. *)

Module Demo.

Definition option_get (opts : options) (key : string) (default : Q) : Q :=
  match List.find (fun kv => String.eqb (fst kv) key) opts with
  | Some (_, v) => v
  | None => default
  end.

(** Multiplies every sample by the option [factor]. *)
Definition scale : signal_function :=
  fun t _ opts store =>
    (inr (mk_ndarray (arr_dtype (data t))
            (List.map (Qmult (option_get opts "factor" 1)) (arr_values (data t)))),
     store).

(** A processing function that always raises. *)
Definition failing : signal_function :=
  fun _ _ _ store => (inl "failed"%string, store).

(** A processing function that returns its input. *)
Definition passing : signal_function :=
  fun t _ _ store => (inr (data t), store).

Definition signal : signal_module :=
  mk_signal_module scale passing failing passing passing passing.

(** A packet of channel BW.RJOB..EHZ in double precision. *)
Definition packet (start sr : Q) (samples : list Q) : Trace :=
  mk_Trace (mk_ndarray np.float64 samples)
           (mk_Stats "BW" "RJOB" "" "EHZ" sr 1 (Z.of_nat (length samples)) start []).

(** [RtTrace(max_length)] for an admissible [max_length]. *)
Definition rttrace (max_length : option Q) : RtTrace :=
  mk_RtTrace max_length false [] (mk_Trace np.empty Stats_default).

(** The interpreter state with one accumulator and the given packets. *)
Definition state (rt : RtTrace) (packets : list Trace) : State :=
  mk_State rt packets [] [] [].

End Demo.

(** ** Vocabulary of the properties *)

(** The packet after lines 186-189 of [append]. *)
Definition float32_converted (t : Trace) : Trace :=
  if is_f4 (arr_dtype (data t))
  then set_data t (np.array_as (data t) np.float32)
  else t.

(** The packet passes the sanity checks of [append] against the buffer. *)
Definition headers_match (rt : RtTrace) (t : Trace) : Prop :=
  getId (base rt) = getId t
  /\ sampling_rate (stats (base rt)) == sampling_rate (stats t)
  /\ calib (stats (base rt)) == calib (stats t)
  /\ arr_dtype (data (base rt)) = arr_dtype (data (float32_converted t)).

(** [diff = trace.stats.starttime - self.stats.endtime]. *)
Definition diff_of (rt : RtTrace) (t : Trace) : Q :=
  starttime (stats t) - endtime (stats (base rt)).

(** [delta = diff * sr - 1.0]. *)
Definition delta_of (rt : RtTrace) (t : Trace) : Q :=
  diff_of rt t * sampling_rate (stats (base rt)) - 1.

(** The figures reported for a gap or overlap between buffer and packet. *)
Definition report_of (samples : Q) (rt : RtTrace) (t : Trace) : gap_report :=
  mk_gap_report samples (endtime (stats (base rt))) (starttime (stats t))
                (diff_of rt t) (1 / sampling_rate (stats (base rt))).

(** The state with packet [p] replaced by [t]. *)
Definition with_packet (st : State) (p : nat) (t : Trace) : State :=
  mk_State (self st) (<[p := t]> (traces st)) (memories st) (stdout st)
           (invocations st).

(** The state with more lines on standard output. *)
Definition with_output (st : State) (ls : list line) : State :=
  mk_State (self st) (traces st) (memories st) (stdout st ++ ls) (invocations st).

(** The state with the buffer's start time set to [t0]. *)
Definition with_starttime (st : State) (t0 : Q) : State :=
  mk_State (set_base (self st)
              (set_stats (base (self st))
                 (set_starttime (stats (base (self st))) t0)))
           (traces st) (memories st) (stdout st) (invocations st).

(** Lines 186-279 of [append]: everything before the merge. *)
Definition append_before_merge (signal : signal_module) (trace : nat)
           (gap_overlap_check verbose : bool) : M unit :=
  append_convert trace ;;
  append_sanity_checks trace ;;
  gap_or_overlap <- append_check_times trace gap_overlap_check verbose ;;
  rt <- get_self ;;
  append_process signal trace (bool_decide (gap_or_overlap ≠ None)) 0 (processing rt).

(** Lines 263-322 of [append]: the pipeline, the merge and the return, entered
    with the local [gap_or_overlap] given. *)
Definition append_from_pipeline (signal : signal_module) (trace : nat)
           (gap_or_overlap : bool) : M value :=
  rt <- get_self ;;
  append_process signal trace gap_or_overlap 0 (processing rt) ;;
  append_merge trace ;;
  rt <- get_self ;;
  put_self (set_have_appended_data rt true) ;;
  ret (Ref_Trace trace).

(** Each stage of the pipeline receives what the previous one returned:
    [first] enters the first invocation, [last] leaves the last one. *)
Fixpoint chained (first : ndarray) (calls : list invocation) (last : ndarray) : Prop :=
  match calls with
  | [] => last = first
  | c :: calls' =>
      inv_input c = first
      /\ exists out, inv_output c = inr out /\ chained out calls' last
  end.

Definition check_line (rt : RtTrace) (t : Trace) : line :=
  Line_check (delta_of rt t) (endtime (stats (base rt))) (starttime (stats t))
             (diff_of rt t) (1 / sampling_rate (stats (base rt))).

Definition when (b : bool) (ls : list line) : list line := if b then ls else [].

(** What the pipeline leaves alone: the buffer, its flags, standard output,
    the number of entries, every packet other than [p] and the header of [p];
    it only adds invocations. *)
Record pipeline_frame (p : nat) (st st' : State) : Prop := mk_pipeline_frame {
  pf_base : base (self st') = base (self st);
  pf_max_length : max_length (self st') = max_length (self st);
  pf_seeded : have_appended_data (self st') = have_appended_data (self st);
  pf_stdout : stdout st' = stdout st;
  pf_entries : length (processing (self st')) = length (processing (self st));
  pf_others : forall q, q <> p -> traces st' !! q = traces st !! q;
  pf_packets : length (traces st') = length (traces st);
  pf_header : forall t, traces st !! p = Some t ->
                        exists a, traces st' !! p = Some (set_data t a);
  pf_invocations : exists new, invocations st' = invocations st ++ new
}.

(** The state after the memory of entry [i] has been cleared. *)
Definition cleared (st : State) (i : nat) (name : process) (opts : options)
           (l : list nat) : State :=
  mk_State (set_processing (self st)
              (<[i := (name, opts, Some (seq (length (memories st)) (length l)))]>
                 (processing (self st))))
           (traces st)
           (memories st ++ replicate (length l) RtMemory_new)
           (stdout st) (invocations st).

(** The outcomes of calling the processing function of entry [i]. *)
Inductive call_outcome (p i : nat) (name : process) (mem : option (list nat))
          (t : Trace) (st : State) : Result unit -> State -> Prop :=
| call_returns (c : invocation) (a : ndarray) (store : list RtMemory) :
    inv_entry c = i ->
    inv_memory c = match name with Name _ => mem | Function _ _ => None end ->
    inv_store c = memories st ->
    inv_input c = data t ->
    inv_output c = inr a ->
    call_outcome p i name mem t st (inr tt)
      (mk_State (self st) (<[p := set_data t a]> (traces st)) store (stdout st)
                (invocations st ++ [c]))
| call_raises (c : invocation) (e : string) (store : list RtMemory) :
    inv_entry c = i ->
    inv_memory c = match name with Name _ => mem | Function _ _ => None end ->
    inv_store c = memories st ->
    inv_input c = data t ->
    inv_output c = inl e ->
    call_outcome p i name mem t st (inl (ProcessError e))
      (mk_State (self st) (traces st) store (stdout st) (invocations st ++ [c]))
| call_unknown (key : string) :
    call_outcome p i name mem t st (inl (KeyError key)) st.

(** The exceptions that come out of the pipeline: a dangling packet
    reference, an unknown process name, or whatever a processing function
    raised. *)
Definition pipeline_error (e : exn) : Prop :=
  match e with
  | ReferenceError _ | KeyError _ | ProcessError _ => True
  | _ => False
  end.

Definition continuity_error (e : exn) : Prop :=
  match e with TypeError_continuity _ => True | _ => False end.

(** The invocations of one run of the pipeline on an array: each receives
    what the one before returned; a raising invocation is the last one and
    leaves the array as it received it. *)
Inductive staged : ndarray -> list invocation -> ndarray -> Prop :=
| staged_done (a : ndarray) : staged a [] a
| staged_returns (a out last : ndarray) (c : invocation) (calls : list invocation) :
    inv_input c = a -> inv_output c = inr out -> staged out calls last ->
    staged a (c :: calls) last
| staged_raises (a : ndarray) (c : invocation) (e : string) :
    inv_input c = a -> inv_output c = inl e -> staged a [c] a.

(** The invocation [c] of an entry of [before] happened on cleared memory:
    the entry's references were replaced by references to new [RtMemory]
    objects, one per slot, placed behind everything the store held; [after]
    is the registry when the pipeline is through. *)
Definition memory_cleared (before after : list entry) (c : invocation) : Prop :=
  exists name opts mem,
    before !! inv_entry c = Some (name, opts, mem)
    /\ match mem with
       | Some l =>
           exists older,
             inv_store c = older ++ replicate (length l) RtMemory_new
             /\ after !! inv_entry c
                = Some (name, opts, Some (seq (length older) (length l)))
             /\ inv_memory c = match name with
                               | Name _ => Some (seq (length older) (length l))
                               | Function _ _ => None
                               end
       | None => inv_memory c = None /\ after !! inv_entry c = Some (name, opts, None)
       end.

(** The buffer with its start time shifted to [t0]. *)
Definition shifted (rt : RtTrace) (t0 : Q) : RtTrace :=
  set_base rt (set_stats (base rt) (set_starttime (stats (base rt)) t0)).

(** What the merge and the bookkeeping after it leave alone. *)
Record merge_frame (st st' : State) : Prop := mk_merge_frame {
  mf_traces : traces st' = traces st;
  mf_memories : memories st' = memories st;
  mf_stdout : stdout st' = stdout st;
  mf_invocations : invocations st' = invocations st;
  mf_processing : processing (self st') = processing (self st);
  mf_max_length : max_length (self st') = max_length (self st)
}.

(** The state with [have_appended_data] set. *)
Definition seeded_state (st : State) : State :=
  mk_State (set_have_appended_data (self st) true) (traces st) (memories st)
           (stdout st) (invocations st).

(** The ways a call of [append] on a valid packet reference can go. *)
Inductive append_run (signal : signal_module) (p : nat) (strict verbose : bool)
          (st : State) (t : Trace) : Result value -> State -> Prop :=
| run_rejected (e : exn) :
    append_sanity_checks p (with_packet st p (float32_converted t))
    = (inl e, with_packet st p (float32_converted t)) ->
    append_run signal p strict verbose st t (inl e)
               (with_packet st p (float32_converted t))
| run_discontinuous (e : exn) (st1 : State) :
    append_sanity_checks p (with_packet st p (float32_converted t))
    = (inr tt, with_packet st p (float32_converted t)) ->
    append_check_times p strict verbose (with_packet st p (float32_converted t))
    = (inl e, st1) ->
    append_run signal p strict verbose st t (inl e) st1
| run_pipeline_raises (g : option message) (st1 st2 : State) (e : exn) :
    append_sanity_checks p (with_packet st p (float32_converted t))
    = (inr tt, with_packet st p (float32_converted t)) ->
    append_check_times p strict verbose (with_packet st p (float32_converted t))
    = (inr g, st1) ->
    append_process signal p (bool_decide (g ≠ None)) 0 (processing (self st1)) st1
    = (inl e, st2) ->
    append_run signal p strict verbose st t (inl e) st2
| run_merge_raises (g : option message) (st1 st2 st3 : State) (e : exn) :
    append_sanity_checks p (with_packet st p (float32_converted t))
    = (inr tt, with_packet st p (float32_converted t)) ->
    append_check_times p strict verbose (with_packet st p (float32_converted t))
    = (inr g, st1) ->
    append_process signal p (bool_decide (g ≠ None)) 0 (processing (self st1)) st1
    = (inr tt, st2) ->
    append_merge p st2 = (inl e, st3) ->
    append_run signal p strict verbose st t (inl e) st3
| run_returns (g : option message) (st1 st2 st3 : State) :
    append_sanity_checks p (with_packet st p (float32_converted t))
    = (inr tt, with_packet st p (float32_converted t)) ->
    append_check_times p strict verbose (with_packet st p (float32_converted t))
    = (inr g, st1) ->
    append_process signal p (bool_decide (g ≠ None)) 0 (processing (self st1)) st1
    = (inr tt, st2) ->
    append_merge p st2 = (inr tt, st3) ->
    append_run signal p strict verbose st t (inr (Ref_Trace p)) (seeded_state st3).

(** The buffer [a] with the packet [b] added, as [append] stores it. *)
Definition joined (a b : Trace) : Trace :=
  mk_Trace (np.concatenate (data a) (data b))
           (set_npts (stats a) (np.size (np.concatenate (data a) (data b)))).

(** The state with the inherited [Trace] of the accumulator replaced. *)
Definition with_base (st : State) (b : Trace) : State :=
  mk_State (set_base (self st) b) (traces st) (memories st) (stdout st)
           (invocations st).

(** ** Splitting and re-assembling *)

(** Step 4 of the example in the docstring of [RtTrace]:
    [for tr in traces: rt_trace.append(tr, gap_overlap_check=...)], over the
    references of the packets. *)
Fixpoint append_each (signal : signal_module) (packets : list nat)
         (gap_overlap_check verbose : bool) : M unit :=
  match packets with
  | [] => ret tt
  | p :: rest =>
      append signal p gap_overlap_check verbose ;;
      append_each signal rest gap_overlap_check verbose
  end.

(** The header [s'] is the header [s] up to sample count and start time. *)
Definition same_channel (s s' : Stats) : Prop :=
  set_npts (set_starttime s' (starttime s)) (npts s) = s.

(** [part] is the [j]-th run of [len] samples of the series [tr], taken with
    its time. *)
Definition is_part (tr : Trace) (len : nat) (j : nat) (part : Trace) : Prop :=
  arr_values (data part) = take len (drop (j * len) (arr_values (data tr)))
  /\ arr_dtype (data part) = arr_dtype (data tr)
  /\ npts (stats part) = np.size (data part)
  /\ starttime (stats part)
     == starttime (stats tr)
        + inject_Z (Z.of_nat (j * len)) / sampling_rate (stats tr)
  /\ same_channel (stats tr) (stats part).

(** The accumulator [rt] holds the first [k] runs of [len] samples of the
    series [tr], under the header of [tr], and nothing else: no processing,
    no maximum length. *)
Definition assembled (tr : Trace) (len k : nat) (rt : RtTrace) : Prop :=
  have_appended_data rt = true
  /\ processing rt = []
  /\ max_length rt = None
  /\ arr_values (data (base rt)) = take (k * len) (arr_values (data tr))
  /\ arr_dtype (data (base rt)) = arr_dtype (data (float32_converted tr))
  /\ npts (stats (base rt)) = np.size (data (base rt))
  /\ starttime (stats (base rt)) == starttime (stats tr)
  /\ same_channel (stats tr) (stats (base rt)).

(** ** Concrete accumulators and packets *)

Module Cases.

(** A fresh accumulator and one packet of three samples at 1 Hz. *)
Definition first_packet : Trace := Demo.packet 0 1 [1; 2; 3].

Definition fresh : State := Demo.state (Demo.rttrace None) [first_packet].

(** A fresh accumulator that is to keep at most two seconds, the packet of
  three samples at 1 Hz, and the sample that follows it. *)
Definition next_packet : Trace := Demo.packet 3 1 [4].

Definition bounded : State :=
Demo.state (Demo.rttrace (Some 2)) [first_packet; next_packet].

(** A seeded accumulator holding [first_packet], without processing. *)
Definition seeded_with (packets : list Trace) : State :=
mk_State (mk_RtTrace None true [] first_packet) packets [] [] [].

(** The packet that continues [first_packet] without a gap. *)
Definition contiguous_packet : Trace := Demo.packet 3 1 [4; 5].

(** A packet that starts two samples late, and one that starts two early. *)
Definition late_packet : Trace := Demo.packet 5 1 [6; 7].
Definition early_packet : Trace := Demo.packet 1 1 [2; 3].

(** A packet of another channel. *)
Definition foreign_packet : Trace :=
mk_Trace (mk_ndarray np.float64 [4; 5])
         (mk_Stats "BW" "RJOB" "" "EHN" 1 1 2 3 []).

(** A seeded accumulator with two registered processes, one with memory that
  already holds history and one without memory. *)
Definition processing_state (packets : list Trace) : State :=
mk_State (mk_RtTrace None true
            [(Name "integrate", [], Some [0%nat]);
             (Name "scale", [("factor"%string, 2)], None)]
            first_packet)
         packets [mk_RtMemory true [6]] [] [].

(** A seeded accumulator whose only process raises, and a packet that
  arrives a twentieth of a sample late: contiguous, with drift. *)
Definition drifting_packet : Trace := Demo.packet (61 # 20) 1 [4; 5].

Definition drifting : State :=
mk_State (mk_RtTrace None true [(Name "differentiate", [], Some [0%nat])]
                     first_packet)
         [drifting_packet] [RtMemory_new] [] [].

(** A series of seven samples at 100 Hz, and what [_splitTrace] makes of it
  for three parts. *)
Definition series : Trace := Demo.packet 0 100 [1; 2; 3; 4; 5; 6; 7].

Definition series_parts : list Trace :=
match _splitTrace series 3 with
| inr parts => parts
| inl _ => []
end.

End Cases.

(** ** The accumulator over its life *)

(** The keys of [REALTIME_PROCESS_FUNCTIONS]. *)
Definition process_names (signal : signal_module) : list string :=
  List.map fst (REALTIME_PROCESS_FUNCTIONS signal).

(** An entry as [registerRtProcess] makes it: a function, kept as it is and
    without memory, or a key of the table with as many memory references as
    the table declares for it ([None] when it declares none). *)
Definition registered (signal : signal_module) (e : entry) : Prop :=
  match e with
  | (Function _ _, _, mem) => mem = None
  | (Name key, _, mem) =>
      Py.lower key = key
      /\ exists func num,
          lookup_function signal key = Some (func, num)
          /\ length <$> mem = if (num =? 0)%nat then None else Some num
  end.

(** The entry [e'] is the entry [e] up to the [RtMemory] objects it refers
    to: the same process, the same options, as many references. *)
Definition same_entry (e e' : entry) : Prop :=
  fst e = fst e' /\ length <$> snd e = length <$> snd e'.

(** The invocation [c] was made for an entry of [registry], with the memory
    references held there (none for a function). *)
Definition called_from (registry : list entry) (c : invocation) : Prop :=
  exists name opts mem,
    registry !! inv_entry c = Some (name, opts, mem)
    /\ inv_memory c = match name with Name _ => mem | Function _ _ => None end.

(** The invocation [c] is the call of an entry of [registry], made on a
    packet with the header [s]: what it returned is what the function of
    that entry returns for the array it received, with the options of the
    entry and, for a predefined function, the memory it was given. *)
Definition performed (signal : signal_module) (registry : list entry) (s : Stats)
           (c : invocation) : Prop :=
  exists name opts mem,
    registry !! inv_entry c = Some (name, opts, mem)
    /\ match name with
       | Function _ call => inv_output c = call (inv_input c) opts
       | Name key =>
           exists func num,
             lookup_function signal (Py.lower key) = Some (func, num)
             /\ inv_output c
                = fst (func (mk_Trace (inv_input c) s) (inv_memory c) opts
                            (inv_store c))
       end.

(** The state with standard output replaced. *)
Definition with_stdout (st : State) (out : list line) : State :=
  mk_State (self st) (traces st) (memories st) out (invocations st).

(** The lines [append] prints whether [verbose] is set or not: the warning
    for a gap or overlap that is not raised. *)
Definition is_warning (l : line) : bool :=
  match l with
  | Line_warning _ | Line_reinit => true
  | Line_check _ _ _ _ _ | Line_adjusted _ => false
  end.

(** A computation that neither reads nor writes standard output. *)
Definition silent {A} (c : M A) : Prop :=
  forall st out, c (with_stdout st out) = (fst (c st), with_stdout (snd (c st)) out).

(** The state after a successful registration. *)
Definition registered_state (st : State) (e : entry) (name : string)
           (opts : options) (store : list RtMemory) : State :=
  mk_State
    (mk_RtTrace (max_length (self st)) (have_appended_data (self st))
                (processing (self st) ++ [e])
                (set_stats (base (self st))
                   (add_processing_info (stats (base (self st))) (name, opts))))
    (traces st) store (stdout st) (invocations st).

(** The states a program can bring an accumulator to: it constructs the
    object, then registers processes and appends packets in any order, with
    any arguments, going on after an exception or not; the packets are the
    caller's own objects, which it creates and changes as it likes. *)
Inductive reachable (signal : signal_module) : State -> Prop :=
| reach_constructed (max_length : option Q) (rt : RtTrace) (packets : list Trace) :
    RtTrace___init__ max_length = inr rt ->
    reachable signal (mk_State rt packets [] [] [])
| reach_registered (st st' : State) (process : process) (options : options)
                   (r : Result value) :
    reachable signal st ->
    registerRtProcess signal process options st = (r, st') ->
    reachable signal st'
| reach_appended (st st' : State) (trace : nat) (gap_overlap_check verbose : bool)
                 (r : Result value) :
    reachable signal st ->
    append signal trace gap_overlap_check verbose st = (r, st') ->
    reachable signal st'
| reach_packets (st : State) (packets : list Trace) :
    reachable signal st ->
    reachable signal (mk_State (self st) packets (memories st) (stdout st)
                               (invocations st)).

(** ** The retained window *)

(** The last [n] samples of an array, all of them if it has no more. *)
Definition most_recent (n : Z) (samples : list Q) : list Q :=
  drop (Z.to_nat (Z.of_nat (length samples) - n)) samples.

(** What the accumulator [rt] retains of the samples it would hold without
    a maximum length: the last [int(max_length * sampling_rate + 0.5)]. *)
Definition retained (rt : RtTrace) (samples : list Q) : list Q :=
  match max_length rt with
  | Some max_length =>
      most_recent (Py.int (max_length * sampling_rate (stats (base rt)) + (1 # 2)))
                  samples
  | None => samples
  end.

(** The accumulator [rt], which is to keep [m] seconds, has been given the
    first [k] runs of [len] samples of the series [tr], under the header of
    [tr], and nothing else: it holds the first run as it came, and from the
    second on the most recent samples of all it was given; it ends where the
    runs end. *)
Definition windowed (tr : Trace) (m : Q) (len k : nat) (rt : RtTrace) : Prop :=
  have_appended_data rt = true
  /\ processing rt = []
  /\ max_length rt = Some m
  /\ arr_values (data (base rt))
     = (if (k =? 1)%nat then take (k * len) (arr_values (data tr))
        else most_recent (Py.int (m * sampling_rate (stats tr) + (1 # 2)))
                         (take (k * len) (arr_values (data tr))))
  /\ arr_dtype (data (base rt)) = arr_dtype (data (float32_converted tr))
  /\ npts (stats (base rt)) = np.size (data (base rt))
  /\ endtime (stats (base rt))
     == starttime (stats tr)
        + inject_Z (Z.of_nat (length (take (k * len) (arr_values (data tr)))) - 1)
          / sampling_rate (stats tr)
  /\ same_channel (stats tr) (stats (base rt)).

(** ** The sizes of the parts of a split *)

(** The number of samples [_splitTrace] cuts for each part, [packet_length + 1]:
    the quotient [total_length // num] when there is no rest, one more when
    there is. *)
Definition part_length (total_length num : Z) : Z :=
  if (total_length mod num =? 0)%Z then (total_length / num)%Z
  else (total_length / num + 1)%Z.

(** ** An accumulator in use *)

Module Scenes.

(** An accumulator that is to keep two seconds, on which ["Int"] is
    registered with an option, and then seeded with the first packet. *)
Definition registered : State :=
  snd (registerRtProcess Demo.signal (Name "Int") [("width"%string, 3)]
                         Cases.bounded).

Definition seeded : State := snd (append Demo.signal 0 true false registered).

(** A fresh accumulator that is to keep four samples at 100 Hz, with the
    parts of the series of seven samples for packets. *)
Definition windowing : State :=
  Demo.state (Demo.rttrace (Some (1 # 25))) Cases.series_parts.

End Scenes.

(** * Instrument correction (obspy.signal, invsim.py)

    [cosTaper], [detrend] and the checks that [seisSim] makes on its
    arguments.  Floats are exact rationals here too; [np.cos] and [np.pi]
    are what numpy provides, a function on floats and a float. *)

Inductive invsim_error :=
| IndexError
| ValueError_negative_dimensions
| TypeError_neither_specified
| TypeError_expected_dictionary (type : string)
| KeyError_missing_key (key : string).

Module numpy.

(** [np.arange(n)], as floats. *)
Definition arange (n : Z) : list Q :=
  List.map (fun i => inject_Z (Z.of_nat i)) (seq 0 (Z.to_nat n)).

(** [np.linspace(start, stop, num)]: no sample for [num <= 0], [start] alone
    for [num == 1], otherwise [arange(0, num) * step + start] with
    [step = (stop - start) / (num - 1)] and the last sample set to [stop]. *)
Definition linspace (start stop : Q) (num : Z) : list Q :=
  if (num <=? 0)%Z then []
  else if (num =? 1)%Z then [start]
  else
    let step := (stop - start) / inject_Z (num - 1) in
    let y := List.map (fun i => i * step + start) (arange num) in
    take (Z.to_nat (num - 1)) y ++ [stop].

(** [np.ones(n)]; a negative [n] raises [ValueError]. *)
Definition ones (n : Z) : invsim_error + list Q :=
  if (n <? 0)%Z then inl ValueError_negative_dimensions
  else inr (replicate (Z.to_nat n) 1).

End numpy.

Section Taper.

Variable cos : Q -> Q.
Variable pi : Q.

(** The number of samples tapered at each end, [frac] in [cosTaper]. *)
Definition cosTaper_frac (npts : Z) (p : Q) : Z :=
  if Qeq_bool p 0 || Qeq_bool p 1
  then Py.int (inject_Z npts * p / 2)
  else (Py.int (inject_Z npts * p / 2) + 1)%Z.

(** [cosTaper(npts, p=0.1)]. *)
Definition cosTaper (npts : Z) (p : Q) : invsim_error + list Q :=
  let frac := cosTaper_frac npts p in
  (* return concatenated beginning, middle and end *)
  let beginning :=
    List.map (fun x => (1 # 2) * (1 + cos x)) (numpy.linspace pi (2 * pi) frac) in
  match numpy.ones (npts - 2 * frac) with
  | inl e => inl e
  | inr middle =>
      let ending :=
        List.map (fun x => (1 # 2) * (1 + cos x)) (numpy.linspace 0 pi frac) in
      inr (beginning ++ middle ++ ending)
  end.

End Taper.

(** Stand-ins for [np.pi] and [np.cos], for running [cosTaper]: a rational
    near pi, and a function with the values of the cosine at [0] and there. *)
Module Standin.

Definition pi : Q := 355 # 113.

Definition cos (x : Q) : Q :=
  if Qeq_bool x pi then - (1) else if Qeq_bool x 0 then 1 else 0.

End Standin.

(** What a call of [detrend] makes of the array it is given: the array is
    changed in place; with a single sample the line is [0 / 0.0] and the
    sample becomes [nan]; an empty array has no first sample. *)
Inductive detrend_outcome :=
| Detrended (trace : list Q)
| Detrended_to_nan
| Detrend_raises (e : invsim_error).

(** [detrend(trace)]. *)
Definition detrend (trace : list Q) : detrend_outcome :=
  let ndat := length trace in
  match trace !! 0%nat, last trace with
  | Some x1, Some x2 =>
      if (ndat =? 1)%nat then Detrended_to_nan
      else
        Detrended
          (imap (fun i x =>
                   x - (x1 + inject_Z (Z.of_nat i) * (x2 - x1)
                             / inject_Z (Z.of_nat ndat - 1)))
                trace)
  | _, _ => Detrend_raises IndexError
  end.

(** The array with the line [a + b * i] added to its samples. *)
Definition plus_line (a b : Q) (trace : list Q) : list Q :=
  imap (fun i x => x + (a + b * inject_Z (Z.of_nat i))) trace.

(** ** The arguments of [seisSim] *)

(** Python objects, as far as [seisSim] looks at its arguments before it
    computes: [None], booleans, integers, dictionaries (of which only the
    keys are looked at) and any other object, which has a type and a truth
    value and does not compare equal to [True]. *)
Inductive object :=
| None_
| Bool (b : bool)
| Integer (n : Z)
| Dict (keys : list string)
| Other (type : string) (truth : bool).

(** The truth value of an object, as [if], [and], [or] and [not] take it. *)
Definition truth_of (o : object) : bool :=
  match o with
  | None_ => false
  | Bool b => b
  | Integer n => negb (n =? 0)%Z
  | Dict keys => negb (bool_decide (keys = []))
  | Other _ t => t
  end.

(** [o == True]. *)
Definition equals_True (o : object) : bool :=
  match o with
  | Bool b => b
  | Integer n => (n =? 1)%Z
  | _ => false
  end.

(** ["%s" % type(o)]. *)
Definition type_of (o : object) : string :=
  match o with
  | None_ => "<type 'NoneType'>"
  | Bool _ => "<type 'bool'>"
  | Integer _ => "<type 'int'>"
  | Dict _ => "<type 'dict'>"
  | Other t _ => t
  end.

(** [kwargs[key]], [None] if the key is missing. *)
Definition kwargs_get (kwargs : list (string * object)) (key : string)
  : option object :=
  snd <$> List.find (fun kv => String.eqb (fst kv) key) kwargs.

Inductive DeprecationWarning :=
| Use_paz_remove_instead_of_paz
| Use_paz_simulate_instead_of_inst_sim
| Use_paz_remove_instead_no_inverse_filtering
| Sensitivity_default_will_change.

(** The arguments of [seisSim] that its checks look at. *)
Record seisSim_arguments := mk_seisSim_arguments {
  paz_remove : object;
  paz_simulate : object;
  remove_sensitivity : bool;
  simulate_sensitivity : bool;
  kwargs : list (string * object)
}.

(** Lines 227-239 of [seisSim]: stay compatible with the old version.  The
    result is [paz_remove] and [paz_simulate] as the function goes on with
    them, and the warnings issued. *)
Definition seisSim_compatible (a : seisSim_arguments)
  : object * object * list DeprecationWarning :=
  let '(paz_remove, w1) :=
    match kwargs_get (kwargs a) "paz" with
    | Some v => (v, [Use_paz_remove_instead_of_paz])
    | None => (paz_remove a, [])
    end in
  let '(paz_simulate, w2) :=
    match kwargs_get (kwargs a) "inst_sim" with
    | Some v => (v, [Use_paz_simulate_instead_of_inst_sim])
    | None => (paz_simulate a, [])
    end in
  let '(paz_remove, w3) :=
    match kwargs_get (kwargs a) "no_inverse_filtering" with
    | Some v => (if equals_True v then None_ else paz_remove,
                 [Use_paz_remove_instead_no_inverse_filtering])
    | None => (paz_remove, [])
    end in
  (paz_remove, paz_simulate, w1 ++ w2 ++ w3).

(** Lines 252-259 of [seisSim], for one of the two dictionaries: the body of
    [for d in [paz_remove, paz_simulate]]. *)
Definition seisSim_check_dictionary (d : object) : invsim_error + unit :=
  match d with
  | None_ => inr tt
  | Dict keys =>
      match List.find (fun key => negb (bool_decide (key ∈ keys)))
                      ["poles"; "zeros"; "gain"]%string with
      | Some key => inl (KeyError_missing_key key)
      | None => inr tt
      end
  | _ => inl (TypeError_expected_dictionary (type_of d))
  end.

(** Lines 225-259 of [seisSim]: everything before the computation.  The
    result is the warnings issued and either the exception raised or
    [paz_remove] and [paz_simulate] as the computation takes them. *)
Definition seisSim_checks (a : seisSim_arguments)
  : list DeprecationWarning * (invsim_error + object * object) :=
  let '(paz_remove, paz_simulate, w) := seisSim_compatible a in
  let w :=
    if truth_of paz_remove && negb (remove_sensitivity a)
       || truth_of paz_simulate && negb (simulate_sensitivity a)
    then w ++ [Sensitivity_default_will_change] else w in
  (* Checking the types *)
  if negb (truth_of paz_remove) && negb (truth_of paz_simulate)
  then (w, inl TypeError_neither_specified)
  else
    match seisSim_check_dictionary paz_remove with
    | inl e => (w, inl e)
    | inr _ =>
        match seisSim_check_dictionary paz_simulate with
        | inl e => (w, inl e)
        | inr _ => (w, inr (paz_remove, paz_simulate))
        end
    end.

(** A dictionary the computation of [seisSim] can use: it holds the poles,
    the zeros and the gain. *)
Definition usable (d : object) : Prop :=
  exists keys,
    d = Dict keys
    /\ "poles"%string ∈ keys /\ "zeros"%string ∈ keys /\ "gain"%string ∈ keys.

(** * Properties

    ** Numbers, packets and the first steps of [append] *)

Lemma Py_lt_true (a b : Q) : Py.lt a b = true <-> a < b.
Proof.
  unfold Py.lt. rewrite negb_true_iff. split.
  - intros H. apply Qnot_le_lt. intros Hle. apply Qle_bool_iff in Hle. congruence.
  - intros H. destruct (Qle_bool b a) eqn:E; [|reflexivity].
    apply Qle_bool_iff in E. exfalso. apply (Qlt_not_le _ _ H E).
Qed.

Lemma Py_lt_false (a b : Q) : Py.lt a b = false <-> b <= a.
Proof.
  unfold Py.lt. rewrite negb_false_iff. apply Qle_bool_iff.
Qed.

Lemma Py_ne_false (a b : Q) : Py.ne a b = false <-> a == b.
Proof. unfold Py.ne. rewrite negb_false_iff. apply Qeq_bool_iff. Qed.

Lemma Py_ne_true (a b : Q) : Py.ne a b = true <-> ~ a == b.
Proof.
  unfold Py.ne. rewrite negb_true_iff. split.
  - intros H. apply Qeq_bool_neq. exact H.
  - intros H. destruct (Qeq_bool a b) eqn:E; [|reflexivity].
    apply Qeq_bool_iff in E. contradiction.
Qed.

Lemma truediv_run (a b : Q) (st : State) :
  ~ b == 0 -> truediv a b st = (inr (a / b), st).
Proof.
  intros H. unfold truediv.
  destruct (Qeq_bool b 0) eqn:E; [|reflexivity].
  apply Qeq_bool_iff in E. contradiction.
Qed.

Lemma with_packet_same (st : State) (p : nat) (t : Trace) :
  traces st !! p = Some t -> with_packet st p t = st.
Proof.
  intros H. destruct st as [rt tr mem out inv]. unfold with_packet. simpl in *.
  by rewrite list_insert_id.
Qed.

Lemma with_packet_lookup (st : State) (p : nat) (t t' : Trace) :
  traces st !! p = Some t -> traces (with_packet st p t') !! p = Some t'.
Proof.
  intros H. unfold with_packet. simpl.
  apply list_lookup_insert_eq. by eapply lookup_lt_Some.
Qed.

Lemma append_convert_run (st : State) (p : nat) (t : Trace) :
  traces st !! p = Some t ->
  append_convert p st = (inr tt, with_packet st p (float32_converted t)).
Proof.
  intros H. unfold append_convert, bind, read_trace, float32_converted. rewrite H.
  destruct (is_f4 (arr_dtype (data t))).
  - unfold assign_data, bind, read_trace. rewrite H. reflexivity.
  - unfold ret. by rewrite with_packet_same.
Qed.

Lemma append_sanity_checks_unseeded (st : State) (p : nat) :
  have_appended_data (self st) = false ->
  append_sanity_checks p st = (inr tt, st).
Proof.
  intros H. unfold append_sanity_checks, bind, get_self. by rewrite H.
Qed.

Lemma append_sanity_checks_pass (st : State) (p : nat) (t : Trace) :
  traces st !! p = Some t ->
  getId (base (self st)) = getId t ->
  sampling_rate (stats (base (self st))) == sampling_rate (stats t) ->
  calib (stats (base (self st))) == calib (stats t) ->
  arr_dtype (data (base (self st))) = arr_dtype (data t) ->
  append_sanity_checks p st = (inr tt, st).
Proof.
  intros Ht Hid Hsr Hcal Hdt.
  unfold append_sanity_checks, bind, get_self, read_trace.
  destruct (have_appended_data (self st)); [|reflexivity].
  rewrite Ht. rewrite decide_True by done.
  apply Py_ne_false in Hsr, Hcal. rewrite Hsr, Hcal.
  rewrite decide_True by done. reflexivity.
Qed.

(** Whatever the sanity checks decide, they change nothing. *)
Lemma append_sanity_checks_state (st st' : State) (p : nat) (r : Result unit) :
  append_sanity_checks p st = (r, st') -> st' = st.
Proof.
  unfold append_sanity_checks, bind, get_self, read_trace, ret, raise.
  repeat (case_match; simplify_eq/=); congruence.
Qed.

Lemma with_output_nil (st : State) : with_output st [] = st.
Proof. destruct st. unfold with_output. simpl. by rewrite app_nil_r. Qed.

Lemma with_output_app (st : State) (l1 l2 : list line) :
  with_output (with_output st l1) l2 = with_output st (l1 ++ l2).
Proof. unfold with_output. simpl. by rewrite app_assoc. Qed.

Lemma append_check_times_unseeded (st : State) (p : nat) (strict verbose : bool) :
  have_appended_data (self st) = false ->
  append_check_times p strict verbose st = (inr None, st).
Proof. intros H. unfold append_check_times, bind, get_self. by rewrite H. Qed.

Section CheckTimes.

Variables (st : State) (p : nat) (t : Trace).
Hypothesis seeded : have_appended_data (self st) = true.
Hypothesis packet : traces st !! p = Some t.
Hypothesis rate : ~ sampling_rate (stats (base (self st))) == 0.

Local Abbreviation rt := (self st).

Lemma verbose_prefix {A} (verbose : bool) (k : M A) :
  ((if verbose then
      dt <- truediv 1 (sampling_rate (stats (base rt))) ;;
      print (Line_check (delta_of rt t) (endtime (stats (base rt)))
               (starttime (stats t)) (diff_of rt t) dt)
    else ret tt) ;; k) st
  = k (with_output st (when verbose [check_line rt t])).
Proof using rate.
  unfold bind. destruct verbose; simpl.
  - rewrite truediv_run by exact rate. reflexivity.
  - by rewrite with_output_nil.
Qed.

Lemma append_check_times_overlap_strict (verbose : bool) :
  delta_of rt t < - (1 # 10) ->
  append_check_times p true verbose st
  = (inl (TypeError_continuity (Msg_overlap (report_of (- delta_of rt t) rt t))),
     with_output st (when verbose [check_line rt t])).
Proof using seeded packet rate.
  intros Hd. unfold append_check_times.
  unfold bind at 1. unfold get_self at 1. rewrite seeded.
  unfold bind at 1. unfold read_trace at 1. rewrite packet.
  fold (diff_of rt t). fold (delta_of rt t).
  rewrite verbose_prefix.
  apply Py_lt_true in Hd. rewrite Hd.
  unfold bind. rewrite truediv_run by exact rate. reflexivity.
Qed.

Lemma append_check_times_overlap_lenient (verbose : bool) :
  delta_of rt t < - (1 # 10) ->
  append_check_times p false verbose st
  = (inr (Some (Msg_overlap (report_of (- delta_of rt t) rt t))),
     with_output st
       (when verbose [check_line rt t]
        ++ [Line_warning (Msg_overlap (report_of (- delta_of rt t) rt t));
            Line_reinit])).
Proof using seeded packet rate.
  intros Hd. unfold append_check_times.
  unfold bind at 1. unfold get_self at 1. rewrite seeded.
  unfold bind at 1. unfold read_trace at 1. rewrite packet.
  fold (diff_of rt t). fold (delta_of rt t).
  rewrite verbose_prefix.
  assert (Hg : Py.gt (delta_of rt t) (1 # 10) = false).
  { apply Py_lt_false. apply Qlt_le_weak. eapply Qlt_trans; [exact Hd|reflexivity]. }
  apply Py_lt_true in Hd. rewrite Hd, Hg.
  unfold bind. rewrite truediv_run by exact rate.
  unfold ret, print. simpl. unfold with_output. simpl.
  by rewrite <- !app_assoc.
Qed.

Lemma append_check_times_gap_strict (verbose : bool) :
  1 # 10 < delta_of rt t ->
  append_check_times p true verbose st
  = (inl (TypeError_continuity (Msg_gap (report_of (delta_of rt t) rt t))),
     with_output st (when verbose [check_line rt t])).
Proof using seeded packet rate.
  intros Hd. unfold append_check_times.
  unfold bind at 1. unfold get_self at 1. rewrite seeded.
  unfold bind at 1. unfold read_trace at 1. rewrite packet.
  fold (diff_of rt t). fold (delta_of rt t).
  rewrite verbose_prefix.
  assert (Ho : Py.lt (delta_of rt t) (- (1 # 10)) = false).
  { apply Py_lt_false. apply Qlt_le_weak. eapply Qlt_trans; [|exact Hd]. reflexivity. }
  apply Py_lt_true in Hd. unfold Py.gt. rewrite Hd, Ho.
  unfold bind, ret. rewrite truediv_run by exact rate. reflexivity.
Qed.

Lemma append_check_times_gap_lenient (verbose : bool) :
  1 # 10 < delta_of rt t ->
  append_check_times p false verbose st
  = (inr (Some (Msg_gap (report_of (delta_of rt t) rt t))),
     with_output st
       (when verbose [check_line rt t]
        ++ [Line_warning (Msg_gap (report_of (delta_of rt t) rt t));
            Line_reinit])).
Proof using seeded packet rate.
  intros Hd. unfold append_check_times.
  unfold bind at 1. unfold get_self at 1. rewrite seeded.
  unfold bind at 1. unfold read_trace at 1. rewrite packet.
  fold (diff_of rt t). fold (delta_of rt t).
  rewrite verbose_prefix.
  assert (Ho : Py.lt (delta_of rt t) (- (1 # 10)) = false).
  { apply Py_lt_false. apply Qlt_le_weak. eapply Qlt_trans; [|exact Hd]. reflexivity. }
  apply Py_lt_true in Hd. unfold Py.gt. rewrite Hd, Ho.
  unfold bind, ret. rewrite truediv_run by exact rate.
  unfold print. simpl. unfold with_output. simpl.
  by rewrite <- !app_assoc.
Qed.

Lemma append_check_times_contiguous (strict verbose : bool) :
  - (1 # 10) <= delta_of rt t -> delta_of rt t <= 1 # 10 ->
  append_check_times p strict verbose st
  = (inr None,
     with_output
       (with_starttime st
          (starttime (stats (base rt)) + diff_of rt t
           - 1 / sampling_rate (stats (base rt))))
       (when verbose
          [check_line rt t;
           Line_adjusted (diff_of rt t - 1 / sampling_rate (stats (base rt)))])).
Proof using seeded packet rate.
  intros Hlo Hhi. unfold append_check_times.
  unfold bind at 1. unfold get_self at 1. rewrite seeded.
  unfold bind at 1. unfold read_trace at 1. rewrite packet.
  fold (diff_of rt t). fold (delta_of rt t).
  rewrite verbose_prefix.
  apply Py_lt_false in Hlo, Hhi. unfold Py.gt. rewrite Hlo, Hhi.
  unfold bind, ret. rewrite truediv_run by exact rate.
  unfold put_self, with_output, with_starttime. simpl.
  destruct verbose; simpl.
  - rewrite truediv_run by exact rate. unfold print. simpl.
    by rewrite <- !app_assoc.
  - by rewrite !app_nil_r.
Qed.

End CheckTimes.

Lemma pipeline_frame_refl (p : nat) (st : State) : pipeline_frame p st st.
Proof.
  split; try reflexivity.
  - intros t Ht. exists (data t). rewrite Ht. by destruct t.
  - exists []. by rewrite app_nil_r.
Qed.

Lemma pipeline_frame_trans (p : nat) (s1 s2 s3 : State) :
  pipeline_frame p s1 s2 -> pipeline_frame p s2 s3 -> pipeline_frame p s1 s3.
Proof.
  intros [Hb1 Hm1 Hs1 Ho1 He1 Hq1 Hp1 Hh1 Hi1] [Hb2 Hm2 Hs2 Ho2 He2 Hq2 Hp2 Hh2 Hi2].
  split; try congruence.
  - intros q Hq. rewrite Hq2 by done. by apply Hq1.
  - intros t Ht. destruct (Hh1 t Ht) as [a Ha].
    destruct (Hh2 _ Ha) as [b Hb]. exists b. exact Hb.
  - destruct Hi1 as [n1 H1]. destruct Hi2 as [n2 H2].
    exists (n1 ++ n2). rewrite H2, H1. by rewrite app_assoc.
Qed.

Lemma clear_memory_run (ns l : list nat) (st : State) :
  exists l',
    clear_memory ns l st
    = (inr l', mk_State (self st) (traces st)
                        (memories st ++ replicate (length ns) RtMemory_new)
                        (stdout st) (invocations st))
    /\ length l' = length l.
Proof.
  revert l st. induction ns as [|n ns IH]; intros l st.
  - exists l. simpl. unfold ret. destruct st; simpl. by rewrite app_nil_r.
  - simpl. unfold bind, new_RtMemory.
    destruct (IH (<[n := length (memories st)]> l)
                 (mk_State (self st) (traces st) (memories st ++ [RtMemory_new])
                           (stdout st) (invocations st))) as (l' & Hrun & Hlen).
    exists l'. rewrite Hrun. simpl. rewrite <- app_assoc. simpl.
    split; [reflexivity|]. by rewrite Hlen, length_insert.
Qed.

Lemma assign_data_run (st : State) (p : nat) (t : Trace) (a : ndarray) :
  traces st !! p = Some t ->
  assign_data p a st = (inr tt, with_packet st p (set_data t a)).
Proof. intros H. unfold assign_data, bind, read_trace. by rewrite H. Qed.

Lemma with_packet_frame (st : State) (p : nat) (t : Trace) (a : ndarray) :
  traces st !! p = Some t -> pipeline_frame p st (with_packet st p (set_data t a)).
Proof.
  intros H. split; simpl; try reflexivity.
  - intros q Hq. by apply list_lookup_insert_ne.
  - apply length_insert.
  - intros t' Ht'. exists a. simplify_eq.
    apply list_lookup_insert_eq. by eapply lookup_lt_Some.
  - exists []. by rewrite app_nil_r.
Qed.

Section Pipeline.

Variable signal : signal_module.

Lemma clear_memory_seq (m k : nat) (l : list nat) (st : State) :
  (k + m = length l)%nat ->
  clear_memory (seq k m) l st
  = (inr (take k l ++ seq (length (memories st)) m),
     mk_State (self st) (traces st)
              (memories st ++ replicate m RtMemory_new)
              (stdout st) (invocations st)).
Proof.
  revert k l st. induction m as [|m IH]; intros k l st Hlen.
  - simpl. unfold ret. destruct st; simpl. rewrite !app_nil_r.
    by rewrite take_ge by lia.
  - simpl. unfold bind, new_RtMemory.
    rewrite IH by (rewrite length_insert; lia). simpl.
    rewrite length_app. simpl. rewrite <- app_assoc. simpl.
    rewrite (take_S_r _ k (length (memories st)))
      by (apply list_lookup_insert_eq; lia).
    rewrite take_insert_ge by lia. rewrite <- app_assoc. simpl.
    by replace (length (memories st) + 1)%nat with (S (length (memories st))) by lia.
Qed.

Lemma append_clear_gap (i : nat) (name : process) (opts : options)
      (l : list nat) (st : State) :
  append_clear true i (name, opts, Some l) st
  = (inr (Some (seq (length (memories st)) (length l))), cleared st i name opts l).
Proof.
  unfold append_clear, bind.
  rewrite clear_memory_seq by lia. simpl. reflexivity.
Qed.

Lemma append_clear_keep (gap : bool) (i : nat) (name : process) (opts : options)
      (mem : option (list nat)) (st : State) :
  gap = false \/ mem = None ->
  append_clear gap i (name, opts, mem) st = (inr mem, st).
Proof.
  intros [-> | ->]; unfold append_clear; [by destruct mem|reflexivity].
Qed.

Lemma cleared_frame (p i : nat) (name : process) (opts : options) (l : list nat)
      (st : State) :
  pipeline_frame p st (cleared st i name opts l).
Proof.
  split; simpl; try reflexivity.
  - apply length_insert.
  - intros t Ht. exists (data t). rewrite Ht. by destruct t.
  - exists []. by rewrite app_nil_r.
Qed.

Lemma append_clear_frame (p : nat) (gap : bool) (i : nat) (proc : entry)
      (st st' : State) (r : Result (option (list nat))) :
  append_clear gap i proc st = (r, st') -> pipeline_frame p st st'.
Proof.
  destruct proc as [[name opts] [l|]]; [destruct gap|].
  - rewrite append_clear_gap. intros; simplify_eq. apply cleared_frame.
  - rewrite append_clear_keep by auto. intros; simplify_eq. apply pipeline_frame_refl.
  - rewrite append_clear_keep by auto. intros; simplify_eq. apply pipeline_frame_refl.
Qed.

Lemma append_call_outcome (p i : nat) (name : process) (opts : options)
      (mem : option (list nat)) (t : Trace) (st : State) :
  traces st !! p = Some t ->
  call_outcome p i name mem t st
    (fst (append_call signal p i name opts mem st))
    (snd (append_call signal p i name opts mem st)).
Proof.
  intros Ht. unfold append_call, bind, read_trace, get_memories. rewrite Ht.
  destruct name as [nm call|nm].
  - unfold record. simpl. destruct (call (data t) opts) as [e|a] eqn:E.
    + unfold raise. simpl. by eapply call_raises.
    + rewrite (assign_data_run _ _ t) by done. unfold with_packet. simpl.
      by eapply call_returns.
  - destruct (lookup_function signal (Py.lower nm)) as [[func k]|].
    + destruct (func t mem opts (memories st)) as [out store'] eqn:E.
      unfold record, put_memories. simpl. destruct out as [e|a].
      * unfold raise. simpl. by eapply call_raises.
      * rewrite (assign_data_run _ _ t) by done. unfold with_packet. simpl.
        by eapply call_returns.
    + unfold raise. simpl. apply call_unknown.
Qed.

Lemma call_outcome_frame (p i : nat) (name : process) (mem : option (list nat))
      (t : Trace) (st st' : State) (r : Result unit) :
  traces st !! p = Some t ->
  call_outcome p i name mem t st r st' -> pipeline_frame p st st'.
Proof.
  intros Ht H. destruct H.
  - destruct (with_packet_frame st p t a Ht). split; simpl in *; try done.
    by eexists.
  - split; simpl; try reflexivity.
    + intros t' Ht'. exists (data t'). rewrite Ht'. by destruct t'.
    + by eexists.
  - apply pipeline_frame_refl.
Qed.

Lemma append_call_frame (p i : nat) (name : process) (opts : options)
      (mem : option (list nat)) (st st' : State) (r : Result unit) :
  append_call signal p i name opts mem st = (r, st') -> pipeline_frame p st st'.
Proof.
  intros H. destruct (traces st !! p) as [t|] eqn:Ht.
  - pose proof (append_call_outcome p i name opts mem t st Ht) as Ho.
    rewrite H in Ho. simpl in Ho. by eapply call_outcome_frame.
  - unfold append_call, bind, read_trace in H. rewrite Ht in H.
    simplify_eq. apply pipeline_frame_refl.
Qed.

Lemma append_apply_frame (p : nat) (gap : bool) (i : nat) (proc : entry)
      (st st' : State) (r : Result unit) :
  append_apply signal p gap i proc st = (r, st') -> pipeline_frame p st st'.
Proof.
  unfold append_apply, bind. intros H.
  destruct (append_clear gap i proc st) as [[e|mem] st1] eqn:E.
  - simplify_eq. by eapply append_clear_frame.
  - eapply pipeline_frame_trans; [by eapply append_clear_frame|].
    by eapply append_call_frame.
Qed.

Lemma append_process_frame (p : nat) (gap : bool) (procs : list entry) (i : nat)
      (st st' : State) (r : Result unit) :
  append_process signal p gap i procs st = (r, st') -> pipeline_frame p st st'.
Proof.
  revert i st. induction procs as [|proc rest IH]; intros i st H.
  - simpl in H. unfold ret in H. simplify_eq. apply pipeline_frame_refl.
  - simpl in H. unfold bind in H.
    destruct (append_apply signal p gap i proc st) as [[e|[]] st1] eqn:E.
    + simplify_eq. eapply append_apply_frame; exact E.
    + eapply pipeline_frame_trans; [eapply append_apply_frame; exact E|].
      eapply IH; exact H.
Qed.

End Pipeline.

Lemma np_array_id (a : ndarray) : np.array a = a.
Proof. by destruct a. Qed.

Lemma stats_float32_converted (t : Trace) : stats (float32_converted t) = stats t.
Proof. unfold float32_converted. by destruct (is_f4 _). Qed.

Lemma values_float32_converted (t : Trace) :
  arr_values (data (float32_converted t)) = arr_values (data t).
Proof. unfold float32_converted. by destruct (is_f4 _). Qed.

Lemma getId_float32_converted (t : Trace) : getId (float32_converted t) = getId t.
Proof. unfold getId. by rewrite stats_float32_converted. Qed.

Section Append.

Variable signal : signal_module.

Lemma append_phases (p : nat) (strict verbose : bool) :
  append signal p strict verbose
  = (append_convert p ;;
     append_sanity_checks p ;;
     gap_or_overlap <- append_check_times p strict verbose ;;
     append_from_pipeline signal p (bool_decide (gap_or_overlap ≠ None))).
Proof. reflexivity. Qed.

(** The start of [append] up to the classification, on a packet that
    passes the sanity checks. *)
Lemma append_checked (p : nat) (strict verbose : bool) (st : State) (t : Trace) :
  traces st !! p = Some t ->
  (have_appended_data (self st) = true -> headers_match (self st) t) ->
  append signal p strict verbose st
  = (gap_or_overlap <- append_check_times p strict verbose ;;
     append_from_pipeline signal p (bool_decide (gap_or_overlap ≠ None)))
      (with_packet st p (float32_converted t)).
Proof.
  intros Ht Hm. rewrite append_phases. unfold bind at 1.
  rewrite (append_convert_run _ _ t) by done.
  unfold bind at 1.
  destruct (have_appended_data (self st)) eqn:Hs.
  - destruct (Hm eq_refl) as (Hid & Hsr & Hcal & Hdt).
    rewrite (append_sanity_checks_pass _ _ (float32_converted t)); first done.
    + by eapply with_packet_lookup.
    + simpl. by rewrite getId_float32_converted.
    + simpl. by rewrite stats_float32_converted.
    + simpl. by rewrite stats_float32_converted.
    + done.
  - by rewrite append_sanity_checks_unseeded.
Qed.

Lemma append_from_pipeline_empty (p : nat) (gap : bool) (st : State) (t : Trace) :
  processing (self st) = [] ->
  have_appended_data (self st) = false ->
  traces st !! p = Some t ->
  append_from_pipeline signal p gap st
  = (inr (Ref_Trace p),
     mk_State (mk_RtTrace (max_length (self st)) true [] t)
              (traces st) (memories st) (stdout st) (invocations st)).
Proof.
  intros Hp Hs Ht. unfold append_from_pipeline, bind, get_self. rewrite Hp. simpl.
  unfold append_merge, bind, get_self, read_trace. rewrite Ht, Hs. simpl.
  rewrite np_array_id. unfold set_have_appended_data, set_base. simpl.
  rewrite Hp. by destruct t.
Qed.

(** C8: on an unseeded accumulator with no registered processing, [append]
    succeeds for every packet and every value of the two flags, goes through
    no continuity classification (nothing is printed, nothing is invoked),
    and leaves the buffer equal to the packet: same samples, same header. *)
Theorem C8_append_on_empty_accumulator_seeds_verbatim
        (st : State) (p : nat) (t : Trace) (gap_overlap_check verbose : bool) :
  have_appended_data (self st) = false ->
  processing (self st) = [] ->
  traces st !! p = Some t ->
  exists st',
    append signal p gap_overlap_check verbose st = (inr (Ref_Trace p), st')
    /\ traces st' !! p = Some (float32_converted t)
    /\ base (self st') = float32_converted t
    /\ stats (base (self st')) = stats t
    /\ arr_values (data (base (self st'))) = arr_values (data t)
    /\ have_appended_data (self st') = true
    /\ stdout st' = stdout st
    /\ invocations st' = invocations st.
Proof.
  intros Hs Hp Ht.
  rewrite (append_checked _ _ _ _ t) by (done || congruence).
  unfold bind. rewrite append_check_times_unseeded by done.
  rewrite (append_from_pipeline_empty _ _ _ (float32_converted t));
    [|done|done|by eapply with_packet_lookup].
  eexists. split; [reflexivity|]. simpl.
  split; [by eapply with_packet_lookup|].
  split; [done|].
  split; [apply stats_float32_converted|].
  split; [apply values_float32_converted|]. done.
Qed.

End Append.

Section Errors.

Variable signal : signal_module.

Lemma append_call_error (p i : nat) (name : process) (opts : options)
      (mem : option (list nat)) (st st' : State) (e : exn) :
  append_call signal p i name opts mem st = (inl e, st') -> pipeline_error e.
Proof.
  intros H. destruct (traces st !! p) as [t|] eqn:Ht.
  - pose proof (append_call_outcome signal p i name opts mem t st Ht) as Ho.
    rewrite H in Ho. simpl in Ho. by inversion Ho.
  - unfold append_call, bind, read_trace in H. rewrite Ht in H. by simplify_eq.
Qed.

Lemma append_clear_succeeds (gap : bool) (i : nat) (proc : entry) (st : State) :
  exists mem st', append_clear gap i proc st = (inr mem, st').
Proof.
  destruct proc as [[name opts] [l|]]; [destruct gap|].
  - rewrite append_clear_gap. by eexists _, _.
  - rewrite append_clear_keep by auto. by eexists _, _.
  - rewrite append_clear_keep by auto. by eexists _, _.
Qed.

Lemma append_process_error (p : nat) (gap : bool) (procs : list entry) (i : nat)
      (st st' : State) (e : exn) :
  append_process signal p gap i procs st = (inl e, st') -> pipeline_error e.
Proof.
  revert i st. induction procs as [|proc rest IH]; intros i st H.
  - simpl in H. unfold ret in H. simplify_eq.
  - simpl in H. unfold bind in H.
    destruct (append_apply signal p gap i proc st) as [[e1|[]] st1] eqn:E.
    + simplify_eq. unfold append_apply, bind in E.
      destruct (append_clear_succeeds gap i proc st) as (mem & st2 & Hc).
      rewrite Hc in E. by eapply append_call_error.
    + by eapply IH.
Qed.

Lemma append_left_trim_error (st st' : State) (e : exn) :
  append_left_trim st = (inl e, st') -> e = ZeroDivisionError.
Proof.
  unfold append_left_trim, bind, get_self, truediv, raise, ret, put_self.
  intros H. repeat case_match; by simplify_eq.
Qed.

Lemma Trace___add___error (a b : Trace) (e : exn) :
  Trace___add__ a b = inl e -> ~ continuity_error e /\ ~ pipeline_error e.
Proof.
  unfold Trace___add__. intros H. repeat case_match; simplify_eq; simpl; tauto.
Qed.

Lemma append_merge_error (p : nat) (st st' : State) (e : exn) :
  append_merge p st = (inl e, st') -> ~ continuity_error e.
Proof.
  unfold append_merge, bind, get_self, read_trace. intros H.
  destruct (traces st !! p) as [t|]; [|simplify_eq; simpl; tauto].
  destruct (have_appended_data (self st)); simpl in H; [|by simplify_eq].
  destruct (Trace___add__ (base (self st)) t) as [e1|sum] eqn:E; simpl in H.
  - unfold raise in H. simplify_eq. apply Trace___add___error in E. tauto.
  - unfold ret, put_self in H.
    apply append_left_trim_error in H. subst. simpl. tauto.
Qed.

Lemma append_from_pipeline_error (p : nat) (gap : bool) (st st' : State) (e : exn) :
  append_from_pipeline signal p gap st = (inl e, st') -> ~ continuity_error e.
Proof.
  unfold append_from_pipeline, bind, get_self. intros H.
  destruct (append_process signal p gap 0 (processing (self st)) st)
    as [[e1|[]] st1] eqn:E.
  - simplify_eq. apply append_process_error in E. destruct e; simpl in *; tauto.
  - destruct (append_merge p st1) as [[e1|[]] st2] eqn:E2.
    + simplify_eq. by eapply append_merge_error.
    + by simplify_eq.
Qed.

End Errors.

(** [append] on a seeded accumulator, for a packet that passes the sanity
    checks, case by case of the classification. *)
Section Classified.

Variable signal : signal_module.
Variables (st : State) (p : nat) (t : Trace).
Hypothesis seeded : have_appended_data (self st) = true.
Hypothesis packet : traces st !! p = Some t.
Hypothesis headers : headers_match (self st) t.
Hypothesis rate : ~ sampling_rate (stats (base (self st))) == 0.

Local Abbreviation st0 := (with_packet st p (float32_converted t)).

Lemma classified_packet :
  have_appended_data (self st0) = true
  /\ traces st0 !! p = Some (float32_converted t)
  /\ ~ sampling_rate (stats (base (self st0))) == 0.
Proof using seeded packet rate.
  split; [done|]. split; [by eapply with_packet_lookup|done].
Qed.

Lemma classified_figures :
  delta_of (self st) (float32_converted t) = delta_of (self st) t
  /\ diff_of (self st) (float32_converted t) = diff_of (self st) t
  /\ check_line (self st) (float32_converted t) = check_line (self st) t
  /\ forall s, report_of s (self st) (float32_converted t) = report_of s (self st) t.
Proof.
  unfold delta_of, report_of, check_line, delta_of, diff_of.
  by rewrite stats_float32_converted.
Qed.

Lemma append_overlap_strict (verbose : bool) :
  delta_of (self st) t < - (1 # 10) ->
  append signal p true verbose st
  = (inl (TypeError_continuity
            (Msg_overlap (report_of (- delta_of (self st) t) (self st) t))),
     with_output st0 (when verbose [check_line (self st) t])).
Proof using seeded packet headers rate.
  intros Hlt. destruct classified_packet as (Hs & Ht & Hr).
  destruct classified_figures as (Hd & _ & Hl & Hrep).
  pose proof (append_check_times_overlap_strict _ _ _ Hs Ht Hr verbose) as L.
  change (self st0) with (self st) in L. rewrite Hd, Hrep, Hl in L.
  rewrite (append_checked _ _ _ _ _ t) by done. unfold bind.
  by rewrite (L Hlt).
Qed.

Lemma append_overlap_lenient (verbose : bool) :
  delta_of (self st) t < - (1 # 10) ->
  append signal p false verbose st
  = append_from_pipeline signal p true
      (with_output st0
         (when verbose [check_line (self st) t]
          ++ [Line_warning
                (Msg_overlap (report_of (- delta_of (self st) t) (self st) t));
              Line_reinit])).
Proof using seeded packet headers rate.
  intros Hlt. destruct classified_packet as (Hs & Ht & Hr).
  destruct classified_figures as (Hd & _ & Hl & Hrep).
  pose proof (append_check_times_overlap_lenient _ _ _ Hs Ht Hr verbose) as L.
  change (self st0) with (self st) in L. rewrite Hd, Hrep, Hl in L.
  rewrite (append_checked _ _ _ _ _ t) by done. unfold bind.
  by rewrite (L Hlt).
Qed.

Lemma append_gap_strict (verbose : bool) :
  1 # 10 < delta_of (self st) t ->
  append signal p true verbose st
  = (inl (TypeError_continuity
            (Msg_gap (report_of (delta_of (self st) t) (self st) t))),
     with_output st0 (when verbose [check_line (self st) t])).
Proof using seeded packet headers rate.
  intros Hgt. destruct classified_packet as (Hs & Ht & Hr).
  destruct classified_figures as (Hd & _ & Hl & Hrep).
  pose proof (append_check_times_gap_strict _ _ _ Hs Ht Hr verbose) as L.
  change (self st0) with (self st) in L. rewrite Hd, Hrep, Hl in L.
  rewrite (append_checked _ _ _ _ _ t) by done. unfold bind.
  by rewrite (L Hgt).
Qed.

Lemma append_gap_lenient (verbose : bool) :
  1 # 10 < delta_of (self st) t ->
  append signal p false verbose st
  = append_from_pipeline signal p true
      (with_output st0
         (when verbose [check_line (self st) t]
          ++ [Line_warning
                (Msg_gap (report_of (delta_of (self st) t) (self st) t));
              Line_reinit])).
Proof using seeded packet headers rate.
  intros Hgt. destruct classified_packet as (Hs & Ht & Hr).
  destruct classified_figures as (Hd & _ & Hl & Hrep).
  pose proof (append_check_times_gap_lenient _ _ _ Hs Ht Hr verbose) as L.
  change (self st0) with (self st) in L. rewrite Hd, Hrep, Hl in L.
  rewrite (append_checked _ _ _ _ _ t) by done. unfold bind.
  by rewrite (L Hgt).
Qed.

Lemma append_contiguous (strict verbose : bool) :
  - (1 # 10) <= delta_of (self st) t -> delta_of (self st) t <= 1 # 10 ->
  append signal p strict verbose st
  = append_from_pipeline signal p false
      (with_output
         (with_starttime st0
            (starttime (stats (base (self st))) + diff_of (self st) t
             - 1 / sampling_rate (stats (base (self st)))))
         (when verbose
            [check_line (self st) t;
             Line_adjusted
               (diff_of (self st) t - 1 / sampling_rate (stats (base (self st))))])).
Proof using seeded packet headers rate.
  intros Hlo Hhi. destruct classified_packet as (Hs & Ht & Hr).
  destruct classified_figures as (Hd & Hdiff & Hl & Hrep).
  pose proof (append_check_times_contiguous _ _ _ Hs Ht Hr strict verbose) as L.
  change (self st0) with (self st) in L. rewrite Hd, Hdiff, Hl in L.
  rewrite (append_checked _ _ _ _ _ t) by done. unfold bind.
  rewrite (L Hlo Hhi).
  by rewrite bool_decide_false by (intros H; by apply H).
Qed.

End Classified.

Section Classification.

Variable signal : signal_module.

(** C1: on a seeded accumulator, for a packet that passes the sanity checks
    (the sampling rate not being zero), with [diff = packet.starttime -
    buffer.endtime] and [delta = diff * sr - 1]: if [delta < -0.1], [append]
    with [gap_overlap_check] set raises the overlap error, which reports the
    overlap in samples and the two boundary times, and with the flag clear
    it prints the warning and goes on into the pipeline with
    [gap_or_overlap = True]; if [delta > 0.1] the same holds with the gap
    error; if [-0.1 <= delta <= 0.1] the pipeline is entered with
    [gap_or_overlap = False] and no gap or overlap error is raised, whatever
    the flag. *)
Theorem C1_gap_overlap_classification
        (st : State) (p : nat) (t : Trace) (verbose : bool) :
  have_appended_data (self st) = true ->
  traces st !! p = Some t ->
  headers_match (self st) t ->
  ~ sampling_rate (stats (base (self st))) == 0 ->
  (delta_of (self st) t < - (1 # 10) ->
     append signal p true verbose st
     = (inl (TypeError_continuity
               (Msg_overlap (report_of (- delta_of (self st) t) (self st) t))),
        with_output (with_packet st p (float32_converted t))
                    (when verbose [check_line (self st) t]))
     /\ append signal p false verbose st
        = append_from_pipeline signal p true
            (with_output (with_packet st p (float32_converted t))
               (when verbose [check_line (self st) t]
                ++ [Line_warning
                      (Msg_overlap (report_of (- delta_of (self st) t) (self st) t));
                    Line_reinit])))
  /\ (1 # 10 < delta_of (self st) t ->
     append signal p true verbose st
     = (inl (TypeError_continuity
               (Msg_gap (report_of (delta_of (self st) t) (self st) t))),
        with_output (with_packet st p (float32_converted t))
                    (when verbose [check_line (self st) t]))
     /\ append signal p false verbose st
        = append_from_pipeline signal p true
            (with_output (with_packet st p (float32_converted t))
               (when verbose [check_line (self st) t]
                ++ [Line_warning
                      (Msg_gap (report_of (delta_of (self st) t) (self st) t));
                    Line_reinit])))
  /\ (- (1 # 10) <= delta_of (self st) t -> delta_of (self st) t <= 1 # 10 ->
      forall gap_overlap_check : bool,
        append signal p gap_overlap_check verbose st
        = append_from_pipeline signal p false
            (with_output
               (with_starttime (with_packet st p (float32_converted t))
                  (starttime (stats (base (self st))) + diff_of (self st) t
                   - 1 / sampling_rate (stats (base (self st)))))
               (when verbose
                  [check_line (self st) t;
                   Line_adjusted
                     (diff_of (self st) t
                      - 1 / sampling_rate (stats (base (self st))))]))
        /\ forall e st',
            append signal p gap_overlap_check verbose st = (inl e, st') ->
            ~ continuity_error e).
Proof.
  intros Hs Ht Hm Hsr. split; [|split].
  - intros Hlt. split.
    + by apply append_overlap_strict.
    + by apply append_overlap_lenient.
  - intros Hgt. split.
    + by apply append_gap_strict.
    + by apply append_gap_lenient.
  - intros Hlo Hhi strict.
    rewrite (append_contiguous signal st p t) by done.
    split; [done|]. intros e st'. apply append_from_pipeline_error.
Qed.

End Classification.

Section Loop.

Variable signal : signal_module.

Lemma call_outcome_self (p i : nat) (name : process) (mem : option (list nat))
      (t : Trace) (st st' : State) (r : Result unit) :
  call_outcome p i name mem t st r st' -> self st' = self st.
Proof. by destruct 1. Qed.

Lemma append_call_self (p i : nat) (name : process) (opts : options)
      (mem : option (list nat)) (st st' : State) (r : Result unit) :
  append_call signal p i name opts mem st = (r, st') -> self st' = self st.
Proof.
  intros H. destruct (traces st !! p) as [t|] eqn:Ht.
  - pose proof (append_call_outcome signal p i name opts mem t st Ht) as Ho.
    rewrite H in Ho. by eapply call_outcome_self.
  - unfold append_call, bind, read_trace in H. rewrite Ht in H. by simplify_eq.
Qed.

(** One round of the loop touches the registry at its own index only. *)
Lemma append_apply_registry (p : nat) (gap : bool) (i : nat) (proc : entry)
      (st st' : State) (r : Result unit) :
  append_apply signal p gap i proc st = (r, st') ->
  exists e, processing (self st') = <[i := e]> (processing (self st)).
Proof.
  unfold append_apply, bind. intros H.
  destruct proc as [[name opts] mem].
  destruct mem as [l|]; [destruct gap|].
  - rewrite append_clear_gap in H. apply append_call_self in H.
    rewrite H. simpl. by eexists.
  - rewrite append_clear_keep in H by auto. apply append_call_self in H.
    rewrite H. destruct (processing (self st) !! i) as [e|] eqn:E.
    + exists e. by rewrite list_insert_id.
    + exists (name, opts, None). rewrite list_insert_ge; [done|].
      by apply lookup_ge_None.
  - rewrite append_clear_keep in H by auto. apply append_call_self in H.
    rewrite H. destruct (processing (self st) !! i) as [e|] eqn:E.
    + exists e. by rewrite list_insert_id.
    + exists (name, opts, None). rewrite list_insert_ge; [done|].
      by apply lookup_ge_None.
Qed.

Lemma append_process_registry (p : nat) (gap : bool) (procs : list entry)
      (i : nat) (st st' : State) (r : Result unit) :
  append_process signal p gap i procs st = (r, st') ->
  forall j, (j < i)%nat -> processing (self st') !! j = processing (self st) !! j.
Proof.
  revert i st. induction procs as [|proc rest IH]; intros i st H j Hj.
  - simpl in H. unfold ret in H. by simplify_eq.
  - simpl in H. unfold bind in H.
    destruct (append_apply signal p gap i proc st) as [[e|[]] st1] eqn:E.
    + simplify_eq. apply append_apply_registry in E as [e' ->].
      apply list_lookup_insert_ne. lia.
    + rewrite (IH _ _ H) by lia.
      apply append_apply_registry in E as [e' ->].
      apply list_lookup_insert_ne. lia.
Qed.

Lemma append_process_staged (p : nat) (gap : bool) (procs : list entry) (i : nat)
      (st st' : State) (r : Result unit) (t : Trace) :
  traces st !! p = Some t ->
  append_process signal p gap i procs st = (r, st') ->
  exists new t',
    invocations st' = invocations st ++ new
    /\ traces st' !! p = Some t'
    /\ stats t' = stats t
    /\ staged (data t) new (data t')
    /\ (r = inr tt ->
        chained (data t) new (data t')
        /\ map inv_entry new = seq i (length procs)).
Proof.
  revert i st t. induction procs as [|proc rest IH]; intros i st t Ht H.
  - simpl in H. unfold ret in H. simplify_eq.
    exists [], t. rewrite app_nil_r. repeat split; try done. constructor.
  - simpl in H. unfold bind in H.
    destruct (append_apply signal p gap i proc st) as [r1 st1] eqn:E.
    unfold append_apply, bind in E.
    destruct (append_clear_succeeds gap i proc st) as (mem & st0 & Hc).
    rewrite Hc in E.
    pose proof (append_clear_frame p _ _ _ _ _ _ Hc) as Hf.
    destruct (pf_header _ _ _ Hf t Ht) as (a0 & Ht0).
    assert (Ht0' : traces st0 !! p = Some t).
    { rewrite Ht0. f_equal. destruct t. unfold set_data. simpl.
      assert (traces st0 = traces st) as Htr.
      { destruct proc as [[name opts] [l|]]; [destruct gap|].
        - rewrite append_clear_gap in Hc. by simplify_eq.
        - rewrite append_clear_keep in Hc by auto. by simplify_eq.
        - rewrite append_clear_keep in Hc by auto. by simplify_eq. }
      rewrite Htr, Ht in Ht0. by simplify_eq. }
    destruct (pf_invocations _ _ _ Hf) as (n0 & Hn0).
    assert (Hinv0 : invocations st0 = invocations st).
    { destruct proc as [[name opts] [l|]]; [destruct gap|].
      - rewrite append_clear_gap in Hc. by simplify_eq.
      - rewrite append_clear_keep in Hc by auto. by simplify_eq.
      - rewrite append_clear_keep in Hc by auto. by simplify_eq. }
    clear Ht0 a0 n0 Hn0.
    pose proof (append_call_outcome signal p i (fst (fst proc)) (snd (fst proc))
                  mem t st0 Ht0') as Ho.
    rewrite E in Ho. simpl in Ho.
    inversion Ho as [c a store Hi Hm Hs Hin Hout Hr Hst
                    | c e store Hi Hm Hs Hin Hout Hr Hst
                    | key Hr Hst]; subst r1.
    + subst st1.
      apply IH with (t := set_data t a) in H;
        [|simpl; apply list_lookup_insert_eq; by eapply lookup_lt_Some].
      destruct H as (new & t' & Hnew & Ht' & Hstats & Hstaged & Hok).
      exists (c :: new), t'. simpl in Hnew. rewrite Hnew, Hinv0.
      rewrite <- app_assoc. simpl.
      repeat split; try done.
      * eapply staged_returns; eauto.
      * destruct Hok as [Hch _]; [done|]. by exists a.
      * destruct Hok as [_ Hseq]; [done|]. by rewrite Hi, Hseq.
    + simplify_eq. exists [c], t. simpl. rewrite Hinv0.
      repeat split; try done. by eapply staged_raises.
    + simplify_eq. exists [], t. rewrite app_nil_r.
      repeat split; try done. constructor.
Qed.

Lemma memory_cleared_before (P P1 after : list entry) (i : nat) (c : invocation) :
  (forall j, j <> i -> P1 !! j = P !! j) ->
  (S i <= inv_entry c)%nat ->
  memory_cleared P1 after c -> memory_cleared P after c.
Proof.
  intros Hsame Hle (name & opts & mem & Hl & Hrest).
  exists name, opts, mem. split; [|done].
  rewrite <- Hsame by lia. done.
Qed.

Lemma append_process_cleared (p : nat) (procs : list entry) (i : nat)
      (st st' : State) (r : Result unit) (t : Trace) :
  drop i (processing (self st)) = procs ->
  traces st !! p = Some t ->
  append_process signal p true i procs st = (r, st') ->
  exists new,
    invocations st' = invocations st ++ new
    /\ Forall (fun c => (i <= inv_entry c)%nat
                        /\ memory_cleared (processing (self st))
                                          (processing (self st')) c) new.
Proof.
  revert i st t. induction procs as [|proc rest IH]; intros i st t Hd Ht H.
  - simpl in H. unfold ret in H. simplify_eq.
    exists []. by rewrite app_nil_r.
  - assert (Hi : processing (self st) !! i = Some proc).
    { rewrite <- (Nat.add_0_r i). rewrite <- lookup_drop. by rewrite Hd. }
    assert (Hrest : drop (S i) (processing (self st)) = rest).
    { replace (S i) with (i + 1)%nat by lia. rewrite <- drop_drop. by rewrite Hd. }
    simpl in H. unfold bind in H.
    destruct (append_apply signal p true i proc st) as [r1 st1] eqn:E.
    pose proof (append_process_registry p true rest (S i) st1 st') as Hreg.
    unfold append_apply, bind in E.
    destruct proc as [[name opts] mem].
    (* the state in which the processing function is called *)
    assert (Hcall : exists mem1 st0,
               append_call signal p i name opts mem1 st0 = (r1, st1)
               /\ traces st0 = traces st
               /\ invocations st0 = invocations st
               /\ drop (S i) (processing (self st0)) = rest
               /\ (forall j, j <> i ->
                             processing (self st0) !! j = processing (self st) !! j)
               /\ forall c after,
                    inv_entry c = i ->
                    inv_store c = memories st0 ->
                    inv_memory c = match name with
                                   | Name _ => mem1
                                   | Function _ _ => None
                                   end ->
                    after !! i = processing (self st0) !! i ->
                    memory_cleared (processing (self st)) after c).
    { destruct mem as [l|].
      - rewrite append_clear_gap in E. eexists _, _. split; [exact E|].
        split; [done|]. split; [done|].
        split; [unfold cleared; simpl; by rewrite drop_insert_lt by lia|].
        split; [intros j Hj; unfold cleared; simpl; by apply list_lookup_insert_ne|].
        intros c after Hc Hs Hm Ha.
        exists name, opts, (Some l). rewrite Hc. split; [done|].
        exists (memories st). split; [done|]. split; [|done].
        etrans; [exact Ha|]. unfold cleared; simpl.
        apply list_lookup_insert_eq. by eapply lookup_lt_Some.
      - rewrite append_clear_keep in E by auto. eexists _, _. split; [exact E|].
        split; [done|]. split; [done|]. split; [done|]. split; [done|].
        intros c after Hc Hs Hm Ha.
        exists name, opts, None. rewrite Hc. split; [done|].
        split; [by destruct name|]. etrans; [exact Ha|]. done. }
    destruct Hcall as (mem1 & st0 & Hcall & Htr & Hinv & Hdrop & Hsame & Hcleared).
    assert (Ht0 : traces st0 !! p = Some t) by (by rewrite Htr).
    pose proof (append_call_outcome signal p i name opts mem1 t st0 Ht0) as Ho.
    pose proof (append_call_self _ _ _ _ _ _ _ _ Hcall) as Hself.
    rewrite Hcall in Ho. simpl in Ho.
    inversion Ho as [c a store Hc Hm Hs Hin Hout Hr Hst
                    | c e store Hc Hm Hs Hin Hout Hr Hst
                    | key Hr Hst]; subst r1.
    + pose proof (Hreg _ H) as Hfin.
      apply IH with (t := set_data t a) in H;
        [| by rewrite Hself | rewrite <- Hst; simpl; apply list_lookup_insert_eq;
                              by eapply lookup_lt_Some].
      destruct H as (new & Hnew & Hall).
      exists (c :: new). rewrite Hnew, <- Hst. simpl. rewrite Hinv, <- app_assoc.
      split; [done|]. constructor.
      * split; [lia|]. apply Hcleared; try done.
        rewrite <- Hself. apply Hfin. lia.
      * eapply Forall_impl; [exact Hall|]. intros c' [Hle Hcl]. split; [lia|].
        eapply memory_cleared_before; [|exact Hle|exact Hcl].
        rewrite Hself. exact Hsame.
    + simplify_eq. exists [c]. split; [by rewrite <- Hinv|].
      constructor; [|constructor]. split; [lia|].
      apply Hcleared; try done.
    + simplify_eq. exists []. split; [by rewrite app_nil_r|]. constructor.
Qed.

End Loop.

Lemma merge_frame_refl (st : State) : merge_frame st st.
Proof. by split. Qed.

Lemma append_left_trim_frame (st st' : State) (r : Result unit) :
  append_left_trim st = (r, st') ->
  merge_frame st st' /\ have_appended_data (self st') = have_appended_data (self st).
Proof.
  unfold append_left_trim, bind, get_self, truediv, raise, ret, put_self.
  intros H. repeat case_match; simplify_eq; by repeat split.
Qed.

Lemma append_merge_frame (p : nat) (st st' : State) (r : Result unit) :
  append_merge p st = (r, st') ->
  merge_frame st st' /\ have_appended_data (self st') = have_appended_data (self st).
Proof.
  unfold append_merge, bind, get_self, read_trace. intros H.
  destruct (traces st !! p) as [t|]; [|simplify_eq; by repeat split].
  destruct (have_appended_data (self st)) eqn:Hs; simpl in H;
    [|unfold put_self in H; simplify_eq; repeat split; simpl; congruence].
  destruct (Trace___add__ (base (self st)) t) as [e1|sum]; simpl in H.
  - unfold raise in H. simplify_eq. repeat split; congruence.
  - unfold ret, put_self in H. apply append_left_trim_frame in H as [[] Hh].
    simpl in *. repeat split; congruence.
Qed.

(** The classification step, whatever it decides: it touches neither the
    packets nor the memories; it raises before it changes the accumulator;
    and when it returns it has either left the accumulator alone or, for a
    contiguous packet, shifted the start time of the buffer. *)
Lemma append_check_times_inv (p : nat) (strict verbose : bool) (st st' : State)
      (r : Result (option message)) :
  append_check_times p strict verbose st = (r, st') ->
  traces st' = traces st
  /\ memories st' = memories st
  /\ invocations st' = invocations st
  /\ (forall e, r = inl e -> self st' = self st)
  /\ (self st' = self st
      \/ exists t,
          traces st !! p = Some t
          /\ have_appended_data (self st) = true
          /\ - (1 # 10) <= delta_of (self st) t
          /\ delta_of (self st) t <= 1 # 10
          /\ r = inr None
          /\ self st'
             = shifted (self st)
                 (starttime (stats (base (self st))) + diff_of (self st) t
                  - 1 / sampling_rate (stats (base (self st))))).
Proof.
  intros H.
  destruct (have_appended_data (self st)) eqn:Hs;
    [|rewrite append_check_times_unseeded in H by done; simplify_eq; by auto 10].
  destruct (traces st !! p) as [t|] eqn:Ht;
    [|unfold append_check_times, bind, get_self, read_trace in H;
      rewrite Hs, Ht in H; simplify_eq; by auto 10].
  destruct (Qeq_bool (sampling_rate (stats (base (self st)))) 0) eqn:Hsr.
  - (* a sampling rate of zero: the first division raises *)
    unfold append_check_times, bind, get_self, read_trace, truediv in H.
    rewrite Hs, Ht, Hsr in H. unfold raise, ret in H.
    destruct verbose; [simplify_eq; by auto 10|].
    repeat case_match; simplify_eq; by auto 10.
  - apply Qeq_bool_neq in Hsr.
    destruct (Qlt_le_dec (delta_of (self st) t) (- (1 # 10))) as [Hlt|Hlo].
    { destruct strict.
      - rewrite (append_check_times_overlap_strict _ _ t) in H by done.
        simplify_eq. by auto 10.
      - rewrite (append_check_times_overlap_lenient _ _ t) in H by done.
        simplify_eq. by auto 10. }
    destruct (Qlt_le_dec (1 # 10) (delta_of (self st) t)) as [Hgt|Hhi].
    { destruct strict.
      - rewrite (append_check_times_gap_strict _ _ t) in H by done.
        simplify_eq. by auto 10.
      - rewrite (append_check_times_gap_lenient _ _ t) in H by done.
        simplify_eq. by auto 10. }
    rewrite (append_check_times_contiguous _ _ t) in H by done.
    simplify_eq. simpl. repeat split; try done.
    right. exists t. by repeat split.
Qed.

(** A seeded accumulator rejects a packet that does not match its header. *)
Lemma append_sanity_checks_reject (st : State) (p : nat) (t : Trace) :
  have_appended_data (self st) = true ->
  traces st !! p = Some (float32_converted t) ->
  ~ headers_match (self st) t ->
  exists e, append_sanity_checks p st = (inl e, st) /\ ~ pipeline_error e
            /\ ~ continuity_error e.
Proof.
  intros Hs Ht Hm.
  unfold append_sanity_checks, bind, get_self, read_trace. rewrite Hs, Ht.
  destruct (decide (getId (base (self st)) = getId (float32_converted t)))
    as [Hid|Hid]; [|eexists; split; [reflexivity|simpl; tauto]]. simpl.
  destruct (Py.ne (sampling_rate (stats (base (self st))))
                  (sampling_rate (stats (float32_converted t)))) eqn:Hsr;
    [eexists; split; [reflexivity|simpl; tauto]|]. simpl.
  destruct (Py.ne (calib (stats (base (self st))))
                  (calib (stats (float32_converted t)))) eqn:Hcal;
    [eexists; split; [reflexivity|simpl; tauto]|]. simpl.
  destruct (decide (arr_dtype (data (base (self st)))
                    = arr_dtype (data (float32_converted t)))) as [Hdt|Hdt];
    [|eexists; split; [reflexivity|simpl; tauto]].
  exfalso. apply Hm. apply Py_ne_false in Hsr, Hcal.
  rewrite stats_float32_converted in Hsr, Hcal.
  rewrite getId_float32_converted in Hid. by repeat split.
Qed.

Section Runs.

Variable signal : signal_module.

Lemma append_runs (p : nat) (strict verbose : bool) (st st' : State) (t : Trace)
      (r : Result value) :
  traces st !! p = Some t ->
  append signal p strict verbose st = (r, st') ->
  append_run signal p strict verbose st t r st'.
Proof.
  intros Ht H. rewrite append_phases in H. unfold bind at 1 in H.
  rewrite (append_convert_run _ _ t) in H by done.
  unfold bind at 1 in H.
  destruct (append_sanity_checks p (with_packet st p (float32_converted t)))
    as [[e|[]] st0] eqn:E0;
    pose proof (append_sanity_checks_state _ _ _ _ E0) as ->.
  { simplify_eq. by apply run_rejected. }
  unfold bind at 1 in H.
  destruct (append_check_times p strict verbose
              (with_packet st p (float32_converted t))) as [[e|g] st1] eqn:E1.
  { simplify_eq. by eapply run_discontinuous. }
  unfold append_from_pipeline, bind, get_self in H.
  destruct (append_process signal p (bool_decide (g ≠ None)) 0
              (processing (self st1)) st1) as [[e|[]] st2] eqn:E2.
  { simplify_eq. by eapply run_pipeline_raises. }
  destruct (append_merge p st2) as [[e|[]] st3] eqn:E3.
  { simplify_eq. by eapply run_merge_raises. }
  unfold put_self, ret in H. simplify_eq.
  by eapply run_returns.
Qed.

End Runs.

(** ** The registry across calls of [append] *)

Lemma same_entry_refl (e : entry) : same_entry e e.
Proof. by split. Qed.

Lemma same_entry_trans (e1 e2 e3 : entry) :
  same_entry e1 e2 -> same_entry e2 e3 -> same_entry e1 e3.
Proof. intros [] []. split; congruence. Qed.

Lemma same_entries_refl (l : list entry) : Forall2 same_entry l l.
Proof. induction l; constructor; [apply same_entry_refl|done]. Qed.

Lemma same_entries_trans (l1 l2 l3 : list entry) :
  Forall2 same_entry l1 l2 -> Forall2 same_entry l2 l3 -> Forall2 same_entry l1 l3.
Proof.
  intros H. revert l3. induction H as [|e1 e2 l1 l2 He Hl IH]; intros l3 H3.
  - by inversion H3.
  - inversion H3; subst. constructor; [by eapply same_entry_trans|by apply IH].
Qed.

Lemma same_entries_insert (l : list entry) (i : nat) (e e' : entry) :
  l !! i = Some e -> same_entry e e' -> Forall2 same_entry l (<[i := e']> l).
Proof.
  revert i. induction l as [|x l IH]; intros [|i] Hi He; simplify_eq/=.
  - constructor; [done|apply same_entries_refl].
  - constructor; [apply same_entry_refl|by apply IH].
Qed.

Lemma append_dangling (signal : signal_module) (p : nat) (strict verbose : bool)
      (st : State) :
  traces st !! p = None ->
  append signal p strict verbose st = (inl (ReferenceError p), st).
Proof.
  intros H. unfold append, bind, append_convert, bind, read_trace. by rewrite H.
Qed.

Section Registry.

Variable signal : signal_module.

(** The loop over the registry: the entries are called one after the other,
    each once, up to the first that raises; the registry keeps its entries
    up to memory references, and keeps these too when there is no gap or
    overlap, every function being called with the references of its entry. *)
Lemma append_process_calls (p : nat) (gap : bool) (procs : list entry) (i : nat)
      (st st' : State) (r : Result unit) (t : Trace) :
  drop i (processing (self st)) = procs ->
  traces st !! p = Some t ->
  append_process signal p gap i procs st = (r, st') ->
  exists new,
    invocations st' = invocations st ++ new
    /\ map inv_entry new = seq i (length new)
    /\ (length new <= length procs)%nat
    /\ (r = inr tt -> length new = length procs)
    /\ Forall2 same_entry (processing (self st)) (processing (self st'))
    /\ (gap = false ->
        processing (self st') = processing (self st)
        /\ Forall (called_from (processing (self st))) new).
Proof.
  revert i st t. induction procs as [|proc rest IH]; intros i st t Hd Ht H.
  - simpl in H. unfold ret in H. simplify_eq.
    exists []. rewrite app_nil_r. repeat split; try done.
    apply same_entries_refl.
  - assert (Hi : processing (self st) !! i = Some proc).
    { rewrite <- (Nat.add_0_r i). rewrite <- lookup_drop. by rewrite Hd. }
    assert (Hrest : drop (S i) (processing (self st)) = rest).
    { replace (S i) with (i + 1)%nat by lia. rewrite <- drop_drop. by rewrite Hd. }
    simpl in H. unfold bind in H.
    destruct (append_apply signal p gap i proc st) as [r1 st1] eqn:E.
    unfold append_apply, bind in E.
    destruct proc as [[name opts] mem].
    (* the state in which the processing function is called *)
    assert (Hcall : exists mem1 st0,
               append_call signal p i name opts mem1 st0 = (r1, st1)
               /\ traces st0 = traces st
               /\ invocations st0 = invocations st
               /\ processing (self st0)
                  = <[i := (name, opts, mem1)]> (processing (self st))
               /\ length <$> mem = length <$> mem1
               /\ (gap = false -> mem1 = mem)).
    { destruct mem as [l|]; [destruct gap|].
      - rewrite append_clear_gap in E. eexists _, _. split; [exact E|].
        repeat split; try done. simpl. by rewrite length_seq.
      - rewrite append_clear_keep in E by auto. eexists _, _. split; [exact E|].
        repeat split; try done. by rewrite list_insert_id.
      - rewrite append_clear_keep in E by auto. eexists _, _. split; [exact E|].
        repeat split; try done. by rewrite list_insert_id. }
    destruct Hcall as (mem1 & st0 & Hcall & Htr & Hinv & Hreg & Hlen & Hkeep).
    assert (Ht0 : traces st0 !! p = Some t) by (by rewrite Htr).
    pose proof (append_call_outcome signal p i name opts mem1 t st0 Ht0) as Ho.
    pose proof (append_call_self _ _ _ _ _ _ _ _ _ Hcall) as Hself.
    assert (Hstep : Forall2 same_entry (processing (self st)) (processing (self st1))).
    { rewrite Hself, Hreg. eapply same_entries_insert; [exact Hi|]. by split. }
    assert (Hsame : gap = false -> processing (self st1) = processing (self st)).
    { intros Hg. rewrite Hself, Hreg, (Hkeep Hg). by apply list_insert_id. }
    assert (Hfrom : forall c, inv_entry c = i ->
                inv_memory c = match name with
                               | Name _ => mem1
                               | Function _ _ => None
                               end ->
                gap = false -> called_from (processing (self st)) c).
    { intros c Hc Hm Hg. exists name, opts, mem. rewrite Hc, Hm, (Hkeep Hg). done. }
    rewrite Hcall in Ho. simpl in Ho.
    inversion Ho as [c a store Hc Hm Hs Hin Hout Hr Hst
                    | c e store Hc Hm Hs Hin Hout Hr Hst
                    | key Hr Hst]; subst r1.
    + apply IH with (t := set_data t a) in H;
        [| rewrite Hself, Hreg; by rewrite drop_insert_lt by lia
         | rewrite <- Hst; simpl; apply list_lookup_insert_eq;
           by eapply lookup_lt_Some].
      destruct H as (new & Hnew & Hord & Hle & Hall & Hent & Hgap).
      exists (c :: new). rewrite Hnew, <- Hst. simpl. rewrite Hinv, <- app_assoc.
      split; [done|]. split; [by rewrite Hc, Hord|].
      split; [lia|]. split; [intros Hr'; by rewrite (Hall Hr')|].
      split; [by eapply same_entries_trans|].
      intros Hg. destruct (Hgap Hg) as [Heq Hcalls].
      split; [by rewrite Heq, Hsame|].
      constructor; [by apply Hfrom|]. by rewrite <- (Hsame Hg).
    + simplify_eq. exists [c]. split; [by rewrite <- Hinv|].
      simpl. split; [done|]. split; [lia|]. split; [done|].
      split; [done|]. intros Hg. split; [by apply Hsame|].
      constructor; [by apply Hfrom|constructor].
    + simplify_eq. exists []. rewrite app_nil_r. simpl.
      split; [done|]. split; [done|]. split; [lia|]. split; [done|].
      split; [done|]. intros Hg. split; [by apply Hsame|constructor].
Qed.

Lemma append_from_pipeline_calls (p : nat) (gap : bool) (st st' : State)
      (r : Result value) (t : Trace) :
  traces st !! p = Some t ->
  append_from_pipeline signal p gap st = (r, st') ->
  exists new,
    invocations st' = invocations st ++ new
    /\ map inv_entry new = seq 0 (length new)
    /\ (length new <= length (processing (self st)))%nat
    /\ (forall v, r = inr v -> length new = length (processing (self st)))
    /\ Forall2 same_entry (processing (self st)) (processing (self st'))
    /\ max_length (self st') = max_length (self st)
    /\ (gap = false ->
        processing (self st') = processing (self st)
        /\ Forall (called_from (processing (self st))) new).
Proof.
  intros Ht H. unfold append_from_pipeline, bind, get_self in H.
  destruct (append_process signal p gap 0 (processing (self st)) st)
    as [r1 st1] eqn:E1.
  pose proof (append_process_frame _ _ _ _ _ _ _ _ E1) as Hf.
  destruct (append_process_calls _ _ _ _ _ _ _ t eq_refl Ht E1)
    as (new & Hnew & Hord & Hle & Hall & Hent & Hgap).
  exists new. destruct r1 as [e|[]].
  { simplify_eq. do 5 (split; [done|]).
    split; [apply (pf_max_length _ _ _ Hf)|exact Hgap]. }
  destruct (append_merge p st1) as [r2 st2] eqn:E2.
  destruct (append_merge_frame _ _ _ _ E2) as [Hm _].
  assert (Hst : invocations st' = invocations st2
                /\ processing (self st') = processing (self st2)
                /\ max_length (self st') = max_length (self st2)).
  { destruct r2 as [e|[]]; unfold put_self, ret in H; by simplify_eq. }
  destruct Hst as (-> & -> & ->).
  rewrite (mf_invocations _ _ Hm), (mf_processing _ _ Hm), (mf_max_length _ _ Hm).
  do 3 (split; [done|]). split; [intros v Hv; by apply Hall|].
  split; [done|]. split; [apply (pf_max_length _ _ _ Hf)|exact Hgap].
Qed.

(** A call of [append], whatever it is given and however it ends. *)
Lemma append_calls (p : nat) (strict verbose : bool) (st st' : State)
      (r : Result value) :
  append signal p strict verbose st = (r, st') ->
  exists new,
    invocations st' = invocations st ++ new
    /\ map inv_entry new = seq 0 (length new)
    /\ (length new <= length (processing (self st)))%nat
    /\ (forall v, r = inr v -> length new = length (processing (self st)))
    /\ Forall2 same_entry (processing (self st)) (processing (self st'))
    /\ max_length (self st') = max_length (self st).
Proof.
  intros H.
  assert (Hnone : forall s : State,
             invocations s = invocations st -> self s = self st ->
             forall e : exn, (r, st') = (inl e, s) ->
             exists new,
               invocations st' = invocations st ++ new
               /\ map inv_entry new = seq 0 (length new)
               /\ (length new <= length (processing (self st)))%nat
               /\ (forall v, r = inr v -> length new = length (processing (self st)))
               /\ Forall2 same_entry (processing (self st)) (processing (self st'))
               /\ max_length (self st') = max_length (self st)).
  { intros s Hi Hs e Heq. injection Heq as -> ->. exists [].
    rewrite app_nil_r, Hs. repeat split; try done; [simpl; lia|].
    apply same_entries_refl. }
  destruct (traces st !! p) as [t|] eqn:Ht;
    [|rewrite append_dangling in H by done; symmetry in H; by eapply (Hnone st)].
  rewrite append_phases in H. unfold bind at 1 in H.
  rewrite (append_convert_run _ _ t) in H by done.
  unfold bind at 1 in H.
  destruct (append_sanity_checks p (with_packet st p (float32_converted t)))
    as [[e|[]] st0] eqn:E0;
    pose proof (append_sanity_checks_state _ _ _ _ E0) as ->.
  { simpl in H. symmetry in H.
    by eapply (Hnone (with_packet st p (float32_converted t))). }
  unfold bind at 1 in H.
  destruct (append_check_times p strict verbose
              (with_packet st p (float32_converted t))) as [[e|g] st1] eqn:E1;
    destruct (append_check_times_inv _ _ _ _ _ _ E1)
      as (Htr & _ & Hinv & Herr & Hself).
  { simpl in H. symmetry in H.
    eapply (Hnone st1); [done|by apply (Herr e)|exact H]. }
  assert (Hkeep : processing (self st1) = processing (self st)
                  /\ max_length (self st1) = max_length (self st)).
  { destruct Hself as [-> | (t1 & _ & _ & _ & _ & _ & ->)]; by split. }
  destruct Hkeep as [Hp Hm].
  assert (Ht1 : traces st1 !! p = Some (float32_converted t)).
  { rewrite Htr. by eapply with_packet_lookup. }
  destruct (append_from_pipeline_calls p _ st1 st' r _ Ht1 H)
    as (new & Hnew & Hord & Hle & Hall & Hent & Hmax & _).
  exists new. rewrite Hp in *. rewrite Hm in Hmax. rewrite Hinv in Hnew.
  by repeat split.
Qed.

End Registry.

Section Packet.

Variable signal : signal_module.

Lemma with_packet_others (st : State) (p : nat) (t : Trace) :
  length (traces (with_packet st p t)) = length (traces st)
  /\ forall q, q <> p -> traces (with_packet st p t) !! q = traces st !! q.
Proof.
  split; [apply length_insert|]. intros q Hq. by apply list_lookup_insert_ne.
Qed.

(** The packet across a call of [append]: its header stays, its array is
    what the invocations made of the converted one. *)
Lemma append_packet_in_place
        (st st' : State) (p : nat) (t : Trace) (gap_overlap_check verbose : bool)
        (r : Result value) :
  traces st !! p = Some t ->
  append signal p gap_overlap_check verbose st = (r, st') ->
  length (traces st') = length (traces st)
  /\ (forall q, q <> p -> traces st' !! q = traces st !! q)
  /\ exists new t',
      invocations st' = invocations st ++ new
      /\ traces st' !! p = Some t'
      /\ stats t' = stats t
      /\ staged (data (float32_converted t)) new (data t')
      /\ (forall v, r = inr v ->
                    v = Ref_Trace p
                    /\ chained (data (float32_converted t)) new (data t'))
      /\ (have_appended_data (self st) = true -> ~ headers_match (self st) t ->
          new = [] /\ t' = float32_converted t /\ exists e, r = inl e).
Proof.
  intros Ht H. apply (append_runs signal _ _ _ _ _ t) in H; [|done].
  destruct (with_packet_others st p (float32_converted t)) as [Hlen0 Hoth0].
  assert (Ht0 : traces (with_packet st p (float32_converted t)) !! p
                = Some (float32_converted t)) by (by eapply with_packet_lookup).
  (* a call that gets past the sanity checks had matching headers *)
  assert (Hpass : forall u,
             append_sanity_checks p (with_packet st p (float32_converted t))
             = (inr u, with_packet st p (float32_converted t)) ->
             have_appended_data (self st) = true -> ~ headers_match (self st) t ->
             False).
  { intros u Hu Hs Hm.
    destruct (append_sanity_checks_reject
                (with_packet st p (float32_converted t)) p t Hs Ht0 Hm)
      as (e & He & _). congruence. }
  inversion H as [e Hrej | e st1 Hok Hchk | g st1 st2 e Hok Hchk Hproc
                  | g st1 st2 st3 e Hok Hchk Hproc Hmerge
                  | g st1 st2 st3 Hok Hchk Hproc Hmerge]; subst.
  - (* rejected by the sanity checks *)
    split; [done|]. split; [done|].
    exists [], (float32_converted t). rewrite app_nil_r.
    repeat split; try done; try apply stats_float32_converted; try constructor.
    by eexists.
  - (* raised by the classification *)
    destruct (append_check_times_inv _ _ _ _ _ _ Hchk) as (Htr & _ & Hinv & _).
    rewrite Htr, Hinv. split; [done|]. split; [done|].
    exists [], (float32_converted t). rewrite app_nil_r.
    repeat split; try done; try apply stats_float32_converted; try constructor;
      exfalso; eauto.
  - (* raised in the pipeline *)
    destruct (append_check_times_inv _ _ _ _ _ _ Hchk) as (Htr & _ & Hinv & _).
    pose proof (append_process_frame _ _ _ _ _ _ _ _ Hproc) as Hf.
    destruct (append_process_staged signal _ _ _ _ _ _ _ (float32_converted t)
                (ltac:(by rewrite Htr)) Hproc)
      as (new & t' & Hnew & Ht' & Hst & Hstaged & _).
    rewrite (pf_packets _ _ _ Hf), Htr. split; [done|].
    split; [intros q Hq; rewrite (pf_others _ _ _ Hf) by done; rewrite Htr; auto|].
    exists new, t'. rewrite Hnew, Hinv.
    repeat split; try done; try (by rewrite Hst, stats_float32_converted);
      exfalso; eauto.
  - (* raised by the merge *)
    destruct (append_check_times_inv _ _ _ _ _ _ Hchk) as (Htr & _ & Hinv & _).
    pose proof (append_process_frame _ _ _ _ _ _ _ _ Hproc) as Hf.
    destruct (append_process_staged signal _ _ _ _ _ _ _ (float32_converted t)
                (ltac:(by rewrite Htr)) Hproc)
      as (new & t' & Hnew & Ht' & Hst & Hstaged & _).
    destruct (append_merge_frame _ _ _ _ Hmerge) as [[Hmt _ _ Hmi _ _] _].
    rewrite Hmt, Hmi, (pf_packets _ _ _ Hf), Htr. split; [done|].
    split; [intros q Hq; rewrite (pf_others _ _ _ Hf) by done; rewrite Htr; auto|].
    exists new, t'. rewrite Hnew, Hinv.
    repeat split; try done; try (by rewrite Hst, stats_float32_converted);
      exfalso; eauto.
  - (* returns *)
    destruct (append_check_times_inv _ _ _ _ _ _ Hchk) as (Htr & _ & Hinv & _).
    pose proof (append_process_frame _ _ _ _ _ _ _ _ Hproc) as Hf.
    destruct (append_process_staged signal _ _ _ _ _ _ _ (float32_converted t)
                (ltac:(by rewrite Htr)) Hproc)
      as (new & t' & Hnew & Ht' & Hst & Hstaged & Hch).
    destruct (Hch eq_refl) as [Hchained _].
    destruct (append_merge_frame _ _ _ _ Hmerge) as [[Hmt _ _ Hmi _ _] _].
    simpl. rewrite Hmt, Hmi, (pf_packets _ _ _ Hf), Htr. split; [done|].
    split; [intros q Hq; rewrite (pf_others _ _ _ Hf) by done; rewrite Htr; auto|].
    exists new, t'. rewrite Hnew, Hinv.
    repeat split; try done; try (by rewrite Hst, stats_float32_converted);
      try (by simplify_eq); exfalso; eauto.
Qed.

(** What an invocation recorded by [append_call] holds. *)
Lemma append_call_performs (p i : nat) (name : process) (opts : options)
      (mem : option (list nat)) (t : Trace) (st st' : State) (r : Result unit)
      (c : invocation) :
  traces st !! p = Some t ->
  append_call signal p i name opts mem st = (r, st') ->
  invocations st' = invocations st ++ [c] ->
  inv_entry c = i
  /\ match name with
     | Function _ call => inv_output c = call (inv_input c) opts
     | Name key =>
         exists func num,
           lookup_function signal (Py.lower key) = Some (func, num)
           /\ inv_output c
              = fst (func (mk_Trace (inv_input c) (stats t)) (inv_memory c) opts
                          (inv_store c))
     end.
Proof.
  intros Ht H Hinv.
  unfold append_call, bind, read_trace, get_memories in H. rewrite Ht in H.
  destruct name as [nm call|nm].
  - unfold record in H. simpl in H.
    assert (Hc : c = mk_invocation i None (memories st) (data t)
                                   (call (data t) opts)).
    { destruct (call (data t) opts) as [e|a] eqn:E.
      - unfold raise in H. simplify_eq. simpl in Hinv.
        apply app_inv_head in Hinv. by simplify_eq.
      - rewrite (assign_data_run _ _ t) in H by done. simplify_eq.
        simpl in Hinv. apply app_inv_head in Hinv. by simplify_eq. }
    by subst c.
  - destruct (lookup_function signal (Py.lower nm)) as [[func k]|] eqn:El.
    + destruct (func t mem opts (memories st)) as [out store'] eqn:E.
      unfold record, put_memories in H. simpl in H.
      assert (Hc : c = mk_invocation i mem (memories st) (data t) out).
      { destruct out as [e|a].
        - unfold raise in H. simplify_eq. simpl in Hinv.
          apply app_inv_head in Hinv. by simplify_eq.
        - rewrite (assign_data_run _ _ t) in H by done. simplify_eq.
          simpl in Hinv. apply app_inv_head in Hinv. by simplify_eq. }
      subst c. simpl. split; [done|]. exists func, k. split; [done|].
      replace (mk_Trace (data t) (stats t)) with t by (by destruct t).
      by rewrite E.
    + unfold raise in H. simplify_eq.
      apply (f_equal length) in Hinv. rewrite length_app in Hinv.
      simpl in Hinv. lia.
Qed.

Lemma performed_before (P P1 : list entry) (s : Stats) (i : nat) (c : invocation) :
  (forall j, j <> i -> P1 !! j = P !! j) ->
  (S i <= inv_entry c)%nat ->
  performed signal P1 s c -> performed signal P s c.
Proof.
  intros Hsame Hle (name & opts & mem & Hl & Hrest).
  exists name, opts, mem. split; [|done]. rewrite <- Hsame by lia. done.
Qed.

(** The loop over the registry calls the function of each entry it comes
    to, with the options of that entry. *)
Lemma append_process_performed (p : nat) (gap : bool) (procs : list entry)
      (i : nat) (st st' : State) (r : Result unit) (t : Trace) :
  drop i (processing (self st)) = procs ->
  traces st !! p = Some t ->
  append_process signal p gap i procs st = (r, st') ->
  exists new,
    invocations st' = invocations st ++ new
    /\ Forall (fun c => (i <= inv_entry c)%nat
                        /\ performed signal (processing (self st)) (stats t) c)
              new.
Proof.
  revert i st t. induction procs as [|proc rest IH]; intros i st t Hd Ht H.
  - simpl in H. unfold ret in H. simplify_eq.
    exists []. by rewrite app_nil_r.
  - assert (Hi : processing (self st) !! i = Some proc).
    { rewrite <- (Nat.add_0_r i). rewrite <- lookup_drop. by rewrite Hd. }
    assert (Hrest : drop (S i) (processing (self st)) = rest).
    { replace (S i) with (i + 1)%nat by lia. rewrite <- drop_drop. by rewrite Hd. }
    simpl in H. unfold bind in H.
    destruct (append_apply signal p gap i proc st) as [r1 st1] eqn:E.
    unfold append_apply, bind in E.
    destruct proc as [[name opts] mem].
    (* the state in which the processing function is called *)
    assert (Hcall : exists mem1 st0,
               append_call signal p i name opts mem1 st0 = (r1, st1)
               /\ traces st0 = traces st
               /\ invocations st0 = invocations st
               /\ processing (self st0)
                  = <[i := (name, opts, mem1)]> (processing (self st))).
    { destruct mem as [l|]; [destruct gap|].
      - rewrite append_clear_gap in E. eexists _, _. split; [exact E|].
        by repeat split.
      - rewrite append_clear_keep in E by auto. eexists _, _. split; [exact E|].
        repeat split; try done. by rewrite list_insert_id.
      - rewrite append_clear_keep in E by auto. eexists _, _. split; [exact E|].
        repeat split; try done. by rewrite list_insert_id. }
    destruct Hcall as (mem1 & st0 & Hcall & Htr & Hinv & Hreg).
    assert (Ht0 : traces st0 !! p = Some t) by (by rewrite Htr).
    pose proof (append_call_outcome signal p i name opts mem1 t st0 Ht0) as Ho.
    pose proof (append_call_self _ _ _ _ _ _ _ _ _ Hcall) as Hself.
    assert (Hdone : forall c,
               invocations st1 = invocations st0 ++ [c] ->
               (i <= inv_entry c)%nat
               /\ performed signal (processing (self st)) (stats t) c).
    { intros c Hc.
      destruct (append_call_performs p i name opts mem1 t st0 st1 r1 c Ht0 Hcall Hc)
        as [He Hout].
      split; [lia|]. exists name, opts, mem. by rewrite He. }
    assert (Hsame : forall j, j <> i ->
               processing (self st1) !! j = processing (self st) !! j).
    { intros j Hj. rewrite Hself, Hreg. by apply list_lookup_insert_ne. }
    rewrite Hcall in Ho. simpl in Ho.
    inversion Ho as [c a store Hc Hm Hs Hin Hout Hr Hst
                    | c e store Hc Hm Hs Hin Hout Hr Hst
                    | key Hr Hst]; subst r1.
    + apply IH with (t := set_data t a) in H;
        [| rewrite Hself, Hreg; by rewrite drop_insert_lt by lia
         | rewrite <- Hst; simpl; apply list_lookup_insert_eq;
           by eapply lookup_lt_Some].
      destruct H as (new & Hnew & Hall).
      exists (c :: new). rewrite Hnew, <- Hst. simpl. rewrite Hinv, <- app_assoc.
      split; [done|]. constructor.
      * apply Hdone. by rewrite <- Hst.
      * eapply Forall_impl; [exact Hall|]. intros c' [Hle Hp]. split; [lia|].
        eapply performed_before; [exact Hsame|exact Hle|exact Hp].
    + pose proof (Hdone c (eq_sym (f_equal invocations Hst))) as Hperf.
      simplify_eq. exists [c]. split; [by rewrite <- Hinv|].
      constructor; [exact Hperf|constructor].
    + simplify_eq. exists []. split; [by rewrite app_nil_r|]. constructor.
Qed.

(** Every invocation made during a call of [append] is the call of a
    registered entry on the packet. *)
Lemma append_performs (p : nat) (strict verbose : bool) (st st' : State)
      (t : Trace) (r : Result value) :
  traces st !! p = Some t ->
  append signal p strict verbose st = (r, st') ->
  exists new,
    invocations st' = invocations st ++ new
    /\ Forall (performed signal (processing (self st)) (stats t)) new.
Proof.
  intros Ht H. apply (append_runs signal _ _ _ _ _ t) in H; [|done].
  assert (Ht0 : traces (with_packet st p (float32_converted t)) !! p
                = Some (float32_converted t)) by (by eapply with_packet_lookup).
  assert (Hloop : forall g st1 st2 r2,
             append_check_times p strict verbose
               (with_packet st p (float32_converted t)) = (inr g, st1) ->
             append_process signal p (bool_decide (g ≠ None)) 0
               (processing (self st1)) st1 = (r2, st2) ->
             exists new,
               invocations st2 = invocations st ++ new
               /\ Forall (performed signal (processing (self st)) (stats t)) new).
  { intros g st1 st2 r2 Hchk Hproc.
    destruct (append_check_times_inv _ _ _ _ _ _ Hchk)
      as (Htr & _ & Hinv & _ & Hself).
    assert (Hp : processing (self st1) = processing (self st)).
    { by destruct Hself as [-> | (t1 & _ & _ & _ & _ & _ & ->)]. }
    destruct (append_process_performed p _ _ 0 st1 st2 r2 (float32_converted t)
                eq_refl (ltac:(by rewrite Htr)) Hproc) as (new & Hnew & Hall).
    exists new. rewrite Hnew, Hinv. split; [done|].
    eapply Forall_impl; [exact Hall|]. intros c [_ Hc].
    by rewrite Hp, stats_float32_converted in Hc. }
  inversion H as [e Hrej | e st1 Hok Hchk | g st1 st2 e Hok Hchk Hproc
                  | g st1 st2 st3 e Hok Hchk Hproc Hmerge
                  | g st1 st2 st3 Hok Hchk Hproc Hmerge]; subst.
  - exists []. by rewrite app_nil_r.
  - destruct (append_check_times_inv _ _ _ _ _ _ Hchk) as (_ & _ & Hinv & _).
    exists []. by rewrite app_nil_r, Hinv.
  - by eapply Hloop.
  - destruct (append_merge_frame _ _ _ _ Hmerge) as [[_ _ _ Hmi _ _] _].
    rewrite Hmi. by eapply Hloop.
  - destruct (append_merge_frame _ _ _ _ Hmerge) as [[_ _ _ Hmi _ _] _].
    simpl. rewrite Hmi. by eapply Hloop.
Qed.

(** C10: [append] works on the caller's packet object itself.  For every
    call on a packet reference, with any outcome: no packet object is
    created and no other packet changes; the packet keeps its header; its
    data is first replaced by the float32 conversion (so a call rejected
    by the sanity checks leaves the converted packet behind, no processing
    function having been invoked); then the registered entries are invoked
    in the order of the registry, one invocation for each of the entries
    [0], [1], ... up to the one that raises, each invocation being the
    call of that entry's function, which receives the packet's current
    array and whose return value replaces it; a call that returns has
    invoked every entry, leaves in the packet what the last one returned,
    and hands back the reference to that very packet. *)
Theorem C10_append_mutates_the_packet_in_place
        (st st' : State) (p : nat) (t : Trace) (gap_overlap_check verbose : bool)
        (r : Result value) :
  traces st !! p = Some t ->
  append signal p gap_overlap_check verbose st = (r, st') ->
  length (traces st') = length (traces st)
  /\ (forall q, q <> p -> traces st' !! q = traces st !! q)
  /\ exists new t',
      invocations st' = invocations st ++ new
      /\ map inv_entry new = seq 0 (length new)
      /\ (length new <= length (processing (self st)))%nat
      /\ Forall (performed signal (processing (self st)) (stats t)) new
      /\ traces st' !! p = Some t'
      /\ stats t' = stats t
      /\ staged (data (float32_converted t)) new (data t')
      /\ (forall v, r = inr v ->
                    v = Ref_Trace p
                    /\ length new = length (processing (self st))
                    /\ chained (data (float32_converted t)) new (data t'))
      /\ (have_appended_data (self st) = true -> ~ headers_match (self st) t ->
          new = [] /\ t' = float32_converted t /\ exists e, r = inl e).
Proof.
  intros Ht H.
  destruct (append_packet_in_place st st' p t gap_overlap_check verbose r Ht H)
    as (Hlen & Hothers & new & t' & Hnew & Ht' & Hstats & Hstaged & Hret & Hrej).
  destruct (append_calls signal _ _ _ _ _ _ H)
    as (new1 & Hnew1 & Hord & Hle & Hall & _).
  destruct (append_performs p _ _ _ _ t r Ht H) as (new2 & Hnew2 & Hperf).
  assert (new1 = new) as ->.
  { apply (app_inv_head (invocations st)). by rewrite <- Hnew, <- Hnew1. }
  assert (new2 = new) as ->.
  { apply (app_inv_head (invocations st)). by rewrite <- Hnew, <- Hnew2. }
  split; [done|]. split; [done|]. exists new, t'.
  do 7 (split; [done|]). split; [|done].
  intros v Hv. destruct (Hret v Hv) as [Hv' Hch].
  split; [done|]. split; [by apply (Hall v)|done].
Qed.

End Packet.

Section Discontinuity.

Variable signal : signal_module.

Lemma append_from_pipeline_cleared (p : nat) (st st' : State) (t : Trace)
      (r : Result value) :
  traces st !! p = Some t ->
  append_from_pipeline signal p true st = (r, st') ->
  exists new,
    invocations st' = invocations st ++ new
    /\ Forall (memory_cleared (processing (self st)) (processing (self st'))) new.
Proof.
  intros Ht H. unfold append_from_pipeline, bind, get_self in H.
  destruct (append_process signal p true 0 (processing (self st)) st)
    as [r1 st1] eqn:E1.
  destruct (append_process_cleared signal p _ 0 st st1 r1 t eq_refl Ht E1)
    as (new & Hnew & Hall).
  assert (Hall' : Forall (memory_cleared (processing (self st))
                                         (processing (self st1))) new).
  { eapply Forall_impl; [exact Hall|]. by intros c [_ Hc]. }
  destruct r1 as [e|[]]; [simplify_eq; eauto|].
  destruct (append_merge p st1) as [r2 st2] eqn:E2.
  destruct (append_merge_frame _ _ _ _ E2) as [[_ _ _ Hi Hp _] _].
  destruct r2 as [e|[]]; unfold put_self, ret in H; simplify_eq; simpl;
    exists new; rewrite ?Hi, ?Hp; eauto.
Qed.

(** A gap or overlap that is not raised: whatever is invoked is invoked
    on cleared memory. *)
Lemma append_gap_clears_memory
        (st st' : State) (p : nat) (t : Trace) (verbose : bool)
        (r : Result value) :
  have_appended_data (self st) = true ->
  traces st !! p = Some t ->
  headers_match (self st) t ->
  ~ sampling_rate (stats (base (self st))) == 0 ->
  delta_of (self st) t < - (1 # 10) \/ 1 # 10 < delta_of (self st) t ->
  append signal p false verbose st = (r, st') ->
  exists new,
    invocations st' = invocations st ++ new
    /\ Forall (memory_cleared (processing (self st)) (processing (self st'))) new.
Proof.
  intros Hs Ht Hm Hsr Hd H.
  assert (Ht0 : forall ls,
             traces (with_output (with_packet st p (float32_converted t)) ls) !! p
             = Some (float32_converted t)).
  { intros ls. simpl. by eapply with_packet_lookup. }
  destruct Hd as [Hlt|Hgt].
  - rewrite (append_overlap_lenient signal st p t) in H by done.
    by eapply append_from_pipeline_cleared in H.
  - rewrite (append_gap_lenient signal st p t) in H by done.
    by eapply append_from_pipeline_cleared in H.
Qed.

(** C2: when [append] finds a gap or an overlap and does not raise it
    ([gap_overlap_check] clear), it goes through the registry in order,
    one invocation for each of the entries [0], [1], ... up to the one
    that raises, and through all of them in a call that returns; each
    invocation is the call of that entry's function, and for an entry
    that owns memory it is given new, empty memory only: the entry's
    references have been replaced, one new [RtMemory] object per slot,
    placed behind everything the store held at that moment, and the
    registry holds the new references afterwards; an entry without memory
    is invoked without, and stays as it was. *)
Theorem C2_memory_is_cleared_on_gap_or_overlap
        (st st' : State) (p : nat) (t : Trace) (verbose : bool)
        (r : Result value) :
  have_appended_data (self st) = true ->
  traces st !! p = Some t ->
  headers_match (self st) t ->
  ~ sampling_rate (stats (base (self st))) == 0 ->
  delta_of (self st) t < - (1 # 10) \/ 1 # 10 < delta_of (self st) t ->
  append signal p false verbose st = (r, st') ->
  exists new,
    invocations st' = invocations st ++ new
    /\ map inv_entry new = seq 0 (length new)
    /\ (length new <= length (processing (self st)))%nat
    /\ (forall v, r = inr v -> length new = length (processing (self st)))
    /\ Forall (performed signal (processing (self st)) (stats t)) new
    /\ Forall (memory_cleared (processing (self st)) (processing (self st'))) new.
Proof.
  intros Hs Ht Hm Hsr Hd H.
  destruct (append_gap_clears_memory st st' p t verbose r Hs Ht Hm Hsr Hd H)
    as (new & Hnew & Hcleared).
  destruct (append_calls signal _ _ _ _ _ _ H)
    as (new1 & Hnew1 & Hord & Hle & Hall & _).
  destruct (append_performs signal p _ _ _ _ t r Ht H) as (new2 & Hnew2 & Hperf).
  assert (new1 = new) as ->.
  { apply (app_inv_head (invocations st)). by rewrite <- Hnew, <- Hnew1. }
  assert (new2 = new) as ->.
  { apply (app_inv_head (invocations st)). by rewrite <- Hnew, <- Hnew2. }
  exists new. by repeat split.
Qed.

End Discontinuity.

Lemma Trace___add___returns (a b s : Trace) :
  Trace___add__ a b = inr s -> s = joined a b.
Proof.
  unfold Trace___add__, joined. intros H. repeat case_match; by simplify_eq.
Qed.

Lemma Trace___add___matching (a b : Trace) :
  getId a = getId b ->
  sampling_rate (stats a) == sampling_rate (stats b) ->
  calib (stats a) == calib (stats b) ->
  arr_dtype (data a) = arr_dtype (data b) ->
  Trace___add__ a b = inr (joined a b).
Proof.
  intros Hid Hsr Hcal Hdt. unfold Trace___add__.
  apply Py_ne_false in Hsr, Hcal.
  by rewrite decide_True, Hsr, Hcal, decide_True.
Qed.

Lemma append_merge_unseeded (p : nat) (st : State) (t : Trace) :
  have_appended_data (self st) = false ->
  traces st !! p = Some t ->
  append_merge p st = (inr tt, with_base st t).
Proof.
  intros Hs Ht. unfold append_merge, bind, get_self, read_trace.
  rewrite Ht, Hs. simpl. rewrite np_array_id. by destruct t.
Qed.

Lemma append_merge_seeded (p : nat) (st : State) (t : Trace) :
  have_appended_data (self st) = true ->
  traces st !! p = Some t ->
  append_merge p st
  = match Trace___add__ (base (self st)) t with
    | inl e => (inl e, st)
    | inr _ => append_left_trim (with_base st (joined (base (self st)) t))
    end.
Proof.
  intros Hs Ht. unfold append_merge, bind, get_self, read_trace.
  rewrite Ht, Hs. simpl.
  destruct (Trace___add__ (base (self st)) t) as [e|s] eqn:E; [done|].
  apply Trace___add___returns in E. subst s. reflexivity.
Qed.

Lemma append_left_trim_unbounded (st : State) :
  max_length (self st) = None -> append_left_trim st = (inr tt, st).
Proof. intros H. unfold append_left_trim, bind, get_self. by rewrite H. Qed.

Section Drift.

Variable signal : signal_module.

(** Without a maximum length, a call that gets into the pipeline and
    returns leaves the start time of a seeded buffer where it was. *)
Lemma append_from_pipeline_starttime (p : nat) (gap : bool) (st st' : State)
      (v : value) :
  have_appended_data (self st) = true ->
  max_length (self st) = None ->
  append_from_pipeline signal p gap st = (inr v, st') ->
  starttime (stats (base (self st'))) = starttime (stats (base (self st))).
Proof.
  intros Hs Hmax H. unfold append_from_pipeline, bind, get_self in H.
  destruct (append_process signal p gap 0 (processing (self st)) st)
    as [[e|[]] st1] eqn:E1; [done|].
  pose proof (append_process_frame _ _ _ _ _ _ _ _ E1) as Hf.
  destruct (append_merge p st1) as [[e|[]] st2] eqn:E2; [done|].
  unfold put_self, ret in H. simplify_eq. simpl.
  rewrite <- (pf_base _ _ _ Hf).
  unfold append_merge, bind, get_self, read_trace in E2.
  destruct (traces st1 !! p) as [t|]; [|done].
  rewrite (pf_seeded _ _ _ Hf), Hs in E2. simpl in E2.
  destruct (Trace___add__ (base (self st1)) t) as [e|s]; [done|]. simpl in E2.
  unfold put_self in E2.
  rewrite append_left_trim_unbounded in E2
    by (simpl; by rewrite (pf_max_length _ _ _ Hf)).
  by simplify_eq.
Qed.

(** On an unseeded accumulator a call that returns adopts the header of
    the packet. *)
Lemma append_from_pipeline_adopts (p : nat) (gap : bool) (st st' : State)
      (t : Trace) (v : value) :
  have_appended_data (self st) = false ->
  traces st !! p = Some t ->
  append_from_pipeline signal p gap st = (inr v, st') ->
  stats (base (self st')) = stats t.
Proof.
  intros Hs Ht H. unfold append_from_pipeline, bind, get_self in H.
  destruct (append_process signal p gap 0 (processing (self st)) st)
    as [[e|[]] st1] eqn:E1; [done|].
  pose proof (append_process_frame _ _ _ _ _ _ _ _ E1) as Hf.
  destruct (pf_header _ _ _ Hf t Ht) as [a Ha].
  rewrite (append_merge_unseeded _ _ (set_data t a)) in H;
    [|by rewrite (pf_seeded _ _ _ Hf)|done].
  unfold put_self, ret in H. by simplify_eq.
Qed.

(** C4: on a seeded accumulator, for a packet that passes the sanity checks
    and is contiguous ([-0.1 <= delta <= 0.1]), [append] enters the pipeline
    with the start time of the buffer set to [starttime + diff - 1/sr], that
    is shifted by [diff - 1/sr], and a call that returns without trimming
    leaves it there; for a gap or an overlap that is not raised, and on an
    unseeded accumulator, the pipeline is entered with the buffer as it was:
    a call that returns leaves a seeded buffer's start time unchanged, and
    an unseeded one adopts the header of the packet. *)
Theorem C4_start_time_drift_correction
        (st : State) (p : nat) (t : Trace) (gap_overlap_check verbose : bool) :
  traces st !! p = Some t ->
  (have_appended_data (self st) = true ->
   headers_match (self st) t ->
   ~ sampling_rate (stats (base (self st))) == 0 ->
   (- (1 # 10) <= delta_of (self st) t -> delta_of (self st) t <= 1 # 10 ->
    append signal p gap_overlap_check verbose st
    = append_from_pipeline signal p false
        (with_output
           (with_starttime (with_packet st p (float32_converted t))
              (starttime (stats (base (self st))) + diff_of (self st) t
               - 1 / sampling_rate (stats (base (self st)))))
           (when verbose
              [check_line (self st) t;
               Line_adjusted
                 (diff_of (self st) t
                  - 1 / sampling_rate (stats (base (self st))))]))
    /\ starttime (stats (base (self st))) + diff_of (self st) t
       - 1 / sampling_rate (stats (base (self st)))
       == starttime (stats (base (self st)))
          + (diff_of (self st) t - 1 / sampling_rate (stats (base (self st))))
    /\ forall v st',
        max_length (self st) = None ->
        append signal p gap_overlap_check verbose st = (inr v, st') ->
        starttime (stats (base (self st')))
        = starttime (stats (base (self st))) + diff_of (self st) t
          - 1 / sampling_rate (stats (base (self st))))
   /\ (delta_of (self st) t < - (1 # 10) \/ 1 # 10 < delta_of (self st) t ->
       (exists lines,
           append signal p false verbose st
           = append_from_pipeline signal p true
               (with_output (with_packet st p (float32_converted t)) lines))
       /\ forall v st',
           max_length (self st) = None ->
           append signal p false verbose st = (inr v, st') ->
           starttime (stats (base (self st')))
           = starttime (stats (base (self st)))))
  /\ (have_appended_data (self st) = false ->
      append signal p gap_overlap_check verbose st
      = append_from_pipeline signal p false (with_packet st p (float32_converted t))
      /\ forall v st',
          append signal p gap_overlap_check verbose st = (inr v, st') ->
          stats (base (self st')) = stats t).
Proof.
  intros Ht. split.
  - intros Hs Hm Hsr. split.
    + intros Hlo Hhi.
      rewrite (append_contiguous signal st p t) by done.
      split; [done|]. split; [ring|].
      intros v st' Hmax H.
      by apply append_from_pipeline_starttime in H.
    + intros Hd. split.
      * destruct Hd as [Hlt|Hgt].
        -- rewrite (append_overlap_lenient signal st p t) by done. by eexists.
        -- rewrite (append_gap_lenient signal st p t) by done. by eexists.
      * intros v st' Hmax H. destruct Hd as [Hlt|Hgt].
        -- rewrite (append_overlap_lenient signal st p t) in H by done.
           by apply append_from_pipeline_starttime in H.
        -- rewrite (append_gap_lenient signal st p t) in H by done.
           by apply append_from_pipeline_starttime in H.
  - intros Hs.
    assert (E : append signal p gap_overlap_check verbose st
                = append_from_pipeline signal p false
                    (with_packet st p (float32_converted t))).
    { rewrite (append_checked _ _ _ _ _ t) by (done || congruence).
      unfold bind. by rewrite append_check_times_unseeded. }
    split; [done|].
    intros v st' H. rewrite E in H.
    apply (append_from_pipeline_adopts _ _ _ _ (float32_converted t)) in H;
      [|done|by eapply with_packet_lookup].
    by rewrite H, stats_float32_converted.
Qed.

End Drift.

Section Failure.

Variable signal : signal_module.

Lemma set_starttime_shifted (rt : RtTrace) (t0 : Q) :
  set_starttime (stats (base (shifted rt t0))) (starttime (stats (base rt)))
  = stats (base rt).
Proof. unfold shifted. simpl. unfold set_starttime. simpl. by destruct (stats (base rt)). Qed.

Lemma set_starttime_same (s : Stats) : set_starttime s (starttime s) = s.
Proof. by destruct s. Qed.

Lemma append_sanity_checks_raises (p : nat) (st st' : State) (t : Trace)
      (e : exn) :
  traces st !! p = Some t ->
  append_sanity_checks p st = (inl e, st') ->
  ~ pipeline_error e /\ ~ continuity_error e.
Proof.
  intros Ht H.
  unfold append_sanity_checks, bind, get_self, read_trace, ret, raise in H.
  repeat (case_match; simplify_eq/=); try congruence; simpl; tauto.
Qed.

Lemma append_check_times_raises (p : nat) (strict verbose : bool)
      (st st' : State) (t : Trace) (e : exn) :
  traces st !! p = Some t ->
  append_check_times p strict verbose st = (inl e, st') -> ~ pipeline_error e.
Proof.
  intros Ht H.
  unfold append_check_times, bind, get_self, read_trace, truediv, ret, raise,
    print, put_self in H.
  repeat (case_match; simplify_eq/=); try congruence; simpl; tauto.
Qed.

(** A seeded accumulator whose sampling rate is zero does not get past the
    classification: every path through it divides by the rate. *)
Lemma append_check_times_rate (p : nat) (strict verbose : bool)
      (st st' : State) (t : Trace) (g : option message) :
  have_appended_data (self st) = true ->
  traces st !! p = Some t ->
  append_check_times p strict verbose st = (inr g, st') ->
  ~ sampling_rate (stats (base (self st))) == 0.
Proof.
  intros Hs Ht H Hz. apply Qeq_bool_iff in Hz.
  unfold append_check_times, bind, get_self, read_trace, truediv in H.
  rewrite Hs, Ht, Hz in H. unfold raise, ret in H.
  destruct verbose; [by simplify_eq|].
  repeat case_match; by simplify_eq.
Qed.

Lemma append_merge_raises (p : nat) (st st' : State) (t : Trace) (e : exn) :
  traces st !! p = Some t ->
  append_merge p st = (inl e, st') -> ~ pipeline_error e.
Proof.
  intros Ht H. unfold append_merge, bind, get_self, read_trace in H.
  rewrite Ht in H.
  destruct (have_appended_data (self st)); simpl in H; [|by simplify_eq].
  destruct (Trace___add__ (base (self st)) t) as [e1|sum] eqn:E; simpl in H.
  - unfold raise in H. simplify_eq. apply Trace___add___error in E. tauto.
  - unfold ret, put_self in H.
    apply append_left_trim_error in H. subst. simpl. tauto.
Qed.

(** C6 (amended): what a call of [append] that raises before the merge
    leaves of the buffer.  If the packet does not match the header of a
    seeded accumulator, the call raises out of the sanity checks and the
    accumulator is exactly what it was.  If a gap or an overlap is raised
    under [gap_overlap_check], the accumulator is exactly what it was.  If
    the exception comes out of the pipeline, the samples of the buffer,
    its sample count, every header field other than the start time and
    the flags of the accumulator are what they were; the start time is
    unchanged, and so the buffer exactly what it was, on an unseeded
    accumulator and after a gap or an overlap ([delta] outside
    [[-0.1, 0.1]]), and it has been moved to [starttime + diff - 1/sr]
    when the packet was contiguous. *)
Theorem C6_failure_before_merge_keeps_the_samples
        (st st' : State) (p : nat) (t : Trace) (gap_overlap_check verbose : bool)
        (e : exn) :
  traces st !! p = Some t ->
  append signal p gap_overlap_check verbose st = (inl e, st') ->
  (have_appended_data (self st) = true -> ~ headers_match (self st) t ->
   self st' = self st /\ ~ pipeline_error e /\ ~ continuity_error e)
  /\ (continuity_error e -> self st' = self st)
  /\ (pipeline_error e ->
      data (base (self st')) = data (base (self st))
      /\ npts (stats (base (self st'))) = npts (stats (base (self st)))
      /\ set_starttime (stats (base (self st')))
                       (starttime (stats (base (self st))))
         = stats (base (self st))
      /\ have_appended_data (self st') = have_appended_data (self st)
      /\ max_length (self st') = max_length (self st)
      /\ (have_appended_data (self st) = false ->
          base (self st') = base (self st))
      /\ (have_appended_data (self st) = true ->
          delta_of (self st) t < - (1 # 10) \/ 1 # 10 < delta_of (self st) t ->
          base (self st') = base (self st))
      /\ (have_appended_data (self st) = true ->
          - (1 # 10) <= delta_of (self st) t ->
          delta_of (self st) t <= 1 # 10 ->
          base (self st')
          = base (shifted (self st)
                    (starttime (stats (base (self st))) + diff_of (self st) t
                     - 1 / sampling_rate (stats (base (self st))))))).
Proof.
  intros Ht H. apply (append_runs signal _ _ _ _ _ t) in H; [|done].
  assert (Ht0 : traces (with_packet st p (float32_converted t)) !! p
                = Some (float32_converted t)) by (by eapply with_packet_lookup).
  destruct (classified_figures st t) as (Hdelta & Hdiff & _).
  inversion H as [e0 Hrej | e0 st1 Hok Hchk | g st1 st2 e0 Hok Hchk Hproc
                  | g st1 st2 st3 e0 Hok Hchk Hproc Hmerge
                  | ]; subst.
  - (* raised by the sanity checks *)
    destruct (append_sanity_checks_raises _ _ _ _ _ Ht0 Hrej) as [Hnp Hnc].
    split; [done|]. split; [done|]. intros He. by destruct Hnp.
  - (* raised by the classification *)
    destruct (append_check_times_inv _ _ _ _ _ _ Hchk) as (_ & _ & _ & Herr & _).
    pose proof (append_check_times_raises _ _ _ _ _ _ _ Ht0 Hchk) as Hnp.
    split.
    { intros Hs Hm.
      destruct (append_sanity_checks_reject
                  (with_packet st p (float32_converted t)) p t Hs Ht0 Hm)
        as (e1 & He1 & _). congruence. }
    split; [intros _; by rewrite (Herr e eq_refl)|].
    intros He. by destruct Hnp.
  - (* raised in the pipeline *)
    destruct (append_check_times_inv _ _ _ _ _ _ Hchk)
      as (Htr & _ & _ & _ & Hself).
    pose proof (append_process_frame _ _ _ _ _ _ _ _ Hproc) as Hf.
    pose proof (append_process_error _ _ _ _ _ _ _ _ Hproc) as He.
    split.
    { intros Hs Hm.
      destruct (append_sanity_checks_reject
                  (with_packet st p (float32_converted t)) p t Hs Ht0 Hm)
        as (e1 & He1 & _). congruence. }
    split; [intros Hc; destruct e; simpl in *; tauto|]. intros _.
    rewrite (pf_base _ _ _ Hf), (pf_seeded _ _ _ Hf), (pf_max_length _ _ _ Hf).
    change (self (with_packet st p (float32_converted t))) with (self st) in *.
    destruct Hself as [Hself | (t1 & Ht1 & Hs1 & Hlo & Hhi & _ & Hshift)].
    + (* the classification left the buffer alone *)
      rewrite Hself. split; [done|]. split; [done|].
      split; [apply set_starttime_same|]. split; [done|]. split; [done|].
      split; [done|]. split; [done|]. intros Hs Hlo Hhi.
      (* it cannot have: the packet is contiguous *)
      pose proof (append_check_times_rate
                    p _ _ (with_packet st p (float32_converted t)) _ _ _
                    Hs Ht0 Hchk) as Hsr.
      rewrite <- Hdelta in Hlo, Hhi.
      rewrite (append_check_times_contiguous
                 (with_packet st p (float32_converted t)) p
                 (float32_converted t) Hs Ht0 Hsr _ _ Hlo Hhi) in Hchk.
      injection Hchk as _ <-. rewrite <- Hdiff. symmetry. exact (f_equal base Hself).
    + rewrite Ht0 in Ht1. injection Ht1 as <-.
      rewrite Hdelta in Hlo, Hhi. rewrite Hdiff in Hshift. rewrite Hshift.
      split; [done|]. split; [done|].
      split; [apply set_starttime_shifted|]. split; [done|]. split; [done|].
      split; [intros Hs; congruence|].
      split; [|done]. intros _ [Hlt|Hgt]; exfalso.
      * by apply (Qlt_not_le _ _ Hlt).
      * by apply (Qlt_not_le _ _ Hgt).
  - (* raised by the merge *)
    destruct (append_check_times_inv _ _ _ _ _ _ Hchk) as (Htr & _).
    pose proof (append_process_frame _ _ _ _ _ _ _ _ Hproc) as Hf.
    destruct (pf_header _ _ _ Hf (float32_converted t)
                (ltac:(by rewrite Htr))) as (a & Ha).
    pose proof (append_merge_raises _ _ _ _ _ Ha Hmerge) as Hnp.
    pose proof (append_merge_error _ _ _ _ Hmerge) as Hnc.
    split.
    { intros Hs Hm.
      destruct (append_sanity_checks_reject
                  (with_packet st p (float32_converted t)) p t Hs Ht0 Hm)
        as (e1 & He1 & _). congruence. }
    split; [intros Hc; by destruct Hnc|]. intros He. by destruct Hnp.
Qed.

End Failure.

(** ** Splitting a series and appending the parts *)

Lemma Py_round_compat (x y : Q) : x == y -> Py.round x = Py.round y.
Proof.
  intros H. unfold Py.round.
  rewrite (Qleb_comp 0 0 (Qeq_refl 0) x y H).
  assert (H1 : x + (1 # 2) == y + (1 # 2)) by (by rewrite H).
  assert (H2 : - x + (1 # 2) == - y + (1 # 2)) by (by rewrite H).
  by rewrite (Qfloor_comp _ _ H1), (Qfloor_comp _ _ H2).
Qed.

Lemma Qfloor_half (z : Z) : Qfloor (inject_Z z + (1 # 2)) = z.
Proof.
  unfold Qfloor, Qplus, inject_Z. simpl.
  symmetry. apply (Z.div_unique _ _ _ 1); lia.
Qed.

Lemma Py_round_inject_Z (z : Z) : Py.round (inject_Z z) = z.
Proof.
  unfold Py.round. destruct (Qle_bool 0 (inject_Z z)).
  - apply Qfloor_half.
  - assert (H : - inject_Z z + (1 # 2) == inject_Z (- z) + (1 # 2)).
    { rewrite inject_Z_opp. reflexivity. }
    rewrite (Qfloor_comp _ _ H), Qfloor_half. lia.
Qed.

Lemma Py_round_integer (x : Q) (z : Z) : x == inject_Z z -> Py.round x = z.
Proof. intros H. rewrite (Py_round_compat _ _ H). apply Py_round_inject_Z. Qed.

Lemma inject_Z_minus (x y : Z) : inject_Z (x - y) = inject_Z x - inject_Z y.
Proof. unfold Z.sub. by rewrite inject_Z_plus, inject_Z_opp. Qed.

Lemma same_channel_refl (s : Stats) : same_channel s s.
Proof. unfold same_channel. by destruct s. Qed.

Lemma same_channel_fields (s s' : Stats) :
  same_channel s s' ->
  network s' = network s /\ station s' = station s /\ location s' = location s
  /\ channel s' = channel s /\ sampling_rate s' = sampling_rate s
  /\ calib s' = calib s.
Proof.
  unfold same_channel. intros H. destruct s, s'. simpl in *.
  injection H as -> -> -> -> -> -> _. by repeat split.
Qed.

Lemma same_channel_set_npts (s s' : Stats) (n : Z) :
  same_channel s s' -> same_channel s (set_npts s' n).
Proof. unfold same_channel. intros H. destruct s, s'. simpl in *. by simplify_eq. Qed.

Lemma same_channel_set_starttime (s s' : Stats) (t : Q) :
  same_channel s s' -> same_channel s (set_starttime s' t).
Proof. unfold same_channel. intros H. destruct s, s'. simpl in *. by simplify_eq. Qed.

Section Slicing.

Variable tr : Trace.
Hypothesis rate : 0 < sampling_rate (stats tr).
Hypothesis counted : npts (stats tr) = np.size (data tr).

Lemma rate_nonzero : ~ sampling_rate (stats tr) == 0.
Proof using rate. intros H. rewrite H in rate. by apply Qlt_irrefl in rate. Qed.

Lemma _ltrim_cut (a : Z) (start : Q) :
  (0 <= a)%Z ->
  start == starttime (stats tr) + inject_Z a / sampling_rate (stats tr) ->
  arr_values (data (_ltrim tr start)) = drop (Z.to_nat a) (arr_values (data tr))
  /\ arr_dtype (data (_ltrim tr start)) = arr_dtype (data tr)
  /\ npts (stats (_ltrim tr start)) = np.size (data (_ltrim tr start))
  /\ starttime (stats (_ltrim tr start))
     == starttime (stats tr) + inject_Z a / sampling_rate (stats tr)
  /\ same_channel (stats tr) (stats (_ltrim tr start)).
Proof using rate counted.
  intros Ha Hs. pose proof rate_nonzero as Hr. unfold _ltrim.
  rewrite (Py_round_integer _ a) by (rewrite Hs; field; exact Hr).
  destruct (0 <? a)%Z eqn:E.
  - simpl. repeat split; try done.
    + unfold delta. field. exact Hr.
    + apply same_channel_set_npts, same_channel_set_starttime, same_channel_refl.
  - apply Z.ltb_ge in E. assert (a = 0%Z) as -> by lia. simpl.
    repeat split; try done.
    + field. exact Hr.
    + apply same_channel_refl.
Qed.

End Slicing.

Lemma _rtrim_cut (t : Trace) (c : Z) (stop : Q) :
  npts (stats t) = np.size (data t) ->
  (endtime (stats t) - stop) * sampling_rate (stats t) == inject_Z c ->
  arr_values (data (_rtrim t stop))
  = take (Z.to_nat (npts (stats t) - c)) (arr_values (data t))
  /\ arr_dtype (data (_rtrim t stop)) = arr_dtype (data t)
  /\ npts (stats (_rtrim t stop)) = np.size (data (_rtrim t stop))
  /\ starttime (stats (_rtrim t stop)) = starttime (stats t)
  /\ same_channel (stats t) (stats (_rtrim t stop)).
Proof.
  intros Hn Hc. unfold _rtrim. rewrite (Py_round_integer _ c) by exact Hc.
  destruct (0 <? c)%Z eqn:E.
  - simpl. repeat split; try done.
    + f_equal. lia.
    + apply same_channel_set_npts, same_channel_refl.
  - apply Z.ltb_ge in E. repeat split; try done; [|apply same_channel_refl].
    rewrite take_ge; [done|]. rewrite Hn. unfold np.size. lia.
Qed.

Lemma same_channel_trans (s1 s2 s3 : Stats) :
  same_channel s1 s2 -> same_channel s2 s3 -> same_channel s1 s3.
Proof.
  unfold same_channel. intros H1 H2. destruct s1, s2, s3. simpl in *.
  injection H1 as -> -> -> -> -> -> ->. injection H2 as -> -> -> -> -> -> ->.
  reflexivity.
Qed.

Section Parts.

Variable tr : Trace.
Hypothesis rate : 0 < sampling_rate (stats tr).
Hypothesis counted : npts (stats tr) = np.size (data tr).

Lemma slice_cut (a b : Z) (start stop : Q) :
  (0 <= a)%Z ->
  start == starttime (stats tr) + inject_Z a / sampling_rate (stats tr) ->
  stop == starttime (stats tr) + inject_Z b / sampling_rate (stats tr) ->
  arr_values (data (slice tr start stop))
  = take (Z.to_nat (b - a + 1)) (drop (Z.to_nat a) (arr_values (data tr)))
  /\ arr_dtype (data (slice tr start stop)) = arr_dtype (data tr)
  /\ npts (stats (slice tr start stop)) = np.size (data (slice tr start stop))
  /\ starttime (stats (slice tr start stop))
     == starttime (stats tr) + inject_Z a / sampling_rate (stats tr)
  /\ same_channel (stats tr) (stats (slice tr start stop)).
Proof using rate counted.
  intros Ha Hstart Hstop. pose proof (rate_nonzero tr rate) as Hr.
  unfold slice. rewrite np_array_id.
  replace (mk_Trace (data tr) (stats tr)) with tr by (by destruct tr).
  destruct (_ltrim_cut tr rate counted a start Ha Hstart)
    as (Hv & Hd & Hn & Hs & Hc).
  destruct (same_channel_fields _ _ Hc) as (_ & _ & _ & _ & Hsr & _).
  destruct (_rtrim_cut (_ltrim tr start)
              (a + (npts (stats (_ltrim tr start)) - 1) - b) stop Hn)
    as (Hv' & Hd' & Hn' & Hs' & Hc').
  { unfold endtime. rewrite Hsr, Hs, Hstop.
    rewrite !inject_Z_minus, !inject_Z_plus, !inject_Z_minus.
    field. exact Hr. }
  rewrite Hv', Hd', Hs', Hv. repeat split; try done.
  - f_equal. lia.
  - by eapply same_channel_trans.
Qed.

(** The times of the loop of [_splitTrace] stay on the sampling grid, and
    each round cuts the next run of [packet_length + 1] samples. *)
Lemma _splitTrace_loop_parts (packet_length : Z) (count i : nat)
      (tstart tend : Q) :
  (-1 <= packet_length)%Z ->
  tstart == starttime (stats tr)
            + inject_Z (Z.of_nat (i * Z.to_nat (packet_length + 1)))
              / sampling_rate (stats tr) ->
  tend == starttime (stats tr)
          + inject_Z (Z.of_nat (i * Z.to_nat (packet_length + 1)) + packet_length)
            / sampling_rate (stats tr) ->
  Forall2 (is_part tr (Z.to_nat (packet_length + 1))) (seq i count)
          (_splitTrace_loop tr packet_length count tstart tend).
Proof using rate counted.
  intros Hp. pose proof (rate_nonzero tr rate) as Hr.
  revert i tstart tend. induction count as [|count IH]; intros i tstart tend Hs He.
  - constructor.
  - simpl. constructor.
    + destruct (slice_cut _ _ tstart tend (Nat2Z.is_nonneg _) Hs He)
        as (Hv & Hd & Hn & Hst & Hc).
      unfold is_part. rewrite Hv, Hd. repeat split; try done.
      rewrite Nat2Z.id. f_equal. lia.
    + apply IH.
      * rewrite He. unfold delta.
        replace (Z.of_nat (S i * Z.to_nat (packet_length + 1)))
          with (Z.of_nat (i * Z.to_nat (packet_length + 1)) + packet_length + 1)%Z
          by lia.
        rewrite !inject_Z_plus. field. exact Hr.
      * rewrite He. unfold delta.
        replace (Z.of_nat (S i * Z.to_nat (packet_length + 1)))
          with (Z.of_nat (i * Z.to_nat (packet_length + 1)) + packet_length + 1)%Z
          by lia.
        rewrite !inject_Z_plus. field. exact Hr.
Qed.

End Parts.

(** What [_splitTrace] returns for a positive count: consecutive runs of one
    length, which together cover the series. *)
Lemma _splitTrace_parts (tr : Trace) (num : Z) (parts : list Trace) :
  0 < sampling_rate (stats tr) ->
  npts (stats tr) = np.size (data tr) ->
  (0 < num)%Z ->
  _splitTrace tr num = inr parts ->
  exists len : nat,
    Forall2 (is_part tr len) (seq 0 (Z.to_nat num)) parts
    /\ (length (arr_values (data tr)) <= Z.to_nat num * len)%nat.
Proof.
  intros Hr Hn Hnum H. unfold _splitTrace in H.
  destruct (num =? 0)%Z eqn:E0; [apply Z.eqb_eq in E0; lia|].
  injection H as <-.
  pose proof (Z.div_mod (np.size (data tr)) num ltac:(lia)) as Hdm.
  pose proof (Z.mod_pos_bound (np.size (data tr)) num Hnum) as Hmod.
  assert (Hsize : (0 <= np.size (data tr))%Z) by (unfold np.size; lia).
  assert (Hdiv : (0 <= np.size (data tr) / num)%Z) by (apply Z.div_pos; lia).
  set (packet_length :=
         if (np.size (data tr) mod num =? 0)%Z
         then (np.size (data tr) / num - 1)%Z
         else (np.size (data tr) / num)%Z) in *.
  assert (Hp : (-1 <= packet_length)%Z).
  { unfold packet_length. clear - Hdiv.
    destruct (np.size (data tr) mod num =? 0)%Z; lia. }
  exists (Z.to_nat (packet_length + 1)). split.
  - apply _splitTrace_loop_parts; try done.
    + rewrite Nat.mul_0_l. change (inject_Z (Z.of_nat 0)) with 0.
      field. by apply rate_nonzero.
    + rewrite Nat.mul_0_l. change (Z.of_nat 0 + packet_length)%Z with packet_length.
      unfold delta. field. by apply rate_nonzero.
  - assert (Hcover : (np.size (data tr) <= num * (packet_length + 1))%Z).
    { unfold packet_length. clear - Hdm Hmod Hnum.
      destruct (np.size (data tr) mod num =? 0)%Z eqn:E.
      - apply Z.eqb_eq in E. nia.
      - nia. }
    clear - Hcover Hp Hnum. unfold np.size in Hcover. nia.
Qed.

Section Steps.

Variable signal : signal_module.

(** The first packet, on an accumulator without processing. *)
Lemma append_seeds (st : State) (p : nat) (t : Trace) (strict verbose : bool) :
  have_appended_data (self st) = false ->
  processing (self st) = [] ->
  traces st !! p = Some t ->
  append signal p strict verbose st
  = (inr (Ref_Trace p),
     mk_State (mk_RtTrace (max_length (self st)) true [] (float32_converted t))
              (<[p := float32_converted t]> (traces st))
              (memories st) (stdout st) (invocations st)).
Proof.
  intros Hs Hp Ht.
  rewrite (append_checked _ _ _ _ _ t) by (done || congruence).
  unfold bind. rewrite append_check_times_unseeded by done.
  rewrite (append_from_pipeline_empty _ _ _ _ (float32_converted t));
    [done|done|done|by eapply with_packet_lookup].
Qed.

(** A contiguous packet, on a seeded accumulator without processing and
    without maximum length. *)
Lemma append_extends (st : State) (p : nat) (t : Trace) (strict : bool) :
  have_appended_data (self st) = true ->
  processing (self st) = [] ->
  max_length (self st) = None ->
  traces st !! p = Some t ->
  headers_match (self st) t ->
  ~ sampling_rate (stats (base (self st))) == 0 ->
  delta_of (self st) t == 0 ->
  append signal p strict false st
  = (inr (Ref_Trace p),
     mk_State
       (mk_RtTrace None true []
          (joined
             (set_stats (base (self st))
                (set_starttime (stats (base (self st)))
                   (starttime (stats (base (self st))) + diff_of (self st) t
                    - 1 / sampling_rate (stats (base (self st))))))
             (float32_converted t)))
       (<[p := float32_converted t]> (traces st))
       (memories st) (stdout st) (invocations st)).
Proof.
  intros Hs Hp Hmax Ht Hm Hr Hd.
  rewrite (append_contiguous signal st p t Hs Ht Hm Hr)
    by (rewrite Hd; by vm_compute).
  unfold append_from_pipeline, bind, get_self. simpl. rewrite Hp. simpl.
  rewrite (append_merge_seeded _ _ (float32_converted t));
    [|done|simpl; by eapply with_packet_lookup].
  destruct Hm as (Hid & Hsr & Hcal & Hdt).
  rewrite Trace___add___matching; simpl; try done;
    try (by rewrite ?getId_float32_converted, ?stats_float32_converted).
  rewrite append_left_trim_unbounded by done.
  unfold put_self, ret, with_base, set_have_appended_data, set_base. simpl.
  rewrite Hp, Hmax, app_nil_r. reflexivity.
Qed.

End Steps.

Lemma dtype_float32_converted (t : Trace) :
  arr_dtype (data (float32_converted t))
  = if is_f4 (arr_dtype (data t)) then np.float32 else arr_dtype (data t).
Proof. unfold float32_converted. by destruct (is_f4 _). Qed.

Lemma getId_same_channel (a b : Trace) :
  same_channel (stats a) (stats b) -> getId b = getId a.
Proof.
  intros H. destruct (same_channel_fields _ _ H) as (H1 & H2 & H3 & H4 & _).
  unfold getId. by rewrite H1, H2, H3, H4.
Qed.

Section Assembly.

Variable signal : signal_module.
Variable tr : Trace.
Variable len : nat.
Hypothesis rate : 0 < sampling_rate (stats tr).

Lemma assembled_first (part : Trace) :
  is_part tr len 0 part ->
  assembled tr len 1 (mk_RtTrace None true [] (float32_converted part)).
Proof using rate.
  intros (Hv & Hd & Hn & Hs & Hc). unfold assembled. simpl.
  rewrite values_float32_converted, stats_float32_converted,
    !dtype_float32_converted, Hd.
  repeat split; try done.
  - rewrite Hv. simpl. by rewrite Nat.add_0_r.
  - rewrite Hn. unfold np.size. by rewrite values_float32_converted.
  - rewrite Hs. simpl. field. by apply rate_nonzero.
Qed.

Lemma assembled_next (st : State) (k : nat) (part : Trace) :
  assembled tr len k (self st) ->
  traces st !! k = Some part ->
  is_part tr len k part ->
  arr_values (data part) <> [] ->
  exists st',
    append signal k true false st = (inr (Ref_Trace k), st')
    /\ assembled tr len (S k) (self st')
    /\ traces st' = <[k := float32_converted part]> (traces st).
Proof using rate.
  intros (Hs & Hp & Hmax & Hv & Hd & Hn & Hst & Hc) Ht
         (Hpv & Hpd & Hpn & Hps & Hpc) Hne.
  pose proof (rate_nonzero tr rate) as Hr.
  destruct (same_channel_fields _ _ Hc) as (_ & _ & _ & _ & Hsr & Hcal).
  destruct (same_channel_fields _ _ Hpc) as (_ & _ & _ & _ & Hpsr & Hpcal).
  (* the buffer holds exactly [k * len] samples *)
  assert (Hlen : (k * len < length (arr_values (data tr)))%nat).
  { destruct (decide (k * len < length (arr_values (data tr)))%nat); [done|].
    exfalso. apply Hne. rewrite Hpv, drop_ge by lia. by rewrite take_nil. }
  assert (Hcount : npts (stats (base (self st))) = Z.of_nat (k * len)).
  { rewrite Hn. unfold np.size. rewrite Hv, length_take. lia. }
  assert (Hdiff : diff_of (self st) part == 1 / sampling_rate (stats tr)).
  { unfold diff_of, endtime. rewrite Hps, Hst, Hsr, Hcount, inject_Z_minus.
    field. exact Hr. }
  eexists. split; [|split].
  - apply append_extends; try done.
    + unfold headers_match. rewrite dtype_float32_converted, Hpd.
      rewrite dtype_float32_converted in Hd.
      rewrite Hsr, Hpsr, Hcal, Hpcal.
      rewrite (getId_same_channel tr part Hpc).
      pose proof (getId_same_channel tr (base (self st)) Hc) as ->.
      done.
    + by rewrite Hsr.
    + unfold delta_of. rewrite Hdiff, Hsr. field. exact Hr.
  - unfold assembled, joined. simpl.
    rewrite values_float32_converted, Hv, Hpv, Hd.
    repeat split; try done.
    + rewrite take_take_drop. f_equal. lia.
    + rewrite Hdiff, Hst, Hsr. field. exact Hr.
  - reflexivity.
Qed.

End Assembly.

Section RoundTrip.

Variable signal : signal_module.

Lemma append_each_parts (tr : Trace) (len m : nat) :
  0 < sampling_rate (stats tr) ->
  forall (k : nat) (st : State),
    assembled tr len k (self st) ->
    (forall j, (k <= j < k + m)%nat ->
               exists part, traces st !! j = Some part
                            /\ is_part tr len j part
                            /\ arr_values (data part) <> []) ->
    exists st',
      append_each signal (seq k m) true false st = (inr tt, st')
      /\ assembled tr len (k + m) (self st').
Proof.
  intros Hr. induction m as [|m IH]; intros k st Ha Hparts.
  - exists st. rewrite Nat.add_0_r. by split.
  - destruct (Hparts k ltac:(lia)) as (part & Ht & Hp & Hne).
    destruct (assembled_next signal tr len Hr st k part Ha Ht Hp Hne)
      as (st1 & Hrun & Ha1 & Htr).
    destruct (IH (S k) st1 Ha1) as (st' & Hrest & Ha').
    { intros j Hj. rewrite Htr, list_lookup_insert_ne by lia.
      apply Hparts. lia. }
    exists st'. simpl. unfold bind. rewrite Hrun, Hrest.
    split; [done|]. by replace (k + S m)%nat with (S k + m)%nat by lia.
Qed.

(** C7: if [_splitTrace] cuts a series (positive sampling rate, sample
    count in the header equal to the number of samples) into [num] parts,
    none of them empty, then appending the parts in their order to a fresh
    accumulator without processing and without maximum length, under
    [gap_overlap_check], raises nothing and leaves a buffer with the samples
    of the series, as many as the series has. *)
Theorem C7_split_then_append_restores_the_series
        (tr : Trace) (num : Z) (parts : list Trace) (st : State) :
  0 < sampling_rate (stats tr) ->
  npts (stats tr) = np.size (data tr) ->
  _splitTrace tr num = inr parts ->
  Z.of_nat (length parts) = num ->
  Forall (fun part => arr_values (data part) <> []) parts ->
  have_appended_data (self st) = false ->
  processing (self st) = [] ->
  max_length (self st) = None ->
  traces st = parts ->
  exists st',
    append_each signal (seq 0 (length parts)) true false st = (inr tt, st')
    /\ arr_values (data (base (self st'))) = arr_values (data tr)
    /\ np.size (data (base (self st'))) = np.size (data tr)
    /\ npts (stats (base (self st'))) = npts (stats tr).
Proof.
  intros Hr Hn Hsplit Hnum Hne Hs Hp Hmax Htr.
  assert (Hpos : (0 < num)%Z).
  { destruct parts; [|simpl in Hnum; lia]. simpl in Hnum. subst num.
    by unfold _splitTrace in Hsplit. }
  destruct (_splitTrace_parts tr num parts Hr Hn Hpos Hsplit)
    as (len & Hparts & Hcover).
  assert (Hcount : Z.to_nat num = length parts) by lia.
  rewrite Hcount in Hparts, Hcover.
  (* every part is the run of its index, and is not empty *)
  assert (Hpart : forall j, (j < length parts)%nat ->
                            exists part, traces st !! j = Some part
                                         /\ is_part tr len j part
                                         /\ arr_values (data part) <> []).
  { intros j Hj. rewrite Htr.
    destruct (lookup_lt_is_Some_2 parts j Hj) as [part Hl].
    exists part. split; [done|]. split.
    - destruct (Forall2_lookup_r _ _ _ _ _ Hparts Hl) as (j' & Hj' & Hp').
      apply lookup_seq in Hj' as [-> _]. exact Hp'.
    - by eapply (Forall_lookup_1 _ _ _ _ Hne). }
  destruct parts as [|part0 rest]; [simpl in Hnum; lia|].
  destruct (Hpart 0%nat ltac:(simpl; lia)) as (part & Ht0 & Hp0 & _).
  simpl. unfold bind.
  rewrite (append_seeds signal st 0 part true false Hs Hp Ht0). rewrite Hmax.
  destruct (append_each_parts tr len (length rest) Hr 1
              (mk_State (mk_RtTrace None true [] (float32_converted part))
                        (<[0%nat := float32_converted part]> (traces st))
                        (memories st) (stdout st) (invocations st)))
    as (st' & Hrun & Ha).
  { by apply assembled_first. }
  { intros j Hj. simpl. rewrite list_lookup_insert_ne by lia.
    apply Hpart. simpl. lia. }
  exists st'. split; [exact Hrun|].
  destruct Ha as (_ & _ & _ & Hv & _ & Hnp & _).
  assert (Hall : arr_values (data (base (self st'))) = arr_values (data tr)).
  { rewrite Hv. apply take_ge. simpl in Hcover. lia. }
  split; [done|]. split.
  - unfold np.size. by rewrite Hall.
  - rewrite Hnp, Hn. unfold np.size. by rewrite Hall.
Qed.

End RoundTrip.

Lemma Py_int_nonneg (x : Q) : 0 <= x -> (0 <= Py.int x)%Z.
Proof.
  intros H. unfold Py.int. apply Z.quot_pos; [|lia].
  unfold Qle in H. simpl in H. lia.
Qed.

(** The left trim, where it runs: the buffer keeps its most recent
    [max_samples] samples and its end time, and the start time moves by the
    samples cut. *)
Lemma append_left_trim_keeps_the_tail (st : State) (m : Q) :
  max_length (self st) = Some m ->
  0 < m ->
  0 < sampling_rate (stats (base (self st))) ->
  npts (stats (base (self st))) = np.size (data (base (self st))) ->
  exists st',
    append_left_trim st = (inr tt, st')
    /\ (np.size (data (base (self st')))
        <= Py.int (m * sampling_rate (stats (base (self st))) + (1 # 2)))%Z
    /\ arr_values (data (base (self st')))
       = drop (Z.to_nat (np.size (data (base (self st)))
                         - Py.int (m * sampling_rate (stats (base (self st)))
                                   + (1 # 2))))
              (arr_values (data (base (self st))))
    /\ npts (stats (base (self st'))) = np.size (data (base (self st')))
    /\ endtime (stats (base (self st'))) == endtime (stats (base (self st)))
    /\ starttime (stats (base (self st')))
       == starttime (stats (base (self st)))
          + inject_Z (Z.max 0 (np.size (data (base (self st)))
                               - Py.int (m * sampling_rate (stats (base (self st)))
                                         + (1 # 2))))
            / sampling_rate (stats (base (self st))).
Proof.
  intros Hmax Hm Hr Hn. pose proof (rate_nonzero _ Hr) as Hr0.
  set (max_samples := Py.int (m * sampling_rate (stats (base (self st))) + (1 # 2))).
  assert (Hpos : (0 <= max_samples)%Z).
  { apply Py_int_nonneg. apply Qlt_le_weak.
    apply (Qlt_trans _ (1 # 2)); [reflexivity|].
    rewrite <- (Qplus_0_l (1 # 2)) at 1. apply Qplus_lt_l.
    rewrite <- (Qmult_0_l (sampling_rate (stats (base (self st))))).
    by apply Qmult_lt_compat_r. }
  unfold append_left_trim, bind, get_self. rewrite Hmax. fold max_samples.
  destruct (max_samples <? np.size (data (base (self st))))%Z eqn:E.
  - apply Z.ltb_lt in E. rewrite truediv_run by exact Hr0.
    unfold put_self. eexists. split; [reflexivity|]. simpl.
    destruct (_ltrim_cut (base (self st)) Hr Hn
                (np.size (data (base (self st))) - max_samples)
                (starttime (stats (base (self st)))
                 + inject_Z (np.size (data (base (self st))) - max_samples)
                   / sampling_rate (stats (base (self st))))
                ltac:(lia) ltac:(reflexivity))
      as (Hv & Hd & Hn' & Hs & Hc).
    destruct (same_channel_fields _ _ Hc) as (_ & _ & _ & _ & Hsr & _).
    assert (Hsize : np.size (data (_ltrim (base (self st))
                      (starttime (stats (base (self st)))
                       + inject_Z (np.size (data (base (self st))) - max_samples)
                         / sampling_rate (stats (base (self st))))))
                    = max_samples).
    { unfold np.size in *. rewrite Hv, length_drop. lia. }
    repeat split; try done.
    + lia.
    + unfold endtime. rewrite Hsr, Hs, Hn', Hsize, Hn, !inject_Z_minus.
      field. exact Hr0.
    + rewrite Hs. by rewrite Z.max_r by lia.
  - apply Z.ltb_ge in E. exists st. split; [reflexivity|].
    split; [done|]. split.
    + replace (Z.to_nat _) with 0%nat by lia. done.
    + split; [done|]. split; [reflexivity|].
      rewrite Z.max_l by lia. field. exact Hr0.
Qed.

Section Retention.

Variable signal : signal_module.

(** Every call of [append] on a seeded accumulator that returns leaves at
    most [round(max_length * sr)] samples in the buffer. *)
Lemma append_on_seeded_is_bounded (st st' : State) (p : nat) (t : Trace)
      (strict verbose : bool) (v : value) (m : Q) :
  traces st !! p = Some t ->
  have_appended_data (self st) = true ->
  max_length (self st) = Some m ->
  0 < m ->
  0 < sampling_rate (stats (base (self st))) ->
  append signal p strict verbose st = (inr v, st') ->
  (np.size (data (base (self st')))
   <= Py.int (m * sampling_rate (stats (base (self st))) + (1 # 2)))%Z
  /\ npts (stats (base (self st'))) = np.size (data (base (self st'))).
Proof.
  intros Ht Hs Hmax Hm Hr H.
  apply (append_runs signal _ _ _ _ _ t) in H; [|done].
  inversion H as [ | | | | g st1 st2 st3 Hok Hchk Hproc Hmerge]; subst.
  destruct (append_check_times_inv _ _ _ _ _ _ Hchk) as (Htr & _ & _ & _ & Hself).
  pose proof (append_process_frame _ _ _ _ _ _ _ _ Hproc) as Hf.
  assert (Hkeep : have_appended_data (self st1) = true
                  /\ max_length (self st1) = Some m
                  /\ sampling_rate (stats (base (self st1)))
                     = sampling_rate (stats (base (self st)))).
  { destruct Hself as [-> | (t1 & _ & _ & _ & _ & _ & ->)]; by repeat split. }
  destruct Hkeep as (Hs1 & Hmax1 & Hsr1).
  destruct (pf_header _ _ _ Hf (float32_converted t)) as [a Ht2].
  { rewrite Htr. by eapply with_packet_lookup. }
  rewrite (append_merge_seeded _ _ _ (eq_trans (pf_seeded _ _ _ Hf) Hs1) Ht2)
    in Hmerge.
  destruct (Trace___add__ (base (self st2)) (set_data (float32_converted t) a))
    as [e|s]; [done|].
  destruct (append_left_trim_keeps_the_tail
              (with_base st2 (joined (base (self st2))
                                     (set_data (float32_converted t) a))) m)
    as (st3' & Hrun & Hbound & _ & Hn & _).
  - simpl. by rewrite (pf_max_length _ _ _ Hf).
  - done.
  - simpl. by rewrite (pf_base _ _ _ Hf), Hsr1.
  - reflexivity.
  - rewrite Hrun in Hmerge. injection Hmerge as <-.
    simpl in *. rewrite (pf_base _ _ _ Hf), Hsr1 in Hbound. by split.
Qed.

End Retention.

(** ** The accumulator at concrete packets *)

(** [[RtMemory()] * num] puts one and the same reference in every slot. *)
Lemma new_rtmemory_list_shares (num : nat) (st : State) :
  num <> 0%nat ->
  new_rtmemory_list num st
  = (inr (Some (replicate num (length (memories st)))),
     mk_State (self st) (traces st) (memories st ++ [RtMemory_new]) (stdout st)
              (invocations st)).
Proof.
  intros H. unfold new_rtmemory_list.
  destruct (num =? 0)%nat eqn:E; [apply Nat.eqb_eq in E; done|reflexivity].
Qed.

(** Registering a predefined function by its name: the entry goes to the
    end of the registry with as many slots as the table declares, all of them
    the one new reference, and the new length of the registry is returned. *)
Lemma registerRtProcess_predefined (signal : signal_module) (name : string)
      (opts : options) (st : State) (func : signal_function) (num : nat) :
  lookup_function signal (Py.lower name) = Some (func, num) ->
  exists st',
    registerRtProcess signal (Name name) opts st
    = (inr (Int (Z.of_nat (length (processing (self st)) + 1))), st')
    /\ processing (self st')
       = processing (self st)
         ++ [(Name (Py.lower name), opts,
              if (num =? 0)%nat then None
              else Some (replicate num (length (memories st))))]
    /\ memories st'
       = if (num =? 0)%nat then memories st else memories st ++ [RtMemory_new].
Proof.
  intros H. unfold registerRtProcess, bind. simpl. rewrite H.
  unfold new_rtmemory_list, get_self, put_self, ret, new_RtMemory.
  destruct (num =? 0)%nat; simpl; rewrite length_app; simpl;
    (eexists; split; [reflexivity|split; reflexivity]).
Qed.

(** C3: the seeding call is not trimmed.  An accumulator that is to keep two
    seconds (two samples at 1 Hz) takes a first packet of three samples and
    holds all three afterwards, start time unchanged; only the next call
    trims, down to the two most recent samples. *)
Lemma C3_seeding_append_is_not_trimmed :
  Py.int (2 * 1 + (1 # 2)) = 2%Z
  /\ fst (append Demo.signal 0 true false Cases.bounded) = inr (Ref_Trace 0)
  /\ arr_values (data (base (self (snd (append Demo.signal 0 true false
                                                Cases.bounded)))))
     = [1; 2; 3]
  /\ np.size (data (base (self (snd (append Demo.signal 0 true false
                                            Cases.bounded))))) = 3%Z
  /\ arr_values
       (data (base (self (snd ((append Demo.signal 0 true false ;;
                                append Demo.signal 1 true false) Cases.bounded)))))
     = [3; 4].
Proof. by vm_compute. Qed.

(** C5: registering "tauc" on a fresh accumulator returns 1 and appends one
    entry with two memory slots, but both slots refer to the same [RtMemory]
    object, the only one created. *)
Lemma C5_tauc_slots_share_one_memory :
  fst (registerRtProcess Demo.signal (Name "tauc") [] Cases.fresh) = inr (Int 1)
  /\ processing (self (snd (registerRtProcess Demo.signal (Name "tauc") []
                                              Cases.fresh)))
     = [(Name "tauc", [], Some [0%nat; 0%nat])]
  /\ memories (snd (registerRtProcess Demo.signal (Name "tauc") [] Cases.fresh))
     = [RtMemory_new].
Proof. by vm_compute. Qed.

(** C9: [append] returns the packet, a [Trace] object, not its sample array. *)
Lemma C9_append_returns_the_packet_object :
  fst (append Demo.signal 0 true false Cases.fresh) = inr (Ref_Trace 0)
  /\ fst (append Demo.signal 0 true false Cases.fresh)
     <> inr (Array (mk_ndarray np.float64 [1; 2; 3]))
  /\ data <$> traces (snd (append Demo.signal 0 true false Cases.fresh)) !! 0%nat
     = Some (mk_ndarray np.float64 [1; 2; 3]).
Proof. by vm_compute. Qed.

(** C6, as stated, fails: a processing function raises after the start time
    of the buffer has been corrected for drift. *)
Lemma C6_start_time_moves_before_a_failing_process :
  fst (append Demo.signal 0 true false Cases.drifting) = inl (ProcessError "failed")
  /\ fst (append_before_merge Demo.signal 0 true false Cases.drifting)
     = inl (ProcessError "failed")
  /\ starttime (stats (base (self Cases.drifting))) == 0
  /\ starttime (stats (base (self (snd (append Demo.signal 0 true false
                                               Cases.drifting))))) == 1 # 20
  /\ base (self (snd (append_before_merge Demo.signal 0 true false Cases.drifting)))
     <> base (self Cases.drifting).
Proof. by vm_compute. Qed.

Lemma C8_witness :
  exists st',
    append Demo.signal 0 true true Cases.fresh = (inr (Ref_Trace 0), st')
    /\ traces st' !! 0%nat = Some (float32_converted Cases.first_packet)
    /\ base (self st') = float32_converted Cases.first_packet
    /\ stats (base (self st')) = stats Cases.first_packet
    /\ arr_values (data (base (self st'))) = arr_values (data Cases.first_packet)
    /\ have_appended_data (self st') = true
    /\ stdout st' = stdout Cases.fresh
    /\ invocations st' = invocations Cases.fresh.
Proof.
  apply (C8_append_on_empty_accumulator_seeds_verbatim Demo.signal Cases.fresh 0
           Cases.first_packet true true); reflexivity.
Defined.

Lemma headers_match_cases (rt : RtTrace) (t : Trace) :
  base rt = Cases.first_packet ->
  getId t = getId Cases.first_packet ->
  sampling_rate (stats t) = 1 -> calib (stats t) = 1 ->
  arr_dtype (data t) = np.float64 ->
  headers_match rt t.
Proof.
  intros Hb Hid Hsr Hc Hd. unfold headers_match, float32_converted.
  rewrite Hb, Hd. simpl. rewrite Hid, Hsr, Hc, Hd. done.
Qed.

Lemma C1_witness :
  fst (append Demo.signal 0 true false (Cases.seeded_with [Cases.late_packet]))
  = inl (TypeError_continuity
           (Msg_gap (report_of
                       (delta_of (self (Cases.seeded_with [Cases.late_packet]))
                                 Cases.late_packet)
                       (self (Cases.seeded_with [Cases.late_packet]))
                       Cases.late_packet))).
Proof.
  destruct (C1_gap_overlap_classification Demo.signal
              (Cases.seeded_with [Cases.late_packet]) 0 Cases.late_packet false)
    as (_ & Hgap & _).
  - reflexivity.
  - reflexivity.
  - by apply headers_match_cases.
  - by vm_compute.
  - destruct Hgap as [Hstrict _]; [reflexivity|]. by rewrite Hstrict.
Defined.

Lemma C2_witness :
  exists new,
    invocations (snd (append Demo.signal 0 false false
                             (Cases.processing_state [Cases.late_packet])))
    = invocations (Cases.processing_state [Cases.late_packet]) ++ new
    /\ map inv_entry new = seq 0 (length new)
    /\ length new = 2%nat
    /\ Forall (memory_cleared
                 (processing (self (Cases.processing_state [Cases.late_packet])))
                 (processing
                    (self (snd (append Demo.signal 0 false false
                                       (Cases.processing_state [Cases.late_packet]))))))
              new.
Proof.
  destruct (C2_memory_is_cleared_on_gap_or_overlap Demo.signal
              (Cases.processing_state [Cases.late_packet])
              (snd (append Demo.signal 0 false false
                           (Cases.processing_state [Cases.late_packet])))
              0 Cases.late_packet false
              (fst (append Demo.signal 0 false false
                           (Cases.processing_state [Cases.late_packet]))))
    as (new & Hnew & Hord & _ & Hall & _ & Hcleared).
  - reflexivity.
  - reflexivity.
  - by apply headers_match_cases.
  - by vm_compute.
  - right. reflexivity.
  - apply surjective_pairing.
  - exists new. split; [exact Hnew|]. split; [exact Hord|].
    split; [|exact Hcleared].
    rewrite (Hall (Ref_Trace 0)); [reflexivity|by vm_compute].
Defined.

Lemma C4_witness :
  starttime (stats (base (self (snd (append Demo.signal 0 true false
                                            (Cases.seeded_with
                                               [Cases.drifting_packet]))))))
  = starttime (stats (base (self (Cases.seeded_with [Cases.drifting_packet]))))
    + diff_of (self (Cases.seeded_with [Cases.drifting_packet])) Cases.drifting_packet
    - 1 / sampling_rate
            (stats (base (self (Cases.seeded_with [Cases.drifting_packet]))))
  /\ starttime (stats (base (self (snd (append Demo.signal 0 true false
                                               (Cases.seeded_with
                                                  [Cases.drifting_packet]))))))
     == 1 # 20.
Proof.
  split; [|by vm_compute].
  destruct (C4_start_time_drift_correction Demo.signal
              (Cases.seeded_with [Cases.drifting_packet]) 0 Cases.drifting_packet
              true false eq_refl) as [Hseeded _].
  destruct Hseeded as [Hcontiguous _].
  - reflexivity.
  - by apply headers_match_cases.
  - by vm_compute.
  - destruct Hcontiguous as (_ & _ & Hfinal); [by vm_compute|by vm_compute|].
    apply (Hfinal (Ref_Trace 0)); [reflexivity|by vm_compute].
Defined.

Lemma C6_witness :
  data (base (self (snd (append Demo.signal 0 true false Cases.drifting))))
  = data (base (self Cases.drifting))
  /\ base (self (snd (append Demo.signal 0 true false Cases.drifting)))
     = base (shifted (self Cases.drifting)
               (starttime (stats (base (self Cases.drifting)))
                + diff_of (self Cases.drifting) Cases.drifting_packet
                - 1 / sampling_rate (stats (base (self Cases.drifting))))).
Proof.
  destruct (C6_failure_before_merge_keeps_the_samples Demo.signal Cases.drifting
              (snd (append Demo.signal 0 true false Cases.drifting))
              0 Cases.drifting_packet true false (ProcessError "failed"))
    as (_ & _ & Hpipeline).
  - reflexivity.
  - by vm_compute.
  - destruct (Hpipeline I) as (Hd & _ & _ & _ & _ & _ & _ & Hshift).
    split; [exact Hd|].
    apply Hshift; [reflexivity|by vm_compute|by vm_compute].
Defined.

Lemma C10_witness :
  length (traces (snd (append Demo.signal 0 false false
                              (Cases.processing_state [Cases.late_packet]))))
  = length (traces (Cases.processing_state [Cases.late_packet]))
  /\ exists new t',
      invocations (snd (append Demo.signal 0 false false
                               (Cases.processing_state [Cases.late_packet])))
      = invocations (Cases.processing_state [Cases.late_packet]) ++ new
      /\ map inv_entry new = seq 0 (length new)
      /\ length new = 2%nat
      /\ traces (snd (append Demo.signal 0 false false
                              (Cases.processing_state [Cases.late_packet]))) !! 0%nat
         = Some t'
      /\ staged (data (float32_converted Cases.late_packet)) new (data t')
      /\ chained (data (float32_converted Cases.late_packet)) new (data t').
Proof.
  destruct (C10_append_mutates_the_packet_in_place Demo.signal
              (Cases.processing_state [Cases.late_packet])
              (snd (append Demo.signal 0 false false
                           (Cases.processing_state [Cases.late_packet])))
              0 Cases.late_packet false false
              (fst (append Demo.signal 0 false false
                           (Cases.processing_state [Cases.late_packet]))))
    as (Hlen & _ & new & t' & Hinv & Hord & _ & _ & Ht' & _ & Hstaged & Hret & _).
  - reflexivity.
  - apply surjective_pairing.
  - destruct (Hret (Ref_Trace 0)) as (_ & Hall & Hchained); [by vm_compute|].
    split; [exact Hlen|]. exists new, t'.
    split; [exact Hinv|]. split; [exact Hord|].
    split; [rewrite Hall; reflexivity|]. by repeat split.
Defined.

Lemma C7_witness :
  exists st',
    append_each Demo.signal (seq 0 (length Cases.series_parts)) true false
                (Demo.state (Demo.rttrace None) Cases.series_parts)
    = (inr tt, st')
    /\ arr_values (data (base (self st'))) = arr_values (data Cases.series)
    /\ np.size (data (base (self st'))) = np.size (data Cases.series)
    /\ npts (stats (base (self st'))) = npts (stats Cases.series).
Proof.
  apply (C7_split_then_append_restores_the_series Demo.signal Cases.series 3
           Cases.series_parts (Demo.state (Demo.rttrace None) Cases.series_parts)).
  - reflexivity.
  - reflexivity.
  - by vm_compute.
  - reflexivity.
  - repeat (constructor; [discriminate|]). constructor.
  - reflexivity.
  - reflexivity.
  - reflexivity.
  - reflexivity.
Defined.

(** * Further properties of the code *)

(** ** Registering processes *)

Lemma lower_ascii_idempotent (c : ascii) :
  Py.lower_ascii (Py.lower_ascii c) = Py.lower_ascii c.
Proof. by destruct c as [[] [] [] [] [] [] [] []]. Qed.

Lemma lower_idempotent (s : string) : Py.lower (Py.lower s) = Py.lower s.
Proof.
  induction s as [|c s IH]; [done|]. simpl. by rewrite lower_ascii_idempotent, IH.
Qed.

Lemma startswith_refl (s : string) : Py.startswith s s = true.
Proof.
  unfold Py.startswith. induction s as [|c s IH]; [done|]. simpl.
  by destruct (ascii_dec c c).
Qed.

Lemma startswith_head (c d : ascii) (s k : string) :
  Py.startswith (String d k) (String c s) = true -> c = d.
Proof.
  unfold Py.startswith. simpl. by destruct (ascii_dec c d).
Qed.

Section Register.

Variable signal : signal_module.

Lemma registerRtProcess_function (name : string)
      (call : ndarray -> options -> string + ndarray) (opts : options) (st : State) :
  registerRtProcess signal (Function name call) opts st
  = (inr (Int (Z.of_nat (length (processing (self st)) + 1))),
     registered_state st (Function name call, opts, None) (Py.lower name) opts
                      (memories st)).
Proof.
  unfold registerRtProcess, bind, ret, get_self, put_self. simpl.
  by rewrite length_app.
Qed.

Lemma registerRtProcess_key (name key : string) (opts : options) (st : State)
      (func : signal_function) (num : nat) :
  lookup_function signal (Py.lower name) = Some (func, num)
  /\ key = Py.lower name
  \/ lookup_function signal (Py.lower name) = None
     /\ List.find (fun kv => Py.startswith (fst kv) (Py.lower name))
                  (REALTIME_PROCESS_FUNCTIONS signal) = Some (key, (func, num)) ->
  registerRtProcess signal (Name name) opts st
  = (inr (Int (Z.of_nat (length (processing (self st)) + 1))),
     registered_state st
       (Name key, opts,
        if (num =? 0)%nat then None else Some (replicate num (length (memories st))))
       key opts
       (if (num =? 0)%nat then memories st else memories st ++ [RtMemory_new])).
Proof.
  intros [[H ->]|[H1 H2]]; unfold registerRtProcess, bind, str; cbv beta iota.
  - rewrite H. unfold new_rtmemory_list, bind, new_RtMemory, ret, get_self, put_self.
    destruct (num =? 0)%nat; simpl; by rewrite length_app.
  - rewrite H1, H2.
    unfold new_rtmemory_list, bind, new_RtMemory, ret, get_self, put_self.
    destruct (num =? 0)%nat; simpl; by rewrite length_app.
Qed.

Lemma registerRtProcess_unknown (name : string) (opts : options) (st : State) :
  lookup_function signal (Py.lower name) = None ->
  List.find (fun kv => Py.startswith (fst kv) (Py.lower name))
            (REALTIME_PROCESS_FUNCTIONS signal) = None ->
  registerRtProcess signal (Name name) opts st
  = (inl (NotImplementedError_register name), st).
Proof.
  intros H1 H2. unfold registerRtProcess, bind, str. cbv beta iota.
  by rewrite H1, H2.
Qed.

Lemma lookup_function_key (key : string) (func : signal_function) (num : nat) :
  lookup_function signal key = Some (func, num) ->
  In (key, (func, num)) (REALTIME_PROCESS_FUNCTIONS signal).
Proof.
  unfold lookup_function. intros H.
  destruct (List.find _ _) as [[k v]|] eqn:E; [|done].
  simpl in H. injection H as ->.
  apply find_some in E as [Hin Hk]. simpl in Hk.
  apply String.eqb_eq in Hk. by subst.
Qed.

(** No two keys of the table begin with the same letter. *)
Lemma process_names_differ_in_the_first_letter
      (k1 k2 : string) (v1 v2 : signal_function * nat) (c : ascii) (s : string) :
  In (k1, v1) (REALTIME_PROCESS_FUNCTIONS signal) ->
  In (k2, v2) (REALTIME_PROCESS_FUNCTIONS signal) ->
  Py.startswith k1 (String c s) = true ->
  Py.startswith k2 (String c s) = true ->
  (k1, v1) = (k2, v2).
Proof.
  unfold REALTIME_PROCESS_FUNCTIONS. intros H1 H2 P1 P2.
  destruct H1 as [H1|[H1|[H1|[H1|[H1|[H1|[]]]]]]]; injection H1 as <- <-;
    destruct H2 as [H2|[H2|[H2|[H2|[H2|[H2|[]]]]]]]; injection H2 as <- <-;
    try reflexivity;
    apply startswith_head in P1; apply startswith_head in P2; congruence.
Qed.

(** X1: a name is resolved to the key of the table that starts with it, in
    lower case: the key itself, written in any case, or a prefix of it that
    is not empty.  No two keys begin with the same letter, so the key found
    does not depend on the order in which the dictionary is gone through.
    The entry goes to the end of the registry under the key, with the
    options as given and the number of memory references the table declares
    ([None] for zero); the key and the options are added to the processing
    history of the header; the new length of the registry is returned. *)
Theorem registerRtProcess_resolves_a_name_to_its_key
        (name key : string) (opts : options) (st : State)
        (func : signal_function) (num : nat) :
  Py.lower name <> ""%string ->
  In (key, (func, num)) (REALTIME_PROCESS_FUNCTIONS signal) ->
  Py.startswith key (Py.lower name) = true ->
  registerRtProcess signal (Name name) opts st
  = (inr (Int (Z.of_nat (length (processing (self st)) + 1))),
     registered_state st
       (Name key, opts,
        if (num =? 0)%nat then None else Some (replicate num (length (memories st))))
       key opts
       (if (num =? 0)%nat then memories st else memories st ++ [RtMemory_new])).
Proof.
  intros Hne Hin Hpre. apply (registerRtProcess_key name key opts st func num).
  destruct (Py.lower name) as [|c s] eqn:Hl; [done|]. clear Hne.
  destruct (lookup_function signal (String c s)) as [[f n]|] eqn:El.
  - left. apply lookup_function_key in El.
    pose proof (process_names_differ_in_the_first_letter
                  _ _ _ _ c s El Hin (startswith_refl _) Hpre) as Heq.
    by injection Heq as <- <- <-.
  - right. split; [done|].
    destruct (List.find (fun kv => Py.startswith (fst kv) (String c s))
                        (REALTIME_PROCESS_FUNCTIONS signal))
      as [[k' [f n]]|] eqn:Ef.
    + apply find_some in Ef as [Hin' Hpre']. simpl in Hpre'.
      pose proof (process_names_differ_in_the_first_letter
                    _ _ _ _ c s Hin' Hin Hpre' Hpre) as Heq.
      by injection Heq as <- <- <-.
    + apply (find_none _ _ Ef) in Hin. simpl in Hin. congruence.
Qed.

(** X2: registering by name fails exactly when no key of the table starts with
    the name in lower case: then [NotImplementedError] is raised with the
    name as it was given, and nothing has changed.  In every other case the
    call returns the new length of the registry. *)
Theorem registerRtProcess_fails_exactly_on_unknown_names
        (name : string) (opts : options) (st : State) :
  if existsb (fun key => Py.startswith key (Py.lower name)) (process_names signal)
  then exists st',
      registerRtProcess signal (Name name) opts st
      = (inr (Int (Z.of_nat (length (processing (self st)) + 1))), st')
  else registerRtProcess signal (Name name) opts st
       = (inl (NotImplementedError_register name), st).
Proof.
  destruct (existsb _ _) eqn:E.
  - apply existsb_exists in E as (key & Hin & Hpre).
    apply in_map_iff in Hin as ([k [func num]] & <- & Hin). simpl in Hpre.
    destruct (lookup_function signal (Py.lower name)) as [[f n]|] eqn:El.
    { eexists. apply (registerRtProcess_key _ (Py.lower name) _ _ f n). left. by split. }
    destruct (List.find (fun kv => Py.startswith (fst kv) (Py.lower name))
                        (REALTIME_PROCESS_FUNCTIONS signal))
      as [[k' [f n]]|] eqn:Ef.
    { eexists. apply (registerRtProcess_key _ k' _ _ f n). right. by split. }
    exfalso. apply (find_none _ _ Ef) in Hin. simpl in Hin. congruence.
  - apply registerRtProcess_unknown.
    + destruct (lookup_function signal (Py.lower name)) as [[f n]|] eqn:El; [|done].
      exfalso. apply lookup_function_key in El.
      assert (Hin : In (Py.lower name) (process_names signal)).
      { apply in_map_iff. by exists (Py.lower name, (f, n)). }
      assert (Hex : existsb (fun key => Py.startswith key (Py.lower name))
                            (process_names signal) = true).
      { apply existsb_exists. exists (Py.lower name). split; [done|].
        apply startswith_refl. }
      congruence.
    + destruct (List.find _ _) as [[k' [f n]]|] eqn:Ef; [|done].
      exfalso. apply find_some in Ef as [Hin Hpre]. simpl in Hpre.
      assert (Hex : existsb (fun key => Py.startswith key (Py.lower name))
                            (process_names signal) = true).
      { apply existsb_exists. exists k'. split; [|done].
        apply in_map_iff. by exists (k', (f, n)). }
      congruence.
Qed.

(** X3: what a registration does and never does, whatever the process and the
    outcome.  The packets, standard output, the samples of the buffer, its
    header (but for the processing history), [max_length] and
    [have_appended_data] stay as they are; the entries already registered
    keep their places and no [RtMemory] object in the store is touched.  A
    call that raises changes nothing at all; a call that returns has added
    exactly one entry at the end, one record to the processing history, at
    most one [RtMemory] object, and returns the new length of the registry.
    A function is registered as it is, without memory. *)
Theorem registerRtProcess_only_appends
        (process : process) (opts : options) (st st' : State) (r : Result value) :
  registerRtProcess signal process opts st = (r, st') ->
  traces st' = traces st
  /\ stdout st' = stdout st
  /\ invocations st' = invocations st
  /\ max_length (self st') = max_length (self st)
  /\ have_appended_data (self st') = have_appended_data (self st)
  /\ data (base (self st')) = data (base (self st))
  /\ match r with
     | inl e =>
         e = NotImplementedError_register (str process) /\ st' = st
     | inr v =>
         exists e name store,
           st' = registered_state st e name opts (memories st ++ store)
           /\ (length store <= 1)%nat
           /\ v = Int (Z.of_nat (length (processing (self st'))))
           /\ snd (fst e) = opts
           /\ match process with
              | Function _ _ => e = (process, opts, None) /\ store = []
              | Name _ => exists key, fst (fst e) = Name key /\ name = key
                                      /\ In key (process_names signal)
              end
     end.
Proof.
  intros H. destruct process as [name call|name].
  - rewrite registerRtProcess_function in H. injection H as <- <-.
    repeat split; try done. simpl.
    exists (Function name call, opts, None), (Py.lower name), [].
    rewrite app_nil_r. repeat split; try done.
    + simpl. lia.
    + simpl. rewrite length_app. simpl. do 2 f_equal.
  - destruct (lookup_function signal (Py.lower name)) as [[f n]|] eqn:El;
      [|destruct (List.find (fun kv => Py.startswith (fst kv) (Py.lower name))
                            (REALTIME_PROCESS_FUNCTIONS signal))
          as [[k' [f n]]|] eqn:Ef].
    + rewrite (registerRtProcess_key _ (Py.lower name) _ _ f n) in H
        by (left; by split).
      injection H as <- <-. do 6 (split; [done|]).
      eexists (Name (Py.lower name), opts, _), (Py.lower name),
              (if (n =? 0)%nat then [] else [RtMemory_new]).
      split; [f_equal; destruct (n =? 0)%nat; [by rewrite app_nil_r|done]|].
      split; [destruct (n =? 0)%nat; simpl; lia|].
      split; [unfold registered_state; cbn [self processing];
              rewrite length_app; do 2 f_equal|].
      split; [done|].
      exists (Py.lower name). do 2 (split; [done|]).
      apply lookup_function_key in El. apply in_map_iff.
      by exists (Py.lower name, (f, n)).
    + rewrite (registerRtProcess_key _ k' _ _ f n) in H by (right; by split).
      injection H as <- <-. do 6 (split; [done|]).
      eexists (Name k', opts, _), k',
              (if (n =? 0)%nat then [] else [RtMemory_new]).
      split; [f_equal; destruct (n =? 0)%nat; [by rewrite app_nil_r|done]|].
      split; [destruct (n =? 0)%nat; simpl; lia|].
      split; [unfold registered_state; cbn [self processing];
              rewrite length_app; do 2 f_equal|].
      split; [done|].
      exists k'. do 2 (split; [done|]).
      apply find_some in Ef as [Hin _]. apply in_map_iff.
      by exists (k', (f, n)).
    + rewrite registerRtProcess_unknown in H by done.
      injection H as <- <-. by repeat split.
Qed.

End Register.

Section Calls.

Variable signal : signal_module.

(** X4: a call of [append] invokes the registered processes one after the
    other in the order of registration, each at most once and none out of
    turn: the invocations it makes are those of the entries [0], [1], ...
    A call that returns has invoked every entry exactly once; a call that
    raises has stopped at some entry and invoked none after it. *)
Theorem append_invokes_each_process_once_in_order
        (p : nat) (gap_overlap_check verbose : bool) (st st' : State)
        (r : Result value) :
  append signal p gap_overlap_check verbose st = (r, st') ->
  exists new,
    invocations st' = invocations st ++ new
    /\ map inv_entry new = seq 0 (length new)
    /\ (length new <= length (processing (self st)))%nat
    /\ (forall v, r = inr v ->
                  map inv_entry new = seq 0 (length (processing (self st)))).
Proof.
  intros H. destruct (append_calls signal _ _ _ _ _ _ H)
    as (new & Hnew & Hord & Hle & Hall & _).
  exists new. repeat split; try done.
  intros v Hv. by rewrite <- (Hall v Hv).
Qed.

(** X5: a call of [append] never adds, removes or reorders a registered process,
    whatever it is given and however it ends: afterwards the registry holds
    the same processes with the same options in the same places, each with
    as many memory references as before; [max_length] is as it was. *)
Theorem append_leaves_the_registered_processes
        (p : nat) (gap_overlap_check verbose : bool) (st st' : State)
        (r : Result value) :
  append signal p gap_overlap_check verbose st = (r, st') ->
  Forall2 same_entry (processing (self st)) (processing (self st'))
  /\ length (processing (self st')) = length (processing (self st))
  /\ max_length (self st') = max_length (self st).
Proof.
  intros H. destruct (append_calls signal _ _ _ _ _ _ H)
    as (new & _ & _ & _ & _ & Hent & Hmax).
  split; [done|]. split; [|done]. symmetry. by eapply Forall2_length.
Qed.

(** X6: memory is carried from one packet to the next when there is no gap or
    overlap.  On an unseeded accumulator, and on a seeded one for a packet
    that passes the sanity checks and is contiguous ([-0.1 <= delta <= 0.1]),
    [append] replaces no memory reference: the registry is afterwards what
    it was, and every processing function it invoked was given the
    references its entry held before the call (a function registered
    directly is given none). *)
Theorem append_carries_memory_over_contiguous_packets
        (p : nat) (gap_overlap_check verbose : bool) (st st' : State)
        (r : Result value) (t : Trace) :
  traces st !! p = Some t ->
  have_appended_data (self st) = false
  \/ (have_appended_data (self st) = true
      /\ headers_match (self st) t
      /\ ~ sampling_rate (stats (base (self st))) == 0
      /\ - (1 # 10) <= delta_of (self st) t
      /\ delta_of (self st) t <= 1 # 10) ->
  append signal p gap_overlap_check verbose st = (r, st') ->
  exists new,
    invocations st' = invocations st ++ new
    /\ processing (self st') = processing (self st)
    /\ Forall (called_from (processing (self st))) new.
Proof.
  intros Ht Hc H.
  assert (Hpipe : exists st1,
             append signal p gap_overlap_check verbose st
             = append_from_pipeline signal p false st1
             /\ traces st1 !! p = Some (float32_converted t)
             /\ invocations st1 = invocations st
             /\ processing (self st1) = processing (self st)).
  { destruct Hc as [Hs|(Hs & Hm & Hr & Hlo & Hhi)].
    - exists (with_packet st p (float32_converted t)).
      split; [|split; [by eapply with_packet_lookup|done]].
      rewrite (append_checked _ _ _ _ _ t) by (done || congruence).
      unfold bind. rewrite append_check_times_unseeded by done.
      by rewrite bool_decide_false by (intros E; by apply E).
    - eexists. split; [by apply append_contiguous|].
      split; [simpl; by eapply with_packet_lookup|done]. }
  destruct Hpipe as (st1 & Heq & Ht1 & Hinv & Hp). rewrite Heq in H.
  destruct (append_from_pipeline_calls signal p _ st1 st' r _ Ht1 H)
    as (new & Hnew & _ & _ & _ & _ & _ & Hgap).
  destruct (Hgap eq_refl) as [Hsame Hcalls].
  exists new. rewrite Hp in *. rewrite Hinv in Hnew. by repeat split.
Qed.

End Calls.

(** ** Invariants of the accumulator *)

Lemma RtTrace___init___returns (m : option Q) (rt : RtTrace) :
  RtTrace___init__ m = inr rt ->
  rt = mk_RtTrace m false [] (mk_Trace np.empty Stats_default)
  /\ forall q, m = Some q -> 0 < q.
Proof.
  unfold RtTrace___init__. destruct m as [q|].
  - destruct (Qle_bool q 0) eqn:E; [done|]. intros H. injection H as <-.
    split; [done|]. intros q' Hq. injection Hq as <-.
    apply Qnot_le_lt. intros Hle. apply Qle_bool_iff in Hle. congruence.
  - intros H. injection H as <-. by split.
Qed.

Section Invariants.

Variable signal : signal_module.

(** The keys of the table are in lower case, and no key occurs twice. *)
Lemma process_names_are_keys (key : string) (v : signal_function * nat) :
  In (key, v) (REALTIME_PROCESS_FUNCTIONS signal) ->
  Py.lower key = key /\ lookup_function signal key = Some v.
Proof.
  unfold REALTIME_PROCESS_FUNCTIONS. intros H.
  destruct H as [H|[H|[H|[H|[H|[H|[]]]]]]]; by injection H as <- <-.
Qed.

Lemma registered_same_entry (e e' : entry) :
  same_entry e e' -> registered signal e -> registered signal e'.
Proof.
  destruct e as [[name opts] mem], e' as [[name' opts'] mem'].
  intros [Hn Hl]. simpl in *. injection Hn as <- <-.
  destruct name as [nm call|key]; simpl.
  - intros ->. by destruct mem'.
  - intros (Hk & func & num & Hf & Hm). split; [done|].
    exists func, num. split; [done|]. by rewrite <- Hl.
Qed.

Lemma registered_entries (l l' : list entry) :
  Forall2 same_entry l l' -> Forall (registered signal) l ->
  Forall (registered signal) l'.
Proof.
  induction 1 as [|e e' l l' He Hl IH]; [done|].
  intros Hall. inversion Hall; subst.
  constructor; [by eapply registered_same_entry|by apply IH].
Qed.

Lemma new_slots (num a : nat) :
  length <$> (if (num =? 0)%nat then None else Some (replicate num a))
  = if (num =? 0)%nat then None else Some num.
Proof. destruct (num =? 0)%nat; [done|]. simpl. by rewrite length_replicate. Qed.

(** What a registration makes of the registry and of [max_length]. *)
Lemma registerRtProcess_entry (process : process) (opts : options)
      (st st' : State) (r : Result value) :
  registerRtProcess signal process opts st = (r, st') ->
  max_length (self st') = max_length (self st)
  /\ (processing (self st') = processing (self st)
      \/ exists e, processing (self st') = processing (self st) ++ [e]
                   /\ registered signal e).
Proof.
  intros H. destruct process as [name call|name].
  - rewrite registerRtProcess_function in H. injection H as <- <-.
    split; [done|]. right. by eexists.
  - destruct (lookup_function signal (Py.lower name)) as [[f n]|] eqn:El;
      [|destruct (List.find (fun kv => Py.startswith (fst kv) (Py.lower name))
                            (REALTIME_PROCESS_FUNCTIONS signal))
          as [[k' [f n]]|] eqn:Ef].
    + rewrite (registerRtProcess_key _ _ (Py.lower name) _ _ f n) in H
        by (left; by split).
      injection H as <- <-. split; [done|]. right. eexists. split; [done|].
      split; [apply lower_idempotent|]. exists f, n. split; [done|].
      apply new_slots.
    + rewrite (registerRtProcess_key _ _ k' _ _ f n) in H by (right; by split).
      injection H as <- <-. split; [done|]. right. eexists. split; [done|].
      apply find_some in Ef as [Hin _].
      destruct (process_names_are_keys _ _ Hin) as [Hk Hl].
      split; [done|]. exists f, n. split; [done|]. apply new_slots.
    + rewrite registerRtProcess_unknown in H by done.
      injection H as <- <-. by auto.
Qed.

Lemma reachable_registry (st : State) :
  reachable signal st ->
  Forall (registered signal) (processing (self st))
  /\ forall m, max_length (self st) = Some m -> 0 < m.
Proof.
  induction 1 as [m rt packets Hinit
                 |st st' process opts r Hreach [IHr IHm] Hrun
                 |st st' p strict verbose r Hreach [IHr IHm] Hrun
                 |st packets Hreach IH].
  - destruct (RtTrace___init___returns _ _ Hinit) as [-> Hm]. simpl.
    split; [constructor|done].
  - destruct (registerRtProcess_entry _ _ _ _ _ Hrun) as [Hmax Hent].
    rewrite Hmax. split; [|done].
    destruct Hent as [-> | (e & -> & He)]; [done|].
    apply Forall_app. split; [done|]. by constructor.
  - destruct (append_calls signal _ _ _ _ _ _ Hrun)
      as (new & _ & _ & _ & _ & Hent & Hmax).
    rewrite Hmax. split; [|done]. by eapply registered_entries.
  - exact IH.
Qed.

(** The exceptions of [append] besides those of the pipeline. *)
Lemma append_sanity_checks_error (p : nat) (st st' : State) (e : exn) :
  append_sanity_checks p st = (inl e, st') -> forall key, e <> KeyError key.
Proof.
  unfold append_sanity_checks, bind, get_self, read_trace, ret, raise.
  intros H key. repeat (case_match; simplify_eq/=); congruence.
Qed.

Lemma append_check_times_error (p : nat) (strict verbose : bool)
      (st st' : State) (e : exn) :
  append_check_times p strict verbose st = (inl e, st') ->
  forall key, e <> KeyError key.
Proof.
  unfold append_check_times, bind, get_self, read_trace, truediv, ret, raise,
    print, put_self.
  intros H key. repeat (case_match; simplify_eq/=); congruence.
Qed.

Lemma append_merge_no_KeyError (p : nat) (st st' : State) (e : exn) :
  append_merge p st = (inl e, st') -> forall key, e <> KeyError key.
Proof.
  unfold append_merge, bind, get_self, read_trace. intros H key.
  destruct (traces st !! p) as [t|]; [|by simplify_eq].
  destruct (have_appended_data (self st)); simpl in H; [|by simplify_eq].
  destruct (Trace___add__ (base (self st)) t) as [e1|sum] eqn:E; simpl in H.
  - unfold raise in H. simplify_eq. apply Trace___add___error in E.
    intros ->. simpl in E. tauto.
  - unfold ret, put_self in H.
    apply append_left_trim_error in H. by subst.
Qed.

Lemma append_call_finds (p i : nat) (key : string) (opts : options)
      (mem mem' : option (list nat)) (st st' : State) (e : exn) :
  registered signal (Name key, opts, mem') ->
  append_call signal p i (Name key) opts mem st = (inl e, st') ->
  forall k, e <> KeyError k.
Proof.
  intros (Hk & func & num & Hf & _) H k.
  unfold append_call, bind, read_trace, get_memories in H.
  destruct (traces st !! p) as [t|]; [|by simplify_eq].
  rewrite Hk, Hf in H.
  destruct (func t mem opts (memories st)) as [[err|a] store'];
    unfold record, put_memories, raise, assign_data, bind, read_trace in H;
    simpl in H; [by simplify_eq|].
  repeat (case_match; simplify_eq/=); congruence.
Qed.

Lemma append_process_finds (p : nat) (gap : bool) (procs : list entry) (i : nat)
      (st st' : State) (e : exn) :
  Forall (registered signal) procs ->
  append_process signal p gap i procs st = (inl e, st') ->
  forall k, e <> KeyError k.
Proof.
  intros Hall. revert i st.
  induction Hall as [|proc rest Hproc Hrest IH]; intros i st H k.
  - simpl in H. unfold ret in H. simplify_eq.
  - simpl in H. unfold bind in H.
    destruct (append_apply signal p gap i proc st) as [[e1|[]] st1] eqn:E.
    + simplify_eq. unfold append_apply, bind in E.
      destruct (append_clear_succeeds gap i proc st) as (mem & st2 & Hc).
      rewrite Hc in E. destruct proc as [[[nm call|key] opts] mem0]; simpl in E.
      * unfold append_call, bind, read_trace, get_memories, record, raise,
          assign_data, bind, read_trace in E.
        repeat (case_match; simplify_eq/=); congruence.
      * by eapply append_call_finds.
    + by eapply IH.
Qed.

Lemma append_finds (p : nat) (strict verbose : bool) (st st' : State) (e : exn) :
  Forall (registered signal) (processing (self st)) ->
  append signal p strict verbose st = (inl e, st') ->
  forall k, e <> KeyError k.
Proof.
  intros Hall H k.
  destruct (traces st !! p) as [t|] eqn:Ht;
    [|rewrite append_dangling in H by done; by simplify_eq].
  apply (append_runs signal _ _ _ _ _ t) in H; [|done].
  inversion H as [e0 Hs
                 |e0 st1 Hs Hc
                 |g st1 st2 e0 Hs Hc Hp
                 |g st1 st2 st3 e0 Hs Hc Hp Hm
                 | ]; subst.
  - by eapply append_sanity_checks_error.
  - by eapply append_check_times_error.
  - eapply append_process_finds; [|exact Hp].
    destruct (append_check_times_inv _ _ _ _ _ _ Hc) as (_ & _ & _ & _ & Hself).
    by destruct Hself as [-> | (t1 & _ & _ & _ & _ & _ & ->)].
  - by eapply append_merge_no_KeyError.
Qed.

(** X7: every entry of the registry of an accumulator, at any time of its life,
    is one that [registerRtProcess] makes: a function without memory, or a
    key of the table, in lower case, with exactly as many memory references
    as the table declares for it ([None] if it declares none).  No call of
    [append] changes that, with or without a gap or overlap. *)
Theorem the_registry_holds_keys_with_their_declared_memory (st : State) :
  reachable signal st ->
  Forall (registered signal) (processing (self st)).
Proof. intros H. by apply reachable_registry. Qed.

(** X8: [append] never raises [KeyError]: the lookup
    [REALTIME_PROCESS_FUNCTIONS[process_name.lower()]] finds every name that
    [registerRtProcess] has put into the registry, by its full name or by a
    prefix, in any case. *)
Theorem append_finds_every_registered_process
        (st : State) (p : nat) (gap_overlap_check verbose : bool) (key : string) :
  reachable signal st ->
  fst (append signal p gap_overlap_check verbose st) <> inl (KeyError key).
Proof.
  intros Hreach. destruct (reachable_registry _ Hreach) as [Hall _].
  destruct (append signal p gap_overlap_check verbose st) as [[e|v] st'] eqn:E;
    [|done].
  simpl. intros Heq. injection Heq as ->.
  by eapply (append_finds _ _ _ _ _ _ Hall E).
Qed.

(** X9: the bound on the retained length, over the life of an accumulator: the
    constructor admits only a positive [max_length], and every call of
    [append] on a seeded accumulator that returns leaves at most
    [int(max_length * sampling_rate + 0.5)] samples in the buffer, the
    sample count of the header being the number of samples held. *)
Theorem append_bounds_the_buffer_once_seeded
        (st st' : State) (p : nat) (t : Trace) (gap_overlap_check verbose : bool)
        (v : value) (m : Q) :
  reachable signal st ->
  have_appended_data (self st) = true ->
  max_length (self st) = Some m ->
  0 < sampling_rate (stats (base (self st))) ->
  traces st !! p = Some t ->
  append signal p gap_overlap_check verbose st = (inr v, st') ->
  0 < m
  /\ (0 <= Py.int (m * sampling_rate (stats (base (self st))) + (1 # 2)))%Z
  /\ (np.size (data (base (self st')))
      <= Py.int (m * sampling_rate (stats (base (self st))) + (1 # 2)))%Z
  /\ npts (stats (base (self st'))) = np.size (data (base (self st'))).
Proof.
  intros Hreach Hs Hmax Hr Ht H.
  destruct (reachable_registry _ Hreach) as [_ Hm]. specialize (Hm m Hmax).
  destruct (append_on_seeded_is_bounded signal _ _ _ _ _ _ _ _ Ht Hs Hmax Hm Hr H)
    as [Hb Hn].
  split; [done|]. split; [|by split].
  apply Py_int_nonneg. apply Qlt_le_weak.
  apply (Qlt_trans _ (1 # 2)); [reflexivity|].
  rewrite <- (Qplus_0_l (1 # 2)) at 1. apply Qplus_lt_l.
  rewrite <- (Qmult_0_l (sampling_rate (stats (base (self st))))).
  by apply Qmult_lt_compat_r.
Qed.

End Invariants.

(** ** The sanity checks *)

Section Mismatch.

Variable signal : signal_module.

(** X10: a seeded accumulator compares the packet with the buffer field by field,
    in the order id, sampling rate, calibration factor, data type, and
    raises for the first field that differs, naming the value of the buffer
    and the value of the packet; the data type compared is that of the
    packet after the conversion of single precision data to [float32].
    Whatever the flags, the call has then done nothing but that conversion:
    nothing is printed, no processing function is invoked, no memory is
    touched and the accumulator is as it was. *)
Theorem append_reports_the_first_field_that_differs
        (st : State) (p : nat) (t : Trace) (gap_overlap_check verbose : bool) :
  have_appended_data (self st) = true ->
  traces st !! p = Some t ->
  (getId (base (self st)) <> getId t ->
   append signal p gap_overlap_check verbose st
   = (inl (TypeError_id (getId (base (self st))) (getId t)),
      with_packet st p (float32_converted t)))
  /\ (getId (base (self st)) = getId t ->
      ~ sampling_rate (stats (base (self st))) == sampling_rate (stats t) ->
      append signal p gap_overlap_check verbose st
      = (inl (TypeError_sampling_rate (sampling_rate (stats (base (self st))))
                                      (sampling_rate (stats t))),
         with_packet st p (float32_converted t)))
  /\ (getId (base (self st)) = getId t ->
      sampling_rate (stats (base (self st))) == sampling_rate (stats t) ->
      ~ calib (stats (base (self st))) == calib (stats t) ->
      append signal p gap_overlap_check verbose st
      = (inl (TypeError_calib (calib (stats (base (self st)))) (calib (stats t))),
         with_packet st p (float32_converted t)))
  /\ (getId (base (self st)) = getId t ->
      sampling_rate (stats (base (self st))) == sampling_rate (stats t) ->
      calib (stats (base (self st))) == calib (stats t) ->
      arr_dtype (data (base (self st))) <> arr_dtype (data (float32_converted t)) ->
      append signal p gap_overlap_check verbose st
      = (inl (TypeError_dtype (arr_dtype (data (base (self st))))
                              (arr_dtype (data (float32_converted t)))),
         with_packet st p (float32_converted t))).
Proof.
  intros Hs Ht.
  assert (Hrun : forall r,
             append_sanity_checks p (with_packet st p (float32_converted t))
             = (inl r, with_packet st p (float32_converted t)) ->
             append signal p gap_overlap_check verbose st
             = (inl r, with_packet st p (float32_converted t))).
  { intros r Hr. rewrite append_phases. unfold bind at 1.
    rewrite (append_convert_run _ _ t) by done.
    unfold bind at 1. by rewrite Hr. }
  assert (Ht0 : traces (with_packet st p (float32_converted t)) !! p
                = Some (float32_converted t)) by (by eapply with_packet_lookup).
  repeat split.
  - intros Hid. apply Hrun.
    unfold append_sanity_checks, bind, get_self, read_trace.
    change (self (with_packet st p (float32_converted t))) with (self st).
    rewrite Hs, Ht0, getId_float32_converted.
    by rewrite decide_False by done.
  - intros Hid Hsr. apply Hrun.
    unfold append_sanity_checks, bind, get_self, read_trace.
    change (self (with_packet st p (float32_converted t))) with (self st).
    rewrite Hs, Ht0, getId_float32_converted, stats_float32_converted.
    rewrite decide_True by done. simpl.
    apply Py_ne_true in Hsr. by rewrite Hsr.
  - intros Hid Hsr Hcal. apply Hrun.
    unfold append_sanity_checks, bind, get_self, read_trace.
    change (self (with_packet st p (float32_converted t))) with (self st).
    rewrite Hs, Ht0, getId_float32_converted, stats_float32_converted.
    rewrite decide_True by done. simpl.
    apply Py_ne_false in Hsr. apply Py_ne_true in Hcal. by rewrite Hsr, Hcal.
  - intros Hid Hsr Hcal Hdt. apply Hrun.
    unfold append_sanity_checks, bind, get_self, read_trace.
    change (self (with_packet st p (float32_converted t))) with (self st).
    rewrite Hs, Ht0, getId_float32_converted, stats_float32_converted.
    rewrite decide_True by done. simpl.
    apply Py_ne_false in Hsr, Hcal. rewrite Hsr, Hcal. simpl.
    by rewrite decide_False by done.
Qed.

End Mismatch.

(** ** Standard output *)

Lemma silent_ret {A} (a : A) : silent (ret a).
Proof. by intros st out. Qed.

Lemma silent_raise {A} (e : exn) : silent (@raise A e).
Proof. by intros st out. Qed.

Lemma silent_bind {A B} (c : M A) (k : A -> M B) :
  silent c -> (forall a, silent (k a)) -> silent (bind c k).
Proof.
  intros Hc Hk st out. unfold bind. rewrite Hc.
  destruct (c st) as [[e|a] st1]; simpl; [done|]. apply Hk.
Qed.

Lemma silent_get_self : silent get_self.
Proof. by intros st out. Qed.

Lemma silent_put_self (rt : RtTrace) : silent (put_self rt).
Proof. by intros st out. Qed.

Lemma silent_read_trace (p : nat) : silent (read_trace p).
Proof.
  intros st out. unfold read_trace. simpl. by destruct (traces st !! p).
Qed.

Lemma silent_record (c : invocation) : silent (record c).
Proof. by intros st out. Qed.

Lemma silent_get_memories : silent get_memories.
Proof. by intros st out. Qed.

Lemma silent_put_memories (m : list RtMemory) : silent (put_memories m).
Proof. by intros st out. Qed.

Lemma silent_new_RtMemory : silent new_RtMemory.
Proof. by intros st out. Qed.

Lemma silent_truediv (a b : Q) : silent (truediv a b).
Proof. intros st out. unfold truediv. by destruct (Qeq_bool b 0). Qed.

Lemma silent_lift {A} (r : Result A) : silent (lift r).
Proof. intros st out. by destruct r. Qed.

Lemma silent_assign_data (p : nat) (a : ndarray) : silent (assign_data p a).
Proof.
  apply silent_bind; [apply silent_read_trace|]. by intros t st out.
Qed.

Create HintDb silent.

#[local] Hint Resolve silent_ret silent_raise silent_get_self silent_put_self
  silent_read_trace silent_record silent_get_memories silent_put_memories
  silent_new_RtMemory silent_truediv silent_lift silent_assign_data : silent.

Ltac silence :=
  repeat match goal with
         | |- forall _ : _, silent _ => intro
         | |- silent (bind _ _) => apply silent_bind
         | |- silent (match ?x with _ => _ end) => destruct x
         | |- silent _ => solve [auto with silent]
         end.

Lemma silent_clear_memory (ns l : list nat) : silent (clear_memory ns l).
Proof.
  revert l. induction ns as [|n ns IH]; intros l; simpl; [apply silent_ret|].
  apply silent_bind; [apply silent_new_RtMemory|]. intros a. apply IH.
Qed.

Section Silent.

Variable signal : signal_module.

Lemma silent_append_clear (gap : bool) (i : nat) (proc : entry) :
  silent (append_clear gap i proc).
Proof.
  destruct proc as [[name opts] [l|]]; simpl; [|apply silent_ret].
  destruct gap; [|apply silent_ret].
  apply silent_bind; [apply silent_clear_memory|]. intros l'. silence.
Qed.

Lemma silent_append_call (p i : nat) (name : process) (opts : options)
      (mem : option (list nat)) :
  silent (append_call signal p i name opts mem).
Proof. unfold append_call. silence. Qed.

Lemma silent_append_process (p : nat) (gap : bool) (procs : list entry) (i : nat) :
  silent (append_process signal p gap i procs).
Proof.
  revert i. induction procs as [|proc rest IH]; intros i; simpl;
    [apply silent_ret|].
  apply silent_bind; [|intros []; apply IH].
  unfold append_apply. apply silent_bind; [apply silent_append_clear|].
  intros mem. apply silent_append_call.
Qed.

Lemma silent_append_left_trim : silent append_left_trim.
Proof. unfold append_left_trim. silence. Qed.

Lemma silent_append_merge (p : nat) : silent (append_merge p).
Proof.
  unfold append_merge. silence. apply silent_append_left_trim.
Qed.

Lemma silent_append_from_pipeline (p : nat) (gap : bool) :
  silent (append_from_pipeline signal p gap).
Proof.
  unfold append_from_pipeline.
  apply silent_bind; [apply silent_get_self|]. intros rt.
  apply silent_bind; [apply silent_append_process|]. intros [].
  apply silent_bind; [apply silent_append_merge|]. intros [].
  silence.
Qed.

End Silent.

Lemma with_stdout_same (st : State) : with_stdout st (stdout st) = st.
Proof. by destruct st. Qed.

Lemma silent_stdout {A} (c : M A) (st : State) :
  silent c -> stdout (snd (c st)) = stdout st.
Proof.
  intros Hc. specialize (Hc st (stdout st)). rewrite with_stdout_same in Hc.
  destruct (c st) as [r s]. simpl in *. injection Hc as Hs.
  rewrite Hs at 1. reflexivity.
Qed.

Ltac quiet :=
  split;
  [ unfold with_output, with_stdout, with_starttime, when; simpl;
    rewrite ?app_nil_r; reflexivity
  | unfold with_output, with_starttime, check_line, when; simpl;
    rewrite ?app_nil_r; reflexivity ].

(** The classification step with and without [verbose]. *)
Lemma append_check_times_quietly (p : nat) (strict : bool) (st s : State)
      (r : Result (option message)) :
  append_check_times p strict false st = (r, s) ->
  exists ls,
    append_check_times p strict true st = (r, with_stdout s (stdout st ++ ls))
    /\ stdout s = stdout st ++ filter is_warning ls.
Proof.
  intros H.
  destruct (have_appended_data (self st)) eqn:Hs; cycle 1.
  { rewrite append_check_times_unseeded in * by done. simplify_eq.
    exists []. rewrite !app_nil_r. by rewrite with_stdout_same. }
  destruct (traces st !! p) as [t|] eqn:Ht; cycle 1.
  { unfold append_check_times, bind, get_self, read_trace in *.
    rewrite Hs, Ht in *. simplify_eq.
    exists []. rewrite !app_nil_r. by rewrite with_stdout_same. }
  destruct (Qeq_bool (sampling_rate (stats (base (self st)))) 0) eqn:Hsr.
  - (* a sampling rate of zero: the first division raises, in both *)
    assert (Hlt : Py.lt ((starttime (stats t) - endtime (stats (base (self st))))
                         * sampling_rate (stats (base (self st))) - 1)
                        (- (1 # 10)) = true).
    { apply Py_lt_true. apply Qeq_bool_iff in Hsr. rewrite Hsr.
      rewrite Qmult_0_r. reflexivity. }
    unfold append_check_times, bind, get_self, read_trace, truediv in *.
    rewrite Hs, Ht, Hsr in *. unfold ret in H. rewrite Hlt in H.
    unfold raise in *. simplify_eq.
    exists []. rewrite !app_nil_r. by rewrite with_stdout_same.
  - apply Qeq_bool_neq in Hsr.
    destruct (Qlt_le_dec (delta_of (self st) t) (- (1 # 10))) as [Hlt|Hlo].
    { destruct strict.
      - rewrite (append_check_times_overlap_strict _ _ t) in * by done.
        simplify_eq. exists [check_line (self st) t]. quiet.
      - rewrite (append_check_times_overlap_lenient _ _ t) in * by done.
        simplify_eq. eexists (check_line (self st) t :: _). quiet. }
    destruct (Qlt_le_dec (1 # 10) (delta_of (self st) t)) as [Hgt|Hhi].
    { destruct strict.
      - rewrite (append_check_times_gap_strict _ _ t) in * by done.
        simplify_eq. exists [check_line (self st) t]. quiet.
      - rewrite (append_check_times_gap_lenient _ _ t) in * by done.
        simplify_eq. eexists (check_line (self st) t :: _). quiet. }
    rewrite (append_check_times_contiguous _ _ t) in * by done.
    simplify_eq. eexists [check_line (self st) t; _]. quiet.
Qed.

Section Verbose.

Variable signal : signal_module.

(** X11: [verbose] changes nothing but standard output.  A call of [append] with
    [verbose] set ends as the same call without it: the same value or the
    same exception, the same accumulator, packets, memory and invocations.
    It prints the lines of the quiet call, which are the warning for a gap
    or overlap that is not raised, and between them its own. *)
Theorem verbose_changes_nothing_but_the_output
        (p : nat) (gap_overlap_check : bool) (st s : State) (r : Result value) :
  append signal p gap_overlap_check false st = (r, s) ->
  exists ls,
    append signal p gap_overlap_check true st
    = (r, with_stdout s (stdout st ++ ls))
    /\ stdout s = stdout st ++ filter is_warning ls.
Proof.
  intros H.
  destruct (traces st !! p) as [t|] eqn:Ht; cycle 1.
  { rewrite append_dangling in * by done. simplify_eq.
    exists []. rewrite !app_nil_r. by rewrite with_stdout_same. }
  rewrite append_phases in *. unfold bind at 1 in H. unfold bind at 1.
  rewrite (append_convert_run _ _ t) in * by done.
  unfold bind at 1 in H. unfold bind at 1.
  destruct (append_sanity_checks p (with_packet st p (float32_converted t)))
    as [[e|[]] st0] eqn:E0;
    pose proof (append_sanity_checks_state _ _ _ _ E0) as ->.
  { simplify_eq. exists []. by rewrite !app_nil_r. }
  unfold bind at 1 in H. unfold bind at 1.
  destruct (append_check_times p gap_overlap_check false
              (with_packet st p (float32_converted t))) as [r1 s1] eqn:E1.
  destruct (append_check_times_quietly _ _ _ _ _ E1) as (ls & Hv & Hout).
  rewrite Hv. exists ls. destruct r1 as [e|g].
  { by simplify_eq. }
  rewrite (silent_append_from_pipeline signal p _ s1), H. simpl.
  split; [done|].
  pose proof (silent_stdout _ s1 (silent_append_from_pipeline signal p
                                    (bool_decide (g ≠ None)))) as Hq.
  rewrite H in Hq. simpl in Hq. by rewrite Hq.
Qed.

End Verbose.

(** ** Timing *)

Section Timing.

Variable signal : signal_module.

(** X12: the correction of the start time pins the buffer to the packet.  When a
    contiguous packet ([-0.1 <= delta <= 0.1]) has been appended to a seeded
    buffer, the end time of the buffer is the time of the last sample of the
    packet, counted from the start time of the packet, whatever the drift
    [diff - 1/sr] was and whether the buffer was trimmed or not; so it is
    the end time of the packet if processing has kept the number of its
    samples.  The buffer holds as many samples as its header counts. *)
Theorem append_pins_the_end_time_to_the_packet
        (st st' : State) (p : nat) (t : Trace) (gap_overlap_check verbose : bool)
        (v : value) :
  have_appended_data (self st) = true ->
  traces st !! p = Some t ->
  headers_match (self st) t ->
  0 < sampling_rate (stats (base (self st))) ->
  npts (stats (base (self st))) = np.size (data (base (self st))) ->
  (forall m, max_length (self st) = Some m -> 0 < m) ->
  - (1 # 10) <= delta_of (self st) t ->
  delta_of (self st) t <= 1 # 10 ->
  append signal p gap_overlap_check verbose st = (inr v, st') ->
  exists t',
    traces st' !! p = Some t'
    /\ endtime (stats (base (self st')))
       == starttime (stats t)
          + inject_Z (np.size (data t') - 1) / sampling_rate (stats t)
    /\ (np.size (data t') = npts (stats t) ->
        endtime (stats (base (self st'))) == endtime (stats t))
    /\ npts (stats (base (self st'))) = np.size (data (base (self st'))).
Proof.
  intros Hs Ht Hm Hr Hn Hmax Hlo Hhi H.
  pose proof (rate_nonzero _ Hr) as Hr0.
  destruct Hm as (Hid & Hsr & Hcal & Hdt).
  rewrite (append_contiguous signal st p t) in H by (done || by repeat split).
  unfold append_from_pipeline, bind, get_self in H.
  match type of H with
  | context [append_process signal p false 0 _ ?s] => set (st1 := s) in *
  end.
  destruct (append_process signal p false 0 (processing (self st1)) st1)
    as [[e|[]] st2] eqn:E1; [done|].
  pose proof (append_process_frame _ _ _ _ _ _ _ _ E1) as Hf.
  destruct (pf_header _ _ _ Hf (float32_converted t)) as [a Ht2].
  { simpl. by eapply with_packet_lookup. }
  destruct (append_merge p st2) as [[e|[]] st3] eqn:E2; [done|].
  unfold put_self, ret in H. injection H as _ <-.
  rewrite (append_merge_seeded _ _ _ (eq_trans (pf_seeded _ _ _ Hf) Hs) Ht2) in E2.
  destruct (Trace___add__ (base (self st2)) (set_data (float32_converted t) a))
    as [e|sum]; [done|].
  exists (set_data (float32_converted t) a).
  (* the buffer with the packet joined, before the trim *)
  set (b := joined (base (self st2)) (set_data (float32_converted t) a)) in *.
  assert (Hb : npts (stats b) = np.size (data b)
               /\ sampling_rate (stats b) = sampling_rate (stats (base (self st)))
               /\ endtime (stats b)
                  == starttime (stats t)
                     + inject_Z (np.size a - 1) / sampling_rate (stats t)).
  { unfold b, joined. rewrite (pf_base _ _ _ Hf). simpl.
    split; [done|]. split; [done|].
    unfold endtime, np.size, np.concatenate. simpl.
    rewrite length_app, Nat2Z.inj_add.
    unfold diff_of, endtime. rewrite Hn. unfold np.size.
    rewrite <- Hsr. rewrite !inject_Z_minus, inject_Z_plus.
    field. exact Hr0. }
  destruct Hb as (Hbn & Hbsr & Hbe).
  assert (Hend : endtime (stats (base (self st3))) == endtime (stats b)
                 /\ npts (stats (base (self st3))) = np.size (data (base (self st3)))
                 /\ traces st3 = traces st2).
  { destruct (max_length (self st)) as [m|] eqn:Em.
    - destruct (append_left_trim_keeps_the_tail (with_base st2 b) m)
        as (st3' & Hrun & _ & _ & Hn3 & He3 & _).
      + simpl. by rewrite (pf_max_length _ _ _ Hf).
      + by apply Hmax.
      + change (0 < sampling_rate (stats b)). by rewrite Hbsr.
      + exact Hbn.
      + rewrite Hrun in E2. injection E2 as <-.
        destruct (append_left_trim_frame _ _ _ Hrun) as [Hmf _].
        split; [done|]. split; [done|]. apply (mf_traces _ _ Hmf).
    - rewrite append_left_trim_unbounded in E2
        by (simpl; by rewrite (pf_max_length _ _ _ Hf)).
      injection E2 as <-. by repeat split. }
  destruct Hend as (He & Hn3 & Htr). simpl.
  split; [by rewrite Htr|]. split; [by rewrite He, Hbe|]. split; [|done].
  intros Hsize. rewrite He, Hbe. unfold endtime. simpl in Hsize.
  by rewrite Hsize.
Qed.

End Timing.

(** ** The parts of a split *)

Lemma _splitTrace_loop_length (tr : Trace) (packet_length : Z) (count : nat)
      (tstart tend : Q) :
  length (_splitTrace_loop tr packet_length count tstart tend) = count.
Proof.
  revert tstart tend. induction count as [|count IH]; intros tstart tend; [done|].
  simpl. by rewrite IH.
Qed.

(** What [_splitTrace] returns for a positive count, with the length of the
    runs it cuts. *)
Lemma _splitTrace_runs (tr : Trace) (num : Z) (parts : list Trace) :
  0 < sampling_rate (stats tr) ->
  npts (stats tr) = np.size (data tr) ->
  (0 < num)%Z ->
  _splitTrace tr num = inr parts ->
  Forall2 (is_part tr (Z.to_nat (part_length (np.size (data tr)) num)))
          (seq 0 (Z.to_nat num)) parts
  /\ (0 <= part_length (np.size (data tr)) num)%Z
  /\ (np.size (data tr) <= num * part_length (np.size (data tr)) num)%Z
  /\ ((np.size (data tr) mod num = 0)%Z ->
      (np.size (data tr) = num * part_length (np.size (data tr)) num)%Z).
Proof.
  intros Hr Hn Hnum H. unfold _splitTrace in H.
  destruct (num =? 0)%Z eqn:E0; [apply Z.eqb_eq in E0; lia|].
  injection H as <-.
  pose proof (Z.div_mod (np.size (data tr)) num ltac:(lia)) as Hdm.
  pose proof (Z.mod_pos_bound (np.size (data tr)) num Hnum) as Hmod.
  assert (Hsize : (0 <= np.size (data tr))%Z) by (unfold np.size; lia).
  assert (Hdiv : (0 <= np.size (data tr) / num)%Z) by (apply Z.div_pos; lia).
  set (packet_length :=
         if (np.size (data tr) mod num =? 0)%Z
         then (np.size (data tr) / num - 1)%Z
         else (np.size (data tr) / num)%Z) in *.
  assert (Hlen : part_length (np.size (data tr)) num = (packet_length + 1)%Z).
  { unfold part_length, packet_length.
    destruct (np.size (data tr) mod num =? 0)%Z; lia. }
  assert (Hp : (-1 <= packet_length)%Z).
  { unfold packet_length. clear - Hdiv.
    destruct (np.size (data tr) mod num =? 0)%Z; lia. }
  rewrite Hlen. split; [|split; [lia|split]].
  - apply _splitTrace_loop_parts; try done.
    + rewrite Nat.mul_0_l. change (inject_Z (Z.of_nat 0)) with 0.
      field. by apply rate_nonzero.
    + rewrite Nat.mul_0_l. change (Z.of_nat 0 + packet_length)%Z with packet_length.
      unfold delta. field. by apply rate_nonzero.
  - unfold packet_length. clear - Hdm Hmod Hnum.
    destruct (np.size (data tr) mod num =? 0)%Z eqn:E.
    + apply Z.eqb_eq in E. nia.
    + nia.
  - intros Hz. unfold packet_length. rewrite Hz. simpl. clear - Hdm Hz. nia.
Qed.

(** Consecutive runs of one length, put one after the other. *)
Lemma runs_concat {A} (f : Trace -> list A) (l : list A) (len : nat)
      (n i : nat) (parts : list Trace) :
  Forall2 (fun j part => f part = take len (drop (j * len) l)) (seq i n) parts ->
  concat (List.map f parts) = take (n * len) (drop (i * len) l).
Proof.
  revert i parts. induction n as [|n IH]; intros i parts H.
  - inversion H. done.
  - simpl in H. inversion H as [|j part js rest Hj Hrest]; subst.
    simpl. rewrite Hj, (IH (S i) rest Hrest).
    rewrite <- take_take_drop. f_equal. f_equal. rewrite drop_drop.
    f_equal. lia.
Qed.

(** X14: splitting loses no sample and invents none: for a series with a positive
    sampling rate whose header counts its samples, and a positive count, the
    sample arrays of the parts, one after the other, are the sample array of
    the series; every part has the data type and the channel of the series
    and a header that counts its samples. *)
Theorem _splitTrace_loses_no_sample (tr : Trace) (num : Z) (parts : list Trace) :
  0 < sampling_rate (stats tr) ->
  npts (stats tr) = np.size (data tr) ->
  (0 < num)%Z ->
  _splitTrace tr num = inr parts ->
  concat (List.map (fun part => arr_values (data part)) parts)
  = arr_values (data tr)
  /\ Forall (fun part => arr_dtype (data part) = arr_dtype (data tr)
                         /\ same_channel (stats tr) (stats part)
                         /\ npts (stats part) = np.size (data part)) parts.
Proof.
  intros Hr Hn Hnum H.
  destruct (_splitTrace_runs _ _ _ Hr Hn Hnum H) as (Hparts & Hlen & Hcover & _).
  split.
  - rewrite (runs_concat _ (arr_values (data tr))
               (Z.to_nat (part_length (np.size (data tr)) num))
               (Z.to_nat num) 0).
    + simpl. rewrite drop_0. apply take_ge. unfold np.size in *. nia.
    + eapply Forall2_impl; [exact Hparts|]. by intros j part (Hv & _).
  - eapply Forall2_Forall_r; [exact Hparts|].
    apply Forall_forall. intros part _ j (_ & Hd & Hc & _ & Hs). done.
Qed.

(** X15: the sizes of the parts, for a series of [total] samples and a positive
    count [num]: the parts take [len] samples each, the quotient
    [total // num] rounded up, as long as there are samples; the part that
    takes the last samples may be shorter, and the parts after it are empty.
    If [num] divides [total] all parts have [total // num] samples. *)
Theorem _splitTrace_part_sizes (tr : Trace) (num : Z) (parts : list Trace) :
  0 < sampling_rate (stats tr) ->
  npts (stats tr) = np.size (data tr) ->
  (0 < num)%Z ->
  _splitTrace tr num = inr parts ->
  Forall2 (fun j part =>
             np.size (data part)
             = Z.max 0 (Z.min (part_length (np.size (data tr)) num)
                              (np.size (data tr)
                               - Z.of_nat j * part_length (np.size (data tr)) num)))
          (seq 0 (Z.to_nat num)) parts
  /\ ((np.size (data tr) mod num = 0)%Z ->
      Forall (fun part => np.size (data part) = (np.size (data tr) / num)%Z) parts).
Proof.
  intros Hr Hn Hnum H.
  destruct (_splitTrace_runs _ _ _ Hr Hn Hnum H) as (Hparts & Hlen & Hcover & Hex).
  assert (Hsizes :
            Forall2 (fun j part =>
                       np.size (data part)
                       = Z.max 0 (Z.min (part_length (np.size (data tr)) num)
                                    (np.size (data tr)
                                     - Z.of_nat j
                                       * part_length (np.size (data tr)) num)))
                    (seq 0 (Z.to_nat num)) parts).
  { eapply Forall2_impl; [exact Hparts|]. intros j part (Hv & _).
    unfold np.size in *. rewrite Hv, length_take, length_drop.
    set (L := part_length (Z.of_nat (length (arr_values (data tr)))) num) in *.
    assert (Hmul : Z.of_nat (j * Z.to_nat L) = (Z.of_nat j * L)%Z)
      by (rewrite Nat2Z.inj_mul, Z2Nat.id; lia).
    clear - Hmul Hlen. lia. }
  split; [done|]. intros Hz. specialize (Hex Hz).
  assert (Hq : (np.size (data tr) / num
                = part_length (np.size (data tr)) num)%Z).
  { unfold part_length. apply Z.eqb_eq in Hz. by rewrite Hz. }
  rewrite Hq.
  eapply Forall2_Forall_r; [exact Hsizes|].
  apply Forall_forall. intros j Hj part ->.
  apply elem_of_seq in Hj. nia.
Qed.

(** ** The first packet *)

Section Seeding.

Variable signal : signal_module.

(** X16: the first packet goes through the registered processes like any other,
    and the buffer is seeded with what they return.  On an unseeded
    accumulator [append] checks no header and no time, whatever the flags:
    it prints nothing and replaces no memory reference.  If it raises, the
    exception comes out of the pipeline and the accumulator is as it was,
    still unseeded.  If it returns, it returns the packet, and the buffer is
    equal to the packet as the pipeline left it: the processed samples under
    the header of the packet. *)
Theorem append_seeds_with_the_processed_packet
        (st st' : State) (p : nat) (t : Trace) (gap_overlap_check verbose : bool)
        (r : Result value) :
  have_appended_data (self st) = false ->
  traces st !! p = Some t ->
  append signal p gap_overlap_check verbose st = (r, st') ->
  stdout st' = stdout st
  /\ processing (self st') = processing (self st)
  /\ match r with
     | inl e => pipeline_error e /\ self st' = self st
     | inr v =>
         v = Ref_Trace p
         /\ have_appended_data (self st') = true
         /\ exists t',
             traces st' !! p = Some t'
             /\ stats t' = stats t
             /\ base (self st') = t'
     end.
Proof.
  intros Hs Ht H.
  rewrite (append_checked _ _ _ _ _ t) in H by (done || congruence).
  unfold bind in H. rewrite append_check_times_unseeded in H by done.
  rewrite bool_decide_false in H by (intros E; by apply E).
  assert (Ht0 : traces (with_packet st p (float32_converted t)) !! p
                = Some (float32_converted t)) by (by eapply with_packet_lookup).
  unfold append_from_pipeline, bind, get_self in H.
  destruct (append_process signal p false 0
              (processing (self (with_packet st p (float32_converted t))))
              (with_packet st p (float32_converted t))) as [r1 st1] eqn:E1.
  pose proof (append_process_frame _ _ _ _ _ _ _ _ E1) as Hf.
  destruct (append_process_calls _ _ _ _ _ _ _ _ _ eq_refl Ht0 E1)
    as (new & _ & _ & _ & _ & _ & Hgap).
  destruct (Hgap eq_refl) as [Hp _]. simpl in Hp.
  destruct r1 as [e|[]].
  - injection H as <- <-. split; [apply (pf_stdout _ _ _ Hf)|]. split; [done|].
    split; [by eapply append_process_error|].
    pose proof (pf_base _ _ _ Hf) as Hb. pose proof (pf_max_length _ _ _ Hf) as Hm.
    pose proof (pf_seeded _ _ _ Hf) as Hd. simpl in Hb, Hm, Hd.
    destruct (self st1), (self st). simpl in *. by subst.
  - destruct (pf_header _ _ _ Hf _ Ht0) as [a Ha].
    rewrite (append_merge_unseeded _ _ (set_data (float32_converted t) a)) in H;
      [|by rewrite (pf_seeded _ _ _ Hf)|done].
    unfold put_self, ret in H. injection H as <- <-. simpl.
    split; [apply (pf_stdout _ _ _ Hf)|]. split; [done|].
    split; [done|]. split; [done|].
    exists (set_data (float32_converted t) a).
    split; [done|]. split; [apply stats_float32_converted|done].
Qed.

End Seeding.

(** ** The flag [gap_overlap_check] *)

(** The classification step with and without [gap_overlap_check]. *)
Lemma append_check_times_strictly (p : nat) (verbose : bool) (st s : State)
      (r : Result (option message)) :
  append_check_times p true verbose st = (r, s) ->
  (exists msg, r = inl (TypeError_continuity msg))
  \/ append_check_times p false verbose st = (r, s).
Proof.
  intros H.
  destruct (have_appended_data (self st)) eqn:Hs; cycle 1.
  { right. rewrite append_check_times_unseeded in * by done. done. }
  destruct (traces st !! p) as [t|] eqn:Ht; cycle 1.
  { right. unfold append_check_times, bind, get_self, read_trace in *.
    by rewrite Hs, Ht in *. }
  destruct (Qeq_bool (sampling_rate (stats (base (self st)))) 0) eqn:Hsr.
  - (* a sampling rate of zero: the first division raises, flag or not *)
    right.
    assert (Hlt : Py.lt ((starttime (stats t) - endtime (stats (base (self st))))
                         * sampling_rate (stats (base (self st))) - 1)
                        (- (1 # 10)) = true).
    { apply Py_lt_true. apply Qeq_bool_iff in Hsr. rewrite Hsr.
      rewrite Qmult_0_r. reflexivity. }
    unfold append_check_times, bind, get_self, read_trace, truediv in *.
    rewrite Hs, Ht, Hsr in *. unfold ret in *. rewrite Hlt in *.
    unfold raise in *. by destruct verbose.
  - apply Qeq_bool_neq in Hsr.
    destruct (Qlt_le_dec (delta_of (self st) t) (- (1 # 10))) as [Hlt|Hlo].
    { left. rewrite (append_check_times_overlap_strict _ _ t) in H by done.
      injection H as <- _. by eexists. }
    destruct (Qlt_le_dec (1 # 10) (delta_of (self st) t)) as [Hgt|Hhi].
    { left. rewrite (append_check_times_gap_strict _ _ t) in H by done.
      injection H as <- _. by eexists. }
    right. rewrite (append_check_times_contiguous _ _ t) in * by done. done.
Qed.

Section Strict.

Variable signal : signal_module.

(** X17: [gap_overlap_check] does one thing only: it turns a gap or an overlap
    into an exception.  A call of [append] with the flag set either raises
    the [TypeError] of a gap or overlap, or it ends exactly as the same
    call without the flag: the same value or exception and the same state
    of the accumulator, the packets, the memory and standard output. *)
Theorem gap_overlap_check_only_turns_gaps_into_errors
        (p : nat) (verbose : bool) (st st' : State) (r : Result value) :
  append signal p true verbose st = (r, st') ->
  (exists msg, r = inl (TypeError_continuity msg))
  \/ append signal p false verbose st = (r, st').
Proof.
  intros H.
  destruct (traces st !! p) as [t|] eqn:Ht; cycle 1.
  { right. by rewrite append_dangling in * by done. }
  rewrite append_phases in *. unfold bind at 1 in H. unfold bind at 1.
  rewrite (append_convert_run _ _ t) in * by done.
  unfold bind at 1 in H. unfold bind at 1.
  destruct (append_sanity_checks p (with_packet st p (float32_converted t)))
    as [[e|[]] st0] eqn:E0;
    pose proof (append_sanity_checks_state _ _ _ _ E0) as ->.
  { by right. }
  unfold bind at 1 in H. unfold bind at 1.
  destruct (append_check_times p true verbose
              (with_packet st p (float32_converted t))) as [r1 s1] eqn:E1.
  destruct (append_check_times_strictly _ _ _ _ _ E1) as [[msg ->]|Hsame].
  - left. injection H as <- _. by eexists.
  - right. by rewrite Hsame.
Qed.

End Strict.

(** ** The retained window *)

(** The left trim keeps the data type and the channel. *)
Lemma append_left_trim_header (st st' : State) :
  0 < sampling_rate (stats (base (self st))) ->
  npts (stats (base (self st))) = np.size (data (base (self st))) ->
  append_left_trim st = (inr tt, st') ->
  arr_dtype (data (base (self st'))) = arr_dtype (data (base (self st)))
  /\ same_channel (stats (base (self st))) (stats (base (self st'))).
Proof.
  intros Hr Hn H. pose proof (rate_nonzero _ Hr) as Hr0.
  unfold append_left_trim, bind, get_self in H.
  destruct (max_length (self st)) as [m|];
    [|injection H as <-; split; [done|apply same_channel_refl]].
  set (max_samples := Py.int (m * sampling_rate (stats (base (self st))) + (1 # 2)))
    in *.
  destruct (max_samples <? np.size (data (base (self st))))%Z eqn:E;
    [|injection H as <-; split; [done|apply same_channel_refl]].
  apply Z.ltb_lt in E. rewrite truediv_run in H by exact Hr0.
  unfold put_self in H. injection H as <-. simpl.
  destruct (Z_le_gt_dec 0 (np.size (data (base (self st))) - max_samples))
    as [Hpos|Hneg]; [|lia].
  destruct (_ltrim_cut (base (self st)) Hr Hn
              (np.size (data (base (self st))) - max_samples)
              (starttime (stats (base (self st)))
               + inject_Z (np.size (data (base (self st))) - max_samples)
                 / sampling_rate (stats (base (self st))))
              Hpos ltac:(reflexivity))
    as (_ & Hd & _ & _ & Hc).
  by split.
Qed.

Section Window.

Variable signal : signal_module.

(** A contiguous packet on a seeded accumulator, when [append] returns. *)
Lemma append_contiguous_returns (st st' : State) (p : nat) (t : Trace)
      (strict verbose : bool) (v : value) :
  have_appended_data (self st) = true ->
  traces st !! p = Some t ->
  headers_match (self st) t ->
  0 < sampling_rate (stats (base (self st))) ->
  npts (stats (base (self st))) = np.size (data (base (self st))) ->
  (forall m, max_length (self st) = Some m -> 0 < m) ->
  - (1 # 10) <= delta_of (self st) t ->
  delta_of (self st) t <= 1 # 10 ->
  append signal p strict verbose st = (inr v, st') ->
  exists a,
    traces st' !! p = Some (set_data (float32_converted t) a)
    /\ (forall q, q <> p -> traces st' !! q = traces st !! q)
    /\ have_appended_data (self st') = true
    /\ max_length (self st') = max_length (self st)
    /\ processing (self st') = processing (self st)
    /\ arr_values (data (base (self st')))
       = retained (self st) (arr_values (data (base (self st))) ++ arr_values a)
    /\ arr_dtype (data (base (self st'))) = arr_dtype (data (base (self st)))
    /\ npts (stats (base (self st'))) = np.size (data (base (self st')))
    /\ endtime (stats (base (self st')))
       == starttime (stats t) + inject_Z (np.size a - 1) / sampling_rate (stats t)
    /\ same_channel (stats (base (self st))) (stats (base (self st')))
    /\ (processing (self st) = [] -> a = data (float32_converted t)).
Proof.
  intros Hs Ht Hm Hr Hn Hmax Hlo Hhi H.
  pose proof (rate_nonzero _ Hr) as Hr0.
  destruct Hm as (Hid & Hsr & Hcal & Hdt).
  rewrite (append_contiguous signal st p t) in H by (done || by repeat split).
  unfold append_from_pipeline, bind, get_self in H.
  match type of H with
  | context [append_process signal p false 0 _ ?s] => set (st1 := s) in *
  end.
  assert (Ht1 : traces st1 !! p = Some (float32_converted t)).
  { simpl. by eapply with_packet_lookup. }
  destruct (append_process signal p false 0 (processing (self st1)) st1)
    as [[e|[]] st2] eqn:E1; [done|].
  pose proof (append_process_frame _ _ _ _ _ _ _ _ E1) as Hf.
  destruct (append_process_calls _ _ _ _ _ _ _ _ _ eq_refl Ht1 E1)
    as (new & _ & _ & _ & _ & _ & Hgap).
  destruct (Hgap eq_refl) as [Hproc _].
  destruct (pf_header _ _ _ Hf (float32_converted t) Ht1) as [a Ht2].
  destruct (append_merge p st2) as [[e|[]] st3] eqn:E2; [done|].
  unfold put_self, ret in H. injection H as _ <-.
  rewrite (append_merge_seeded _ _ _ (eq_trans (pf_seeded _ _ _ Hf) Hs) Ht2) in E2.
  destruct (Trace___add__ (base (self st2)) (set_data (float32_converted t) a))
    as [e|sum]; [done|].
  exists a.
  (* the buffer with the packet joined, before the trim *)
  set (b := joined (base (self st2)) (set_data (float32_converted t) a)) in *.
  assert (Hb : npts (stats b) = np.size (data b)
               /\ sampling_rate (stats b) = sampling_rate (stats (base (self st)))
               /\ arr_values (data b)
                  = arr_values (data (base (self st))) ++ arr_values a
               /\ arr_dtype (data b) = arr_dtype (data (base (self st)))
               /\ same_channel (stats (base (self st))) (stats b)
               /\ endtime (stats b)
                  == starttime (stats t)
                     + inject_Z (np.size a - 1) / sampling_rate (stats t)).
  { unfold b, joined. rewrite (pf_base _ _ _ Hf). simpl.
    do 4 (split; [done|]). split.
    - apply same_channel_set_npts, same_channel_set_starttime, same_channel_refl.
    - unfold endtime, np.size, np.concatenate. simpl.
      rewrite length_app, Nat2Z.inj_add.
      unfold diff_of, endtime. rewrite Hn. unfold np.size.
      rewrite <- Hsr. rewrite !inject_Z_minus, inject_Z_plus.
      field. exact Hr0. }
  destruct Hb as (Hbn & Hbsr & Hbv & Hbd & Hbc & Hbe).
  assert (Hrb : 0 < sampling_rate (stats (base (self (with_base st2 b))))).
  { change (0 < sampling_rate (stats b)). by rewrite Hbsr. }
  destruct (append_left_trim_frame _ _ _ E2) as [Hmf Hseed].
  destruct (append_left_trim_header _ _ Hrb Hbn E2) as [Hd3 Hc3].
  change (base (self (with_base st2 b))) with b in Hd3, Hc3.
  assert (Htrim : arr_values (data (base (self st3)))
                  = retained (self st) (arr_values (data b))
                  /\ npts (stats (base (self st3))) = np.size (data (base (self st3)))
                  /\ endtime (stats (base (self st3))) == endtime (stats b)).
  { destruct (max_length (self st)) as [m|] eqn:Em.
    - destruct (append_left_trim_keeps_the_tail (with_base st2 b) m)
        as (st3' & Hrun & _ & Hv3 & Hn3 & He3 & _).
      + simpl. by rewrite (pf_max_length _ _ _ Hf).
      + by apply Hmax.
      + exact Hrb.
      + exact Hbn.
      + rewrite Hrun in E2. injection E2 as <-.
        split; [|by split].
        change (base (self (with_base st2 b))) with b in Hv3.
        rewrite Hbsr in Hv3. rewrite Hv3. unfold retained, most_recent.
        rewrite Em. reflexivity.
    - rewrite append_left_trim_unbounded in E2
        by (simpl; by rewrite (pf_max_length _ _ _ Hf)).
      injection E2 as <-. unfold retained. rewrite Em. by repeat split. }
  destruct Htrim as (Hv3 & Hn3 & He3). simpl.
  split; [by rewrite (mf_traces _ _ Hmf)|].
  split.
  { intros q Hq. rewrite (mf_traces _ _ Hmf). simpl.
    rewrite (pf_others _ _ _ Hf q Hq). simpl. by apply list_lookup_insert_ne. }
  split; [done|].
  split; [rewrite (mf_max_length _ _ Hmf); simpl;
          by rewrite (pf_max_length _ _ _ Hf)|].
  split; [rewrite (mf_processing _ _ Hmf); simpl; by rewrite Hproc|].
  split; [by rewrite Hv3, Hbv|].
  split; [by rewrite Hd3, Hbd|].
  split; [done|].
  split; [by rewrite He3, Hbe|].
  split; [by eapply same_channel_trans|].
  intros Hnone. change (processing (self st1)) with (processing (self st)) in E1.
  rewrite Hnone in E1. simpl in E1. unfold ret in E1. injection E1 as <-.
  rewrite Ht1 in Ht2. injection Ht2 as Heq.
  rewrite Heq at 1. reflexivity.
Qed.

(** X18: the buffer is a window on the most recent samples.  When a
    contiguous packet ([-0.1 <= delta <= 0.1]) has been appended to a seeded
    buffer, the buffer holds the samples it held, followed by the samples of
    the packet as the pipeline left them, cut from the beginning down to the
    last [int(max_length * sampling_rate + 0.5)] of them if there is a
    [max_length] (and nothing is cut if there are no more); no sample is
    padded or reordered, and the data type is the one of the buffer. *)
Theorem append_keeps_the_most_recent_samples
        (st st' : State) (p : nat) (t : Trace) (gap_overlap_check verbose : bool)
        (v : value) :
  have_appended_data (self st) = true ->
  traces st !! p = Some t ->
  headers_match (self st) t ->
  0 < sampling_rate (stats (base (self st))) ->
  npts (stats (base (self st))) = np.size (data (base (self st))) ->
  (forall m, max_length (self st) = Some m -> 0 < m) ->
  - (1 # 10) <= delta_of (self st) t ->
  delta_of (self st) t <= 1 # 10 ->
  append signal p gap_overlap_check verbose st = (inr v, st') ->
  exists t',
    traces st' !! p = Some t'
    /\ arr_values (data (base (self st')))
       = retained (self st)
                  (arr_values (data (base (self st))) ++ arr_values (data t'))
    /\ arr_dtype (data (base (self st'))) = arr_dtype (data (base (self st)))
    /\ npts (stats (base (self st'))) = np.size (data (base (self st'))).
Proof.
  intros Hs Ht Hm Hr Hn Hmax Hlo Hhi H.
  destruct (append_contiguous_returns _ _ _ _ _ _ _ Hs Ht Hm Hr Hn Hmax Hlo Hhi H)
    as (a & Ht' & _ & _ & _ & _ & Hv & Hd & Hn' & _).
  exists (set_data (float32_converted t) a). by repeat split.
Qed.

End Window.

(** ** Splitting a series and appending the parts to a bounded accumulator *)

Lemma most_recent_all (n : Z) (samples : list Q) :
  (Z.of_nat (length samples) <= n)%Z -> most_recent n samples = samples.
Proof.
  intros H. unfold most_recent. by replace (Z.to_nat _) with 0%nat by lia.
Qed.

(** The most recent samples of the most recent samples and more. *)
Lemma most_recent_app (n : Z) (old new : list Q) :
  (0 <= n)%Z ->
  most_recent n (most_recent n old ++ new) = most_recent n (old ++ new).
Proof.
  intros Hn. destruct (Z_le_gt_dec (Z.of_nat (length old)) n) as [Hle|Hgt].
  { by rewrite (most_recent_all n old). }
  unfold most_recent. rewrite !length_app, length_drop.
  rewrite !drop_app, length_drop, drop_drop.
  f_equal; f_equal; lia.
Qed.

Section Window.

Variable signal : signal_module.
Variable tr : Trace.
Variable m : Q.
Variable len : nat.
Hypothesis rate : 0 < sampling_rate (stats tr).
Hypothesis bound : 0 < m.

Lemma max_samples_nonneg :
  (0 <= Py.int (m * sampling_rate (stats tr) + (1 # 2)))%Z.
Proof using rate bound.
  apply Py_int_nonneg. apply Qlt_le_weak.
  apply (Qlt_trans _ (1 # 2)); [reflexivity|].
  rewrite <- (Qplus_0_l (1 # 2)) at 1. apply Qplus_lt_l.
  rewrite <- (Qmult_0_l (sampling_rate (stats tr))).
  by apply Qmult_lt_compat_r.
Qed.

Lemma windowed_first (part : Trace) :
  is_part tr len 0 part ->
  windowed tr m len 1 (mk_RtTrace (Some m) true [] (float32_converted part)).
Proof using rate.
  intros (Hv & Hd & Hn & Hs & Hc). unfold windowed. simpl.
  rewrite values_float32_converted, stats_float32_converted,
    !dtype_float32_converted, Hd.
  destruct (same_channel_fields _ _ Hc) as (_ & _ & _ & _ & Hsr & _).
  assert (Hval : arr_values (data part)
                 = take (len + 0) (arr_values (data tr))).
  { rewrite Hv. simpl. by rewrite Nat.add_0_r. }
  repeat split; try done.
  - rewrite Hn. unfold np.size. by rewrite values_float32_converted.
  - unfold endtime. rewrite Hn, Hs, Hsr. unfold np.size. rewrite Hval.
    simpl. field. by apply rate_nonzero.
Qed.

Lemma windowed_next (st : State) (k : nat) (part : Trace) :
  (1 <= k)%nat ->
  windowed tr m len k (self st) ->
  traces st !! k = Some part ->
  is_part tr len k part ->
  arr_values (data part) <> [] ->
  exists st',
    append signal k true false st = (inr (Ref_Trace k), st')
    /\ windowed tr m len (S k) (self st')
    /\ forall q, q <> k -> traces st' !! q = traces st !! q.
Proof using rate bound.
  intros Hk (Hs & Hp & Hmax & Hv & Hd & Hn & He & Hc) Ht
         (Hpv & Hpd & Hpn & Hps & Hpc) Hne.
  pose proof (rate_nonzero tr rate) as Hr.
  pose proof max_samples_nonneg as Hpos.
  destruct (same_channel_fields _ _ Hc) as (_ & _ & _ & _ & Hsr & Hcal).
  destruct (same_channel_fields _ _ Hpc) as (_ & _ & _ & _ & Hpsr & Hpcal).
  (* the runs given so far were full *)
  assert (Hlen : (k * len < length (arr_values (data tr)))%nat).
  { destruct (decide (k * len < length (arr_values (data tr)))%nat); [done|].
    exfalso. apply Hne. rewrite Hpv, drop_ge by lia. by rewrite take_nil. }
  assert (Hfull : length (take (k * len) (arr_values (data tr))) = (k * len)%nat).
  { rewrite length_take. lia. }
  assert (Hdiff : diff_of (self st) part == 1 / sampling_rate (stats tr)).
  { unfold diff_of. rewrite He, Hps, Hfull, inject_Z_minus.
    field. exact Hr. }
  assert (Hm : headers_match (self st) part).
  { unfold headers_match. rewrite dtype_float32_converted, Hpd.
    rewrite dtype_float32_converted in Hd.
    rewrite Hsr, Hpsr, Hcal, Hpcal.
    rewrite (getId_same_channel tr part Hpc).
    pose proof (getId_same_channel tr (base (self st)) Hc) as ->.
    done. }
  assert (Hdelta : delta_of (self st) part == 0).
  { unfold delta_of. rewrite Hdiff, Hsr. field. exact Hr. }
  destruct (append signal k true false st) as [[e|v] st'] eqn:E.
  { (* the call returns: nothing is registered, the headers match and the
       packet is contiguous *)
    exfalso.
    rewrite (append_contiguous signal st k part Hs Ht Hm) in E;
      [|by rewrite Hsr|rewrite Hdelta; by vm_compute|rewrite Hdelta; by vm_compute].
    unfold append_from_pipeline, bind, get_self in E. simpl in E.
    rewrite Hp in E. simpl in E.
    rewrite (append_merge_seeded _ _ (float32_converted part)) in E;
      [|done|simpl; by eapply with_packet_lookup].
    destruct Hm as (Hid & Hsr' & Hcal' & Hdt').
    rewrite Trace___add___matching in E; simpl; try done;
      try (by rewrite ?getId_float32_converted, ?stats_float32_converted).
    match type of E with
    | context [append_left_trim ?s] =>
        destruct (append_left_trim_keeps_the_tail s m) as (s' & Hrun & _)
    end; try done.
    - simpl. by rewrite Hsr.
    - rewrite Hrun in E. by simpl in E. }
  destruct (append_contiguous_returns signal st st' k part true false v)
    as (a & Ht' & Hoth & Hs' & Hmax' & Hp' & Hv' & Hd' & Hn' & He' & Hc' & Ha);
    try done.
  { by rewrite Hsr. }
  { intros m' Hm'. rewrite Hmax in Hm'. by injection Hm' as <-. }
  { rewrite Hdelta. by vm_compute. }
  { rewrite Hdelta. by vm_compute. }
  specialize (Ha Hp). subst a.
  assert (Hv2 : v = Ref_Trace k).
  { rewrite (append_contiguous signal st k part Hs Ht Hm) in E;
      [|by rewrite Hsr|rewrite Hdelta; by vm_compute|rewrite Hdelta; by vm_compute].
    unfold append_from_pipeline, bind, get_self, put_self, ret in E.
    repeat case_match; by simplify_eq. }
  subst v. exists st'. split; [done|]. split; [|done].
  (* the samples given so far, with the run of [part] *)
  assert (Hruns : take (k * len) (arr_values (data tr)) ++ arr_values (data part)
                  = take (S k * len) (arr_values (data tr))).
  { rewrite Hpv, take_take_drop. f_equal. lia. }
  unfold windowed. rewrite Hs', Hp', Hp, Hmax', Hmax, Hd', Hd, Hn'.
  do 3 (split; [done|]). split; [|split; [done|split; [done|split]]].
  - rewrite Hv'. unfold retained. rewrite Hmax, Hsr.
    rewrite values_float32_converted.
    replace (S k =? 1)%nat with false by (symmetry; apply Nat.eqb_neq; lia).
    rewrite Hv. destruct (k =? 1)%nat.
    + by rewrite Hruns.
    + rewrite most_recent_app by exact Hpos. by rewrite Hruns.
  - rewrite He', Hps, Hpsr.
    rewrite <- Hruns, length_app, Hfull.
    unfold np.size. rewrite values_float32_converted.
    rewrite Nat2Z.inj_add, !inject_Z_minus, inject_Z_plus. field. exact Hr.
  - eapply same_channel_trans; [exact Hc|exact Hc'].
Qed.

Lemma append_each_window (n : nat) :
  forall (k : nat) (st : State),
    (1 <= k)%nat ->
    windowed tr m len k (self st) ->
    (forall j, (k <= j < k + n)%nat ->
               exists part, traces st !! j = Some part
                            /\ is_part tr len j part
                            /\ arr_values (data part) <> []) ->
    exists st',
      append_each signal (seq k n) true false st = (inr tt, st')
      /\ windowed tr m len (k + n) (self st').
Proof using rate bound.
  induction n as [|n IH]; intros k st Hk Hw Hparts.
  - exists st. rewrite Nat.add_0_r. by split.
  - destruct (Hparts k ltac:(lia)) as (part & Ht & Hp & Hne).
    destruct (windowed_next st k part Hk Hw Ht Hp Hne) as (st1 & Hrun & Hw1 & Htr).
    destruct (IH (S k) st1 ltac:(lia) Hw1) as (st' & Hrest & Hw').
    { intros j Hj. rewrite Htr by lia. apply Hparts. lia. }
    exists st'. simpl. unfold bind. rewrite Hrun, Hrest.
    split; [done|]. by replace (k + S n)%nat with (S k + n)%nat by lia.
Qed.

End Window.

Section BoundedRoundTrip.

Variable signal : signal_module.

(** X19: splitting and appending with a maximum length.  If [_splitTrace]
    cuts a series (positive sampling rate, sample count in the header equal
    to the number of samples) into two parts or more, none of them empty,
    and the parts are appended in their order, under [gap_overlap_check], to
    a fresh accumulator without processing that is to keep [max_length]
    seconds, then no call raises, and the buffer is left with the last
    [int(max_length * sampling_rate + 0.5)] samples of the series (all of
    them if the series has no more) and ends where the series ends. *)
Theorem split_then_append_retains_the_end_of_the_series
        (tr : Trace) (num : Z) (parts : list Trace) (st : State) (m : Q) :
  0 < sampling_rate (stats tr) ->
  npts (stats tr) = np.size (data tr) ->
  _splitTrace tr num = inr parts ->
  Z.of_nat (length parts) = num ->
  (2 <= num)%Z ->
  Forall (fun part => arr_values (data part) <> []) parts ->
  have_appended_data (self st) = false ->
  processing (self st) = [] ->
  max_length (self st) = Some m ->
  0 < m ->
  traces st = parts ->
  exists st',
    append_each signal (seq 0 (length parts)) true false st = (inr tt, st')
    /\ arr_values (data (base (self st')))
       = most_recent (Py.int (m * sampling_rate (stats tr) + (1 # 2)))
                     (arr_values (data tr))
    /\ npts (stats (base (self st'))) = np.size (data (base (self st')))
    /\ endtime (stats (base (self st'))) == endtime (stats tr).
Proof.
  intros Hr Hn Hsplit Hnum Htwo Hne Hs Hp Hmax Hm Htr.
  assert (Hpos : (0 < num)%Z) by lia.
  destruct (_splitTrace_parts tr num parts Hr Hn Hpos Hsplit)
    as (len & Hparts & Hcover).
  assert (Hcount : Z.to_nat num = length parts) by lia.
  rewrite Hcount in Hparts, Hcover.
  (* every part is the run of its index, and is not empty *)
  assert (Hpart : forall j, (j < length parts)%nat ->
                            exists part, traces st !! j = Some part
                                         /\ is_part tr len j part
                                         /\ arr_values (data part) <> []).
  { intros j Hj. rewrite Htr.
    destruct (lookup_lt_is_Some_2 parts j Hj) as [part Hl].
    exists part. split; [done|]. split.
    - destruct (Forall2_lookup_r _ _ _ _ _ Hparts Hl) as (j' & Hj' & Hp').
      apply lookup_seq in Hj' as [-> _]. exact Hp'.
    - by eapply (Forall_lookup_1 _ _ _ _ Hne). }
  destruct parts as [|part0 rest]; [simpl in Hnum; lia|].
  destruct (Hpart 0%nat ltac:(simpl; lia)) as (part & Ht0 & Hp0 & _).
  simpl. unfold bind.
  rewrite (append_seeds signal st 0 part true false Hs Hp Ht0). rewrite Hmax.
  destruct (append_each_window signal tr m len Hr Hm (length rest) 1
              (mk_State (mk_RtTrace (Some m) true [] (float32_converted part))
                        (<[0%nat := float32_converted part]> (traces st))
                        (memories st) (stdout st) (invocations st)))
    as (st' & Hrun & Hw).
  { lia. }
  { by apply windowed_first. }
  { intros j Hj. simpl. rewrite list_lookup_insert_ne by lia.
    apply Hpart. simpl. lia. }
  exists st'. split; [exact Hrun|].
  destruct Hw as (_ & _ & _ & Hv & _ & Hn' & He & _).
  assert (Hall : take ((1 + length rest) * len) (arr_values (data tr))
                 = arr_values (data tr)).
  { apply take_ge. simpl in Hcover. simpl. lia. }
  rewrite Hall in Hv, He.
  replace (1 + length rest =? 1)%nat with false in Hv
    by (symmetry; apply Nat.eqb_neq; simpl in Hnum; lia).
  split; [exact Hv|]. split; [exact Hn'|].
  rewrite He. unfold endtime. rewrite Hn. reflexivity.
Qed.

End BoundedRoundTrip.

(** * Properties of the instrument correction

    ** [detrend] *)

Lemma imap_pointwise (f g : nat -> Q -> Q) (l : list Q) :
  (forall i x, l !! i = Some x -> f i x == g i x) ->
  Forall2 Qeq (imap f l) (imap g l).
Proof.
  revert f g. induction l as [|x l IH]; intros f g H; [constructor|].
  rewrite !imap_cons. constructor; [by apply (H 0%nat)|].
  apply IH. intros i y Hi. by apply (H (S i)).
Qed.

Lemma imap_imap (f g : nat -> Q -> Q) (l : list Q) :
  imap f (imap g l) = imap (fun i x => f i (g i x)) l.
Proof.
  revert f g. induction l as [|x l IH]; intros f g; [done|].
  rewrite !imap_cons. f_equal. by rewrite IH.
Qed.

Lemma last_imap (f : nat -> Q -> Q) (l : list Q) :
  last (imap f l) = f (Nat.pred (length l)) <$> last l.
Proof. by rewrite !last_lookup, length_imap, list_lookup_imap. Qed.

Lemma samples_nonzero (n : nat) :
  (2 <= n)%nat -> ~ inject_Z (Z.of_nat n - 1) == 0.
Proof.
  intros Hn H. unfold Qeq in H. simpl in H. lia.
Qed.

(** [detrend] on two samples or more. *)
Lemma detrend_run (trace : list Q) (x1 x2 : Q) :
  (2 <= length trace)%nat ->
  trace !! 0%nat = Some x1 ->
  last trace = Some x2 ->
  detrend trace
  = Detrended (imap (fun i x =>
                       x - (x1 + inject_Z (Z.of_nat i) * (x2 - x1)
                                 / inject_Z (Z.of_nat (length trace) - 1)))
                    trace).
Proof.
  intros Hn H1 H2. unfold detrend. rewrite H1, H2.
  destruct (length trace =? 1)%nat eqn:E; [apply Nat.eqb_eq in E; lia|done].
Qed.

Lemma detrend_ends (trace : list Q) :
  (2 <= length trace)%nat ->
  exists x1 x2, trace !! 0%nat = Some x1 /\ last trace = Some x2.
Proof.
  intros Hn. destruct trace as [|x1 rest]; [simpl in Hn; lia|].
  exists x1. destruct (last (x1 :: rest)) as [x2|] eqn:E; [by exists x2|].
  by apply last_None in E.
Qed.

Lemma detrend_lengths (trace : list Q) :
  match detrend trace with
  | Detrended _ => (2 <= length trace)%nat
  | _ => True
  end.
Proof.
  destruct trace as [|x1 [|y rest]]; [done|done|].
  unfold detrend. simpl. destruct (last _); [|done]. lia.
Qed.

(** X20: [detrend] raises [IndexError] on an empty array and makes [nan] of a
    single sample.  On two samples or more it keeps the number of samples
    and puts the first and the last sample to zero, the line it subtracts
    going through both; detrending the result again changes nothing. *)
Theorem detrend_puts_both_ends_to_zero (trace : list Q) :
  match detrend trace with
  | Detrend_raises e => e = IndexError /\ trace = []
  | Detrended_to_nan => length trace = 1%nat
  | Detrended trace' =>
      (2 <= length trace)%nat
      /\ length trace' = length trace
      /\ (exists x, trace' !! 0%nat = Some x /\ x == 0)
      /\ (exists x, last trace' = Some x /\ x == 0)
      /\ exists trace'',
          detrend trace' = Detrended trace'' /\ Forall2 Qeq trace'' trace'
  end.
Proof.
  destruct trace as [|x1 [|y rest]]; [done|done|].
  set (trace := x1 :: y :: rest).
  assert (Hn : (2 <= length trace)%nat) by (simpl; lia).
  pose proof (samples_nonzero _ Hn) as Hd.
  destruct (detrend_ends _ Hn) as (x1' & x2 & H1 & H2).
  assert (x1' = x1) as -> by (by injection H1).
  rewrite (detrend_run _ _ _ Hn H1 H2).
  set (f := fun (i : nat) (x : Q) =>
              x - (x1 + inject_Z (Z.of_nat i) * (x2 - x1)
                        / inject_Z (Z.of_nat (length trace) - 1))).
  assert (Hfirst : f 0%nat x1 == 0).
  { unfold f. change (inject_Z (Z.of_nat 0)) with 0. field. exact Hd. }
  assert (Hlast : f (Nat.pred (length trace)) x2 == 0).
  { unfold f. replace (Z.of_nat (Nat.pred (length trace)))
      with (Z.of_nat (length trace) - 1)%Z by lia.
    field. exact Hd. }
  split; [done|]. split; [apply length_imap|].
  split; [exists (f 0%nat x1); split; [by rewrite list_lookup_imap, H1|done]|].
  split; [exists (f (Nat.pred (length trace)) x2);
          split; [by rewrite last_imap, H2|done]|].
  eexists. split.
  - apply detrend_run.
    + by rewrite length_imap.
    + by rewrite list_lookup_imap, H1.
    + by rewrite last_imap, H2.
  - rewrite length_imap, imap_imap.
    apply imap_pointwise. intros i x _. rewrite Hfirst, Hlast. field. exact Hd.
Qed.

(** X21: [detrend] does not see a line added to the data: the array with
    [a + b * i] added to its samples is detrended to the same samples as the
    array itself.  So a straight line is detrended to zero. *)
Theorem detrend_ignores_a_line (a b : Q) (trace detrended : list Q) :
  detrend trace = Detrended detrended ->
  exists detrended',
    detrend (plus_line a b trace) = Detrended detrended'
    /\ Forall2 Qeq detrended' detrended
    /\ (Forall (fun x => x == 0) trace -> Forall (fun x => x == 0) detrended').
Proof.
  intros H.
  assert (Hn : (2 <= length trace)%nat).
  { pose proof (detrend_lengths trace) as Hl.
    rewrite H in Hl. exact Hl. }
  pose proof (samples_nonzero _ Hn) as Hd.
  destruct (detrend_ends _ Hn) as (x1 & x2 & H1 & H2).
  rewrite (detrend_run _ _ _ Hn H1 H2) in H. injection H as <-.
  unfold plus_line. eexists. split; [|split].
  - apply detrend_run.
    + by rewrite length_imap.
    + by rewrite list_lookup_imap, H1.
    + by rewrite last_imap, H2.
  - rewrite length_imap, imap_imap. apply imap_pointwise. intros i x _. simpl.
    change (inject_Z (Z.of_nat 0)) with 0.
    replace (Z.of_nat (Nat.pred (length trace)))
      with (Z.of_nat (length trace) - 1)%Z by lia.
    field. exact Hd.
  - intros Hz. rewrite length_imap, imap_imap.
    assert (Hx1 : x1 == 0).
    { rewrite Forall_forall in Hz. apply Hz. by eapply list_elem_of_lookup_2. }
    assert (Hx2 : x2 == 0).
    { rewrite Forall_forall in Hz. apply Hz. by eapply last_Some_elem_of. }
    apply Forall_forall. intros z Hin.
    apply elem_of_lookup_imap in Hin as (i & x & -> & Hi).
    assert (Hx : x == 0).
    { rewrite Forall_forall in Hz. apply Hz. by eapply list_elem_of_lookup_2. }
    simpl. change (inject_Z (Z.of_nat 0)) with 0.
    replace (Z.of_nat (Nat.pred (length trace)))
      with (Z.of_nat (length trace) - 1)%Z by lia.
    rewrite Hx, Hx1, Hx2. field. exact Hd.
Qed.

(** ** [cosTaper] *)

Lemma arange_length (n : Z) : length (numpy.arange n) = Z.to_nat n.
Proof. unfold numpy.arange. by rewrite length_map, length_seq. Qed.

Lemma linspace_length (start stop : Q) (num : Z) :
  length (numpy.linspace start stop num) = Z.to_nat num.
Proof.
  unfold numpy.linspace.
  destruct (num <=? 0)%Z eqn:E0; [apply Z.leb_le in E0; simpl; lia|].
  apply Z.leb_gt in E0.
  destruct (num =? 1)%Z eqn:E1; [apply Z.eqb_eq in E1; by subst|].
  apply Z.eqb_neq in E1.
  rewrite length_app, length_take, length_map, arange_length. simpl. lia.
Qed.

Lemma linspace_one (start stop : Q) : numpy.linspace start stop 1 = [start].
Proof. reflexivity. Qed.

Lemma linspace_last (start stop : Q) (num : Z) :
  (2 <= num)%Z -> last (numpy.linspace start stop num) = Some stop.
Proof.
  intros H. unfold numpy.linspace.
  destruct (num <=? 0)%Z eqn:E0; [apply Z.leb_le in E0; lia|].
  destruct (num =? 1)%Z eqn:E1; [apply Z.eqb_eq in E1; lia|].
  apply last_snoc.
Qed.

Lemma linspace_first (start stop : Q) (num : Z) :
  (2 <= num)%Z ->
  exists x, numpy.linspace start stop num !! 0%nat = Some x /\ x == start.
Proof.
  intros H. unfold numpy.linspace.
  destruct (num <=? 0)%Z eqn:E0; [apply Z.leb_le in E0; lia|].
  destruct (num =? 1)%Z eqn:E1; [apply Z.eqb_eq in E1; lia|].
  unfold numpy.arange.
  destruct (Z.to_nat num) as [|[|k]] eqn:Ek; [lia|lia|].
  replace (Z.to_nat (num - 1)) with (S k) by lia. simpl.
  eexists. split; [reflexivity|]. change (inject_Z (Z.of_nat 0)) with 0. ring.
Qed.

Lemma cosTaper_frac_nonneg (npts : Z) (p : Q) :
  0 <= p -> (0 <= npts)%Z -> (0 <= cosTaper_frac npts p)%Z.
Proof.
  intros Hp Hn.
  assert (H : (0 <= Py.int (inject_Z npts * p / 2))%Z).
  { apply Py_int_nonneg. apply Qle_shift_div_l; [reflexivity|].
    rewrite Qmult_0_l. apply Qmult_le_0_compat; [|done].
    change 0 with (inject_Z 0). by rewrite <- Zle_Qle. }
  unfold cosTaper_frac. destruct (_ || _); lia.
Qed.

Section Taper.

Variable cos : Q -> Q.
Variable pi : Q.

(** X22: the shape of the taper, for a fraction [p >= 0] and [npts >= 0] samples:
    [cosTaper] raises [ValueError] exactly when the two tapered ends, of
    [frac] samples each, do not fit into [npts] samples; otherwise it
    returns [npts] samples, and all samples between the two ends are [1]. *)
Theorem cosTaper_has_npts_samples_and_ones_in_the_middle (npts : Z) (p : Q) :
  0 <= p ->
  (0 <= npts)%Z ->
  match cosTaper cos pi npts p with
  | inl e =>
      e = ValueError_negative_dimensions /\ (npts < 2 * cosTaper_frac npts p)%Z
  | inr tap =>
      (0 <= 2 * cosTaper_frac npts p <= npts)%Z
      /\ Z.of_nat (length tap) = npts
      /\ forall i : nat,
          (cosTaper_frac npts p <= Z.of_nat i < npts - cosTaper_frac npts p)%Z ->
          tap !! i = Some 1
  end.
Proof.
  intros Hp Hn. pose proof (cosTaper_frac_nonneg _ _ Hp Hn) as Hf.
  unfold cosTaper, numpy.ones.
  destruct (npts - 2 * cosTaper_frac npts p <? 0)%Z eqn:E.
  - apply Z.ltb_lt in E. split; [done|lia].
  - apply Z.ltb_ge in E. split; [lia|]. split.
    + rewrite !length_app, !length_map, !linspace_length, length_replicate. lia.
    + intros i Hi.
      rewrite lookup_app_r by (rewrite length_map, linspace_length; lia).
      rewrite length_map, linspace_length.
      rewrite lookup_app_l by (rewrite length_replicate; lia).
      apply lookup_replicate_2. lia.
Qed.

(** X23: the two ends of the taper, when the cosine has its values at [0] and
    [pi] and at least one sample is tapered at each end ([frac >= 1]): the
    first sample is [0]; the last sample is [0] too if [frac >= 2], but it
    is [1] if [frac = 1], where the end of the window is not tapered at
    all.  That is the case of every window with [npts * p < 2] for a
    fraction [p] other than [0] and [1]: fewer than 20 samples for the
    default [p = 0.1]. *)
Theorem cosTaper_ends (npts : Z) (p : Q) (tap : list Q) :
  (forall x y, x == y -> cos x == cos y) ->
  cos pi == - (1) ->
  cos 0 == 1 ->
  (1 <= cosTaper_frac npts p)%Z ->
  cosTaper cos pi npts p = inr tap ->
  (exists x, tap !! 0%nat = Some x /\ x == 0)
  /\ (exists x, last tap = Some x
                /\ x == if (cosTaper_frac npts p =? 1)%Z then 1 else 0)
  /\ (0 < p -> ~ p == 1 -> (0 <= npts)%Z -> inject_Z npts * p < 2 ->
      cosTaper_frac npts p = 1%Z).
Proof.
  intros Hcos Hpi H0 Hf H. unfold cosTaper, numpy.ones in H.
  destruct (npts - 2 * cosTaper_frac npts p <? 0)%Z; [done|].
  injection H as <-.
  set (f := fun x => (1 # 2) * (1 + cos x)).
  assert (Hfpi : f pi == 0) by (unfold f; rewrite Hpi; reflexivity).
  assert (Hf0 : f 0 == 1) by (unfold f; rewrite H0; reflexivity).
  split; [|split].
  - destruct (Z.eq_dec (cosTaper_frac npts p) 1%Z) as [E|E].
    + rewrite E, linspace_one. simpl. by eexists.
    + destruct (linspace_first pi (2 * pi) (cosTaper_frac npts p))
        as (x & Hx & Hxpi); [lia|].
      exists (f x). split.
      * rewrite lookup_app_l
          by (rewrite length_map, linspace_length; lia).
        by rewrite list_lookup_fmap, Hx.
      * unfold f. rewrite (Hcos _ _ Hxpi). exact Hfpi.
  - rewrite !last_app.
    destruct (Z.eq_dec (cosTaper_frac npts p) 1%Z) as [E|E].
    + rewrite E, !linspace_one. simpl. by eexists.
    + apply Z.eqb_neq in E. rewrite E. apply Z.eqb_neq in E.
      exists (f pi). split; [|done].
      change (List.map f (numpy.linspace 0 pi (cosTaper_frac npts p)))
        with (f <$> numpy.linspace 0 pi (cosTaper_frac npts p)).
      by rewrite fmap_last, linspace_last by lia.
  - intros Hp Hp1 Hn Hsmall. unfold cosTaper_frac.
    assert (E0 : Qeq_bool p 0 = false).
    { apply not_true_iff_false. intros E. apply Qeq_bool_iff in E.
      rewrite E in Hp. by apply Qlt_irrefl in Hp. }
    assert (E1 : Qeq_bool p 1 = false).
    { apply not_true_iff_false. intros E. by apply Qeq_bool_iff in E. }
    rewrite E0, E1. simpl.
    assert (Hint : Py.int (inject_Z npts * p / 2) = 0%Z).
    { assert (Hlo : 0 <= inject_Z npts * p / 2).
      { apply Qle_shift_div_l; [reflexivity|]. rewrite Qmult_0_l.
        apply Qmult_le_0_compat; [|by apply Qlt_le_weak].
        change 0 with (inject_Z 0). by rewrite <- Zle_Qle. }
      assert (Hhi : inject_Z npts * p / 2 < 1).
      { apply Qlt_shift_div_r; [reflexivity|]. by rewrite Qmult_1_l. }
      revert Hlo Hhi. generalize (inject_Z npts * p / 2). intros [n d].
      unfold Py.int, Qle, Qlt. simpl. intros Hlo Hhi.
      apply Z.quot_small. lia. }
    rewrite Hint. reflexivity.
Qed.

End Taper.

(** ** The checks of [seisSim] *)

Lemma seisSim_check_dictionary_returns (d : object) :
  seisSim_check_dictionary d = inr tt -> d = None_ \/ usable d.
Proof.
  unfold seisSim_check_dictionary. destruct d as [|b|n|keys|t b]; try done; [by left|].
  destruct (List.find _ _) as [key|] eqn:E; [done|]. intros _. right.
  exists keys. split; [done|].
  pose proof (find_none _ _ E) as Hall.
  assert (Hin : forall key, In key ["poles"; "zeros"; "gain"]%string -> key ∈ keys).
  { intros key Hk. specialize (Hall key Hk). simpl in Hall.
    apply negb_false_iff in Hall. by apply bool_decide_eq_true in Hall. }
  repeat split; apply Hin; simpl; auto.
Qed.

Lemma seisSim_check_dictionary_raises (d : object) (e : invsim_error) :
  seisSim_check_dictionary d = inl e ->
  match e with
  | TypeError_expected_dictionary type =>
      d <> None_ /\ (forall keys, d <> Dict keys) /\ type = type_of d
  | KeyError_missing_key key =>
      exists keys, d = Dict keys /\ (key ∉ keys)
                   /\ In key ["poles"; "zeros"; "gain"]%string
  | _ => False
  end.
Proof.
  unfold seisSim_check_dictionary. destruct d as [|b|n|keys|t b]; try done;
    try (intros H; injection H as <-; by repeat split).
  destruct (List.find _ _) as [key|] eqn:E; [|done].
  intros H. injection H as <-. apply find_some in E as [Hin Hk].
  exists keys. split; [done|]. split; [|done].
  apply negb_true_iff in Hk. by apply bool_decide_eq_false in Hk.
Qed.

(** X24: what the checks of [seisSim] establish, with [paz_remove] and
    [paz_simulate] as they stand after the deprecated keyword arguments have
    been taken in.  The checks raise nothing but the two [TypeError]s and
    [KeyError], each for its reason: neither of the two is true; one of them
    is neither [None] nor a dictionary; one of them is a dictionary without
    the key named, which is one of poles, zeros and gain.  If they pass, at
    least one of the two is true, each is [None] or a dictionary with the
    three keys, and one that is true is such a dictionary: the lookups of
    poles, zeros and gain in the computation that follows find their key. *)
Theorem seisSim_checks_are_sound (a : seisSim_arguments) :
  let r := fst (fst (seisSim_compatible a)) in
  let s := snd (fst (seisSim_compatible a)) in
  match snd (seisSim_checks a) with
  | inl TypeError_neither_specified => truth_of r = false /\ truth_of s = false
  | inl (TypeError_expected_dictionary type) =>
      exists d, (d = r \/ d = s) /\ d <> None_ /\ (forall keys, d <> Dict keys)
                /\ type = type_of d
  | inl (KeyError_missing_key key) =>
      exists d keys, (d = r \/ d = s) /\ d = Dict keys /\ (key ∉ keys)
                     /\ In key ["poles"; "zeros"; "gain"]%string
  | inl _ => False
  | inr (r', s') =>
      r' = r /\ s' = s
      /\ (truth_of r = true \/ truth_of s = true)
      /\ (r = None_ \/ usable r) /\ (s = None_ \/ usable s)
      /\ (truth_of r = true -> usable r)
      /\ (truth_of s = true -> usable s)
  end.
Proof.
  unfold seisSim_checks.
  destruct (seisSim_compatible a) as [[r s] w]. simpl.
  destruct (negb (truth_of r) && negb (truth_of s)) eqn:E; simpl.
  { apply andb_true_iff in E as [Hr Hs].
    by rewrite negb_true_iff in Hr, Hs. }
  destruct (seisSim_check_dictionary r) as [e|[]] eqn:Er; simpl.
  { pose proof (seisSim_check_dictionary_raises _ _ Er) as H.
    destruct e; try done.
    - exists r. destruct H as (H1 & H2 & H3). by auto.
    - destruct H as (keys & H1 & H2 & H3). exists r, keys. by auto. }
  destruct (seisSim_check_dictionary s) as [e|[]] eqn:Es; simpl.
  { pose proof (seisSim_check_dictionary_raises _ _ Es) as H.
    destruct e; try done.
    - exists s. destruct H as (H1 & H2 & H3). by auto.
    - destruct H as (keys & H1 & H2 & H3). exists s, keys. by auto. }
  apply seisSim_check_dictionary_returns in Er, Es.
  split; [done|]. split; [done|]. split.
  { apply andb_false_iff in E as [E|E]; apply negb_false_iff in E; auto. }
  split; [done|]. split; [done|]. split.
  - intros Ht. destruct Er as [->|Hu]; [done|done].
  - intros Ht. destruct Es as [->|Hu]; [done|done].
Qed.

(** ** The properties at concrete accumulators *)

Lemma registerRtProcess_resolves_a_name_to_its_key_witness :
  registerRtProcess Demo.signal (Name "Int") [("width"%string, 3)] Cases.fresh
  = (inr (Int 1),
     registered_state Cases.fresh
       (Name "integrate", [("width"%string, 3)], Some [0%nat])
       "integrate" [("width"%string, 3)] [RtMemory_new]).
Proof.
  apply (registerRtProcess_resolves_a_name_to_its_key Demo.signal "Int"
           "integrate" [("width"%string, 3)] Cases.fresh
           (signal_integrate Demo.signal) 1).
  - intros H. vm_compute in H. discriminate.
  - right. left. reflexivity.
  - reflexivity.
Defined.

Lemma registerRtProcess_only_appends_witness :
  traces (snd (registerRtProcess Demo.signal (Name "tauc") [] Cases.fresh))
  = traces Cases.fresh
  /\ data (base (self (snd (registerRtProcess Demo.signal (Name "tauc") []
                                              Cases.fresh))))
     = data (base (self Cases.fresh)).
Proof.
  destruct (registerRtProcess_only_appends Demo.signal (Name "tauc") []
              Cases.fresh
              (snd (registerRtProcess Demo.signal (Name "tauc") [] Cases.fresh))
              (fst (registerRtProcess Demo.signal (Name "tauc") [] Cases.fresh)))
    as (Ht & _ & _ & _ & _ & Hd & _).
  - apply surjective_pairing.
  - by split.
Defined.

Lemma append_invokes_each_process_once_in_order_witness :
  exists new,
    invocations (snd (append Demo.signal 0 false false
                             (Cases.processing_state [Cases.late_packet])))
    = invocations (Cases.processing_state [Cases.late_packet]) ++ new
    /\ map inv_entry new = seq 0 (length new)
    /\ (length new
        <= length (processing (self (Cases.processing_state [Cases.late_packet]))))%nat
    /\ (forall v,
           fst (append Demo.signal 0 false false
                       (Cases.processing_state [Cases.late_packet])) = inr v ->
           map inv_entry new
           = seq 0 (length (processing
                              (self (Cases.processing_state [Cases.late_packet]))))).
Proof.
  apply (append_invokes_each_process_once_in_order Demo.signal 0 false false
           (Cases.processing_state [Cases.late_packet])).
  apply surjective_pairing.
Defined.

Lemma append_leaves_the_registered_processes_witness :
  Forall2 same_entry
          (processing (self (Cases.processing_state [Cases.late_packet])))
          (processing (self (snd (append Demo.signal 0 false false
                                         (Cases.processing_state
                                            [Cases.late_packet])))))
  /\ length (processing (self (snd (append Demo.signal 0 false false
                                           (Cases.processing_state
                                              [Cases.late_packet])))))
     = 2%nat.
Proof.
  destruct (append_leaves_the_registered_processes Demo.signal 0 false false
              (Cases.processing_state [Cases.late_packet])
              (snd (append Demo.signal 0 false false
                           (Cases.processing_state [Cases.late_packet])))
              (fst (append Demo.signal 0 false false
                           (Cases.processing_state [Cases.late_packet]))))
    as (Hall & Hlen & _).
  - apply surjective_pairing.
  - by split.
Defined.

Lemma append_carries_memory_over_contiguous_packets_witness :
  exists new,
    invocations (snd (append Demo.signal 0 true false
                             (Cases.processing_state [Cases.contiguous_packet])))
    = invocations (Cases.processing_state [Cases.contiguous_packet]) ++ new
    /\ processing (self (snd (append Demo.signal 0 true false
                                     (Cases.processing_state
                                        [Cases.contiguous_packet]))))
       = processing (self (Cases.processing_state [Cases.contiguous_packet]))
    /\ Forall (called_from
                 (processing (self (Cases.processing_state
                                      [Cases.contiguous_packet])))) new.
Proof.
  apply (append_carries_memory_over_contiguous_packets Demo.signal 0 true false
           (Cases.processing_state [Cases.contiguous_packet]) _
           (fst (append Demo.signal 0 true false
                        (Cases.processing_state [Cases.contiguous_packet])))
           Cases.contiguous_packet).
  - reflexivity.
  - right. split; [reflexivity|]. split; [by apply headers_match_cases|].
    split; [by vm_compute|]. split; by vm_compute.
  - apply surjective_pairing.
Defined.

Lemma the_registry_holds_keys_with_their_declared_memory_witness :
  Forall (registered Demo.signal) (processing (self Scenes.seeded)).
Proof.
  apply (the_registry_holds_keys_with_their_declared_memory Demo.signal
           Scenes.seeded).
  eapply reach_appended; [|apply surjective_pairing].
  eapply reach_registered; [|apply surjective_pairing].
  by apply (reach_constructed Demo.signal (Some 2)).
Defined.

Lemma append_finds_every_registered_process_witness :
  processing (self Scenes.seeded)
  = [(Name "integrate", [("width"%string, 3)], Some [0%nat])]
  /\ fst (append Demo.signal 1 true false Scenes.seeded)
     <> inl (KeyError "integrate").
Proof.
  split; [reflexivity|].
  apply (append_finds_every_registered_process Demo.signal Scenes.seeded 1 true
           false "integrate").
  eapply reach_appended; [|apply surjective_pairing].
  eapply reach_registered; [|apply surjective_pairing].
  by apply (reach_constructed Demo.signal (Some 2)).
Defined.

Lemma append_bounds_the_buffer_once_seeded_witness :
  0 < 2
  /\ (0 <= Py.int (2 * sampling_rate (stats (base (self Scenes.seeded))) + (1 # 2)))%Z
  /\ (np.size (data (base (self (snd (append Demo.signal 1 true false
                                             Scenes.seeded)))))
      <= Py.int (2 * sampling_rate (stats (base (self Scenes.seeded))) + (1 # 2)))%Z
  /\ npts (stats (base (self (snd (append Demo.signal 1 true false
                                          Scenes.seeded)))))
     = np.size (data (base (self (snd (append Demo.signal 1 true false
                                              Scenes.seeded))))).
Proof.
  apply (append_bounds_the_buffer_once_seeded Demo.signal Scenes.seeded _ 1
           Cases.next_packet true false (Ref_Trace 1) 2).
  - eapply reach_appended; [|apply surjective_pairing].
    eapply reach_registered; [|apply surjective_pairing].
    by apply (reach_constructed Demo.signal (Some 2)).
  - reflexivity.
  - reflexivity.
  - by vm_compute.
  - reflexivity.
  - by vm_compute.
Defined.

Lemma append_reports_the_first_field_that_differs_witness :
  append Demo.signal 0 true true (Cases.seeded_with [Cases.foreign_packet])
  = (inl (TypeError_id ("BW"%string, "RJOB"%string, ""%string, "EHZ"%string)
                       ("BW"%string, "RJOB"%string, ""%string, "EHN"%string)),
     Cases.seeded_with [Cases.foreign_packet]).
Proof.
  destruct (append_reports_the_first_field_that_differs Demo.signal
              (Cases.seeded_with [Cases.foreign_packet]) 0 Cases.foreign_packet
              true true eq_refl eq_refl) as [Hid _].
  apply Hid. intros H. vm_compute in H. discriminate.
Defined.

Lemma verbose_changes_nothing_but_the_output_witness :
  exists ls,
    append Demo.signal 0 false true (Cases.seeded_with [Cases.late_packet])
    = (fst (append Demo.signal 0 false false
                   (Cases.seeded_with [Cases.late_packet])),
       with_stdout (snd (append Demo.signal 0 false false
                                (Cases.seeded_with [Cases.late_packet])))
                   (stdout (Cases.seeded_with [Cases.late_packet]) ++ ls))
    /\ stdout (snd (append Demo.signal 0 false false
                           (Cases.seeded_with [Cases.late_packet])))
       = stdout (Cases.seeded_with [Cases.late_packet]) ++ filter is_warning ls.
Proof.
  apply (verbose_changes_nothing_but_the_output Demo.signal 0 false
           (Cases.seeded_with [Cases.late_packet])).
  apply surjective_pairing.
Defined.

Lemma append_pins_the_end_time_to_the_packet_witness :
  exists t',
    traces (snd (append Demo.signal 0 true false
                        (Cases.seeded_with [Cases.drifting_packet]))) !! 0%nat
    = Some t'
    /\ endtime (stats (base (self (snd (append Demo.signal 0 true false
                                               (Cases.seeded_with
                                                  [Cases.drifting_packet]))))))
       == starttime (stats Cases.drifting_packet)
          + inject_Z (np.size (data t') - 1)
            / sampling_rate (stats Cases.drifting_packet)
    /\ (np.size (data t') = npts (stats Cases.drifting_packet) ->
        endtime (stats (base (self (snd (append Demo.signal 0 true false
                                                (Cases.seeded_with
                                                   [Cases.drifting_packet]))))))
        == endtime (stats Cases.drifting_packet))
    /\ npts (stats (base (self (snd (append Demo.signal 0 true false
                                            (Cases.seeded_with
                                               [Cases.drifting_packet]))))))
       = np.size (data (base (self (snd (append Demo.signal 0 true false
                                                (Cases.seeded_with
                                                   [Cases.drifting_packet])))))).
Proof.
  apply (append_pins_the_end_time_to_the_packet Demo.signal
           (Cases.seeded_with [Cases.drifting_packet]) _ 0 Cases.drifting_packet
           true false (Ref_Trace 0)).
  - reflexivity.
  - reflexivity.
  - by apply headers_match_cases.
  - by vm_compute.
  - reflexivity.
  - intros m H. vm_compute in H. discriminate.
  - by vm_compute.
  - by vm_compute.
  - by vm_compute.
Defined.

Lemma _splitTrace_loses_no_sample_witness :
  concat (List.map (fun part => arr_values (data part)) Cases.series_parts)
  = arr_values (data Cases.series)
  /\ Forall (fun part => arr_dtype (data part) = arr_dtype (data Cases.series)
                         /\ same_channel (stats Cases.series) (stats part)
                         /\ npts (stats part) = np.size (data part))
            Cases.series_parts.
Proof.
  apply (_splitTrace_loses_no_sample Cases.series 3 Cases.series_parts).
  - reflexivity.
  - reflexivity.
  - reflexivity.
  - reflexivity.
Defined.

Lemma _splitTrace_part_sizes_witness :
  Forall2 (fun j part =>
             np.size (data part)
             = Z.max 0 (Z.min (part_length (np.size (data Cases.series)) 3)
                              (np.size (data Cases.series)
                               - Z.of_nat j
                                 * part_length (np.size (data Cases.series)) 3)))
          (seq 0 (Z.to_nat 3)) Cases.series_parts
  /\ List.map (fun part => np.size (data part)) Cases.series_parts
     = [3; 3; 1]%Z.
Proof.
  split; [|reflexivity].
  destruct (_splitTrace_part_sizes Cases.series 3 Cases.series_parts)
    as [Hsizes _].
  - reflexivity.
  - reflexivity.
  - reflexivity.
  - reflexivity.
  - exact Hsizes.
Defined.

Lemma append_seeds_with_the_processed_packet_witness :
  stdout (snd (append Demo.signal 0 true true Scenes.registered))
  = stdout Scenes.registered
  /\ processing (self (snd (append Demo.signal 0 true true Scenes.registered)))
     = processing (self Scenes.registered)
  /\ fst (append Demo.signal 0 true true Scenes.registered) = inr (Ref_Trace 0).
Proof.
  destruct (append_seeds_with_the_processed_packet Demo.signal Scenes.registered
              (snd (append Demo.signal 0 true true Scenes.registered))
              0 Cases.first_packet true true
              (fst (append Demo.signal 0 true true Scenes.registered)))
    as (Hout & Hp & _).
  - reflexivity.
  - reflexivity.
  - apply surjective_pairing.
  - split; [exact Hout|]. split; [exact Hp|reflexivity].
Defined.

Lemma detrend_ignores_a_line_witness :
  exists detrended detrended',
    detrend [1; 2; 4] = Detrended detrended
    /\ detrend (plus_line 1 1 [1; 2; 4]) = Detrended detrended'
    /\ Forall2 Qeq detrended' detrended.
Proof.
  eexists.
  destruct (detrend_ignores_a_line 1 1 [1; 2; 4] _ eq_refl) as (d' & H1 & H2 & _).
  exists d'. split; [reflexivity|]. by split.
Defined.

Lemma cosTaper_has_npts_samples_and_ones_in_the_middle_witness :
  exists tap,
    cosTaper Standin.cos Standin.pi 10 (1 # 10) = inr tap
    /\ Z.of_nat (length tap) = 10%Z
    /\ tap !! 5%nat = Some 1.
Proof.
  pose proof (cosTaper_has_npts_samples_and_ones_in_the_middle
                Standin.cos Standin.pi 10 (1 # 10)) as H.
  destruct (cosTaper Standin.cos Standin.pi 10 (1 # 10)) as [e|tap] eqn:E;
    [vm_compute in E; discriminate|].
  destruct H as (_ & Hlen & Hones); [by vm_compute|lia|].
  exists tap. split; [reflexivity|]. split; [exact Hlen|].
  apply Hones. by vm_compute.
Defined.

Lemma Standin_cos_value (x y : Q) : x == y -> Standin.cos x == Standin.cos y.
Proof.
  intros H. unfold Standin.cos.
  assert (Hpi : Qeq_bool x Standin.pi = Qeq_bool y Standin.pi).
  { apply eq_true_iff_eq. rewrite !Qeq_bool_iff. by rewrite H. }
  assert (H0 : Qeq_bool x 0 = Qeq_bool y 0).
  { apply eq_true_iff_eq. rewrite !Qeq_bool_iff. by rewrite H. }
  by rewrite Hpi, H0.
Qed.

Lemma cosTaper_ends_witness :
  exists tap,
    cosTaper Standin.cos Standin.pi 10 (1 # 10) = inr tap
    /\ (exists x, tap !! 0%nat = Some x /\ x == 0)
    /\ (exists x, last tap = Some x /\ x == 1).
Proof.
  destruct (cosTaper Standin.cos Standin.pi 10 (1 # 10)) as [e|tap] eqn:E;
    [vm_compute in E; discriminate|].
  destruct (cosTaper_ends Standin.cos Standin.pi 10 (1 # 10) tap)
    as (Hfirst & Hlast & _).
  - apply Standin_cos_value.
  - reflexivity.
  - reflexivity.
  - by vm_compute.
  - exact E.
  - exists tap. split; [reflexivity|]. split; [exact Hfirst|exact Hlast].
Defined.

Lemma gap_overlap_check_only_turns_gaps_into_errors_witness :
  (exists msg,
      fst (append Demo.signal 0 true false
                  (Cases.seeded_with [Cases.contiguous_packet]))
      = inl (TypeError_continuity msg))
  \/ append Demo.signal 0 false false (Cases.seeded_with [Cases.contiguous_packet])
     = (fst (append Demo.signal 0 true false
                    (Cases.seeded_with [Cases.contiguous_packet])),
        snd (append Demo.signal 0 true false
                    (Cases.seeded_with [Cases.contiguous_packet]))).
Proof.
  apply (gap_overlap_check_only_turns_gaps_into_errors Demo.signal 0 false
           (Cases.seeded_with [Cases.contiguous_packet])).
  apply surjective_pairing.
Defined.

Lemma append_keeps_the_most_recent_samples_witness :
  arr_values (data (base (self (snd (append Demo.signal 1 true false
                                            Scenes.seeded)))))
  = [3; 4]
  /\ exists t',
      traces (snd (append Demo.signal 1 true false Scenes.seeded)) !! 1%nat
      = Some t'
      /\ arr_values (data (base (self (snd (append Demo.signal 1 true false
                                                   Scenes.seeded)))))
         = retained (self Scenes.seeded)
                    (arr_values (data (base (self Scenes.seeded)))
                     ++ arr_values (data t'))
      /\ arr_dtype (data (base (self (snd (append Demo.signal 1 true false
                                                  Scenes.seeded)))))
         = arr_dtype (data (base (self Scenes.seeded)))
      /\ npts (stats (base (self (snd (append Demo.signal 1 true false
                                              Scenes.seeded)))))
         = np.size (data (base (self (snd (append Demo.signal 1 true false
                                                  Scenes.seeded))))).
Proof.
  split; [reflexivity|].
  apply (append_keeps_the_most_recent_samples Demo.signal Scenes.seeded _ 1
           Cases.next_packet true false (Ref_Trace 1)).
  - reflexivity.
  - reflexivity.
  - by apply headers_match_cases.
  - by vm_compute.
  - reflexivity.
  - intros m H. injection H as <-. by vm_compute.
  - by vm_compute.
  - by vm_compute.
  - by vm_compute.
Defined.

Lemma split_then_append_retains_the_end_of_the_series_witness :
  most_recent (Py.int ((1 # 25) * sampling_rate (stats Cases.series) + (1 # 2)))
              (arr_values (data Cases.series))
  = [4; 5; 6; 7]
  /\ exists st',
      append_each Demo.signal (seq 0 (length Cases.series_parts)) true false
                  Scenes.windowing
      = (inr tt, st')
      /\ arr_values (data (base (self st')))
         = most_recent
             (Py.int ((1 # 25) * sampling_rate (stats Cases.series) + (1 # 2)))
             (arr_values (data Cases.series))
      /\ npts (stats (base (self st'))) = np.size (data (base (self st')))
      /\ endtime (stats (base (self st'))) == endtime (stats Cases.series).
Proof.
  split; [reflexivity|].
  apply (split_then_append_retains_the_end_of_the_series Demo.signal
           Cases.series 3 Cases.series_parts Scenes.windowing (1 # 25)).
  - reflexivity.
  - reflexivity.
  - reflexivity.
  - reflexivity.
  - lia.
  - repeat (constructor; [discriminate|]). constructor.
  - reflexivity.
  - reflexivity.
  - reflexivity.
  - reflexivity.
  - reflexivity.
Defined.
